(** * GPSDO_v3: the discipline loop of the GPS disciplined OCXO firmware

    A shallow embedding of [GPSDO_v3.c] (ATtiny841, avr-gcc, avr-libc) and
    the properties of its timekeeper, frequency sampler, phase sampler,
    GPS-fix gate, PI controller, DAC driver and EEPROM persistence.

    Integer model.  On this target [char] is 8 bits and signed, [int] is
    16 bits and [long] is 32 bits.  Every C variable is a [Z] that stays in
    the range of its type; each operation is followed by the reduction the
    C conversion performs.  Signed overflow wraps (two's complement), which
    is what avr-gcc emits; the theorems that speak about exact arithmetic
    carry the hypotheses that exclude it.  The C operator [/] on signed
    operands truncates toward zero: it is [Z.quot], not [Z.div].

    Execution model.  Interrupt service routines and one pass of the body
    of [while(1)] in [main] are atomic steps on one record of all globals;
    a pass with an interrupt in its middle is written out where it matters
    ([main_loop_interrupted]).  In the discipline loop [handleGPS] starts
    from the parsed [gps_now_valid], and what the DEBUG build prints is
    kept as a list of tagged numbers.  The serial receiver with the NMEA
    parser in front of line 422, the transmit ring with the number
    output, and the pins of the DAC have embeddings of their own further
    down, each on its own state: bytes are [Z] in the range of
    [unsigned char], a pointer into a buffer is the list of the bytes
    from there on, and a call that would wait for an interrupt returns
    [None]. *)

From Stdlib Require Import Ascii String.
From Stdlib Require Import ZArith List Bool Lia.
From stdpp Require Import base list.
Import ListNotations.
Local Open Scope Z_scope.

(** ** Machine integers *)

Module CInt.

(** Conversion to an unsigned type of [w] bits. *)
Definition to_unsigned (w x : Z) : Z := x mod 2 ^ w.

(** Conversion to a signed type of [w] bits (two's complement). *)
Definition to_signed (w x : Z) : Z :=
  (x + 2 ^ (w - 1)) mod 2 ^ w - 2 ^ (w - 1).

Definition to_uchar : Z -> Z := to_unsigned 8.
Definition to_uint : Z -> Z := to_unsigned 16.
Definition to_ulong : Z -> Z := to_unsigned 32.
Definition to_char : Z -> Z := to_signed 8.
Definition to_int : Z -> Z := to_signed 16.
Definition to_long : Z -> Z := to_signed 32.

(** [int abs(int)] of avr-libc's [stdlib.h] (gcc's [__builtin_abs]): the
    argument is converted to [int] first, whatever its type. *)
Definition abs (x : Z) : Z :=
  let i := to_int x in if i <? 0 then to_int (- i) else i.

(** [long labs(long)]. *)
Definition labs (x : Z) : Z :=
  let l := to_long x in if l <? 0 then to_long (- l) else l.

Definition is_uchar (x : Z) : Prop := 0 <= x < 2 ^ 8.
Definition is_uint (x : Z) : Prop := 0 <= x < 2 ^ 16.
Definition is_ulong (x : Z) : Prop := 0 <= x < 2 ^ 32.
Definition is_char (x : Z) : Prop := - 2 ^ 7 <= x < 2 ^ 7.
Definition is_int (x : Z) : Prop := - 2 ^ 15 <= x < 2 ^ 15.
Definition is_long (x : Z) : Prop := - 2 ^ 31 <= x < 2 ^ 31.

End CInt.
Import CInt.

(** ** Compile-time options (lines 76-136) *)

Definition K_P : Z := 31400.
Definition K_I : Z := 13.
Definition DAC_SIGN : Z := -1.
Definition LED0 : Z := 2.   (* _BV(PORTB1) *)
Definition LED1 : Z := 4.   (* _BV(PORTB2) *)
Definition PHASE_ADC_MIDPOINT : Z := 512.
Definition EE_UPDATE_OFFSET : Z := 75.
Definition NOMINAL_CLOCK : Z := 10000000.
Definition SAMPLE_COUNT : Z := 10.
Definition SAMPLE_SECONDS : Z := 25.
Definition MAX_DELTA : Z := 2500.

(** Bits of [MCUSR] (avr/io.h). *)
Definition PORF : Z := 0.
Definition EXTRF : Z := 1.
Definition BORF : Z := 2.
Definition WDRF : Z := 3.

(** ** Diagnostics of the DEBUG build

    One constructor per tag the firmware prints; the payload is the
    number handed to [itoa], [ltoa] or [tx_fp] before formatting. *)

Inductive diag : Type :=
| Tx_START | Tx_RES_PO | Tx_RES_EXT | Tx_RES_BO | Tx_RES_WD
| Tx_EE (v : Z) | Tx_TP (v : Z)
| Tx_G_LK | Tx_G_UN
| Tx_XXX (v : Z) | Tx_ADC (v : Z) | Tx_SB (v : Z)
| Tx_ER (v : Z) | Tx_PE (v : Z) | Tx_CE (v : Z)
| Tx_TE (v : Z) | Tx_AV (v : Z) | Tx_TV (v : Z) | Tx_PD | Tx_EEUP.

(** ** The globals (lines 138-161), the function statics and the hardware
    around them *)

#[projections(primitive)]
Record State : Type := mkState {
  last_dac_value : Z;  (* unsigned int: last word handed to the DAC driver *)
  phase_error_sum : Z;  (* long *)
  phase_error_count : Z;  (* int *)
  sample_buffer : list Z;  (* volatile int [SAMPLE_COUNT] *)
  valid_samples : Z;  (* volatile char (signed on avr-gcc) *)
  sample_window_pos : Z;  (* volatile unsigned char *)
  timer_hibits : Z;  (* volatile unsigned int *)
  pps_count : Z;  (* volatile unsigned long *)
  sample_count : Z;  (* volatile unsigned long *)
  gps_status : Z;  (* volatile unsigned char: bit 0 fix, bit 1 logged (DEBUG) *)
  lock : Z;  (* volatile unsigned char *)
  total_error : Z;  (* volatile long *)
  trim_percent : Z;  (* volatile long *)
  last_adc_value : Z;  (* volatile unsigned int *)
  erroneous_delta : Z;  (* volatile long *)
  last_timer_val : Z;  (* static unsigned long of ISR(TIMER1_CAPT_vect) *)
  last_pps_count : Z;  (* static unsigned long of main *)
  last_sample_count : Z;  (* static unsigned long of main *)
  eeprom_trim : Z;  (* the EEPROM word at EE_TRIM_LOC *)
  dac_reg : Z;  (* input register of the AD5061 *)
  dac_frames : list (list bool);  (* frames clocked out on DAC_PORT *)
  led_port : Z;  (* PORTB *)
  tx_log : list diag  (* DEBUG: items handed to the serial transmitter *)
}.

Definition set_last_dac_value (v : Z) (st : State) : State :=
  mkState v (phase_error_sum st) (phase_error_count st) (sample_buffer st)
    (valid_samples st) (sample_window_pos st) (timer_hibits st)
    (pps_count st) (sample_count st) (gps_status st) (lock st)
    (total_error st) (trim_percent st) (last_adc_value st)
    (erroneous_delta st) (last_timer_val st) (last_pps_count st)
    (last_sample_count st) (eeprom_trim st) (dac_reg st) (dac_frames st)
    (led_port st) (tx_log st).

Definition set_phase_error_sum (v : Z) (st : State) : State :=
  mkState (last_dac_value st) v (phase_error_count st) (sample_buffer st)
    (valid_samples st) (sample_window_pos st) (timer_hibits st)
    (pps_count st) (sample_count st) (gps_status st) (lock st)
    (total_error st) (trim_percent st) (last_adc_value st)
    (erroneous_delta st) (last_timer_val st) (last_pps_count st)
    (last_sample_count st) (eeprom_trim st) (dac_reg st) (dac_frames st)
    (led_port st) (tx_log st).

Definition set_phase_error_count (v : Z) (st : State) : State :=
  mkState (last_dac_value st) (phase_error_sum st) v (sample_buffer st)
    (valid_samples st) (sample_window_pos st) (timer_hibits st)
    (pps_count st) (sample_count st) (gps_status st) (lock st)
    (total_error st) (trim_percent st) (last_adc_value st)
    (erroneous_delta st) (last_timer_val st) (last_pps_count st)
    (last_sample_count st) (eeprom_trim st) (dac_reg st) (dac_frames st)
    (led_port st) (tx_log st).

Definition set_sample_buffer (v : list Z) (st : State) : State :=
  mkState (last_dac_value st) (phase_error_sum st) (phase_error_count st) v
    (valid_samples st) (sample_window_pos st) (timer_hibits st)
    (pps_count st) (sample_count st) (gps_status st) (lock st)
    (total_error st) (trim_percent st) (last_adc_value st)
    (erroneous_delta st) (last_timer_val st) (last_pps_count st)
    (last_sample_count st) (eeprom_trim st) (dac_reg st) (dac_frames st)
    (led_port st) (tx_log st).

Definition set_valid_samples (v : Z) (st : State) : State :=
  mkState (last_dac_value st) (phase_error_sum st) (phase_error_count st)
    (sample_buffer st) v (sample_window_pos st) (timer_hibits st)
    (pps_count st) (sample_count st) (gps_status st) (lock st)
    (total_error st) (trim_percent st) (last_adc_value st)
    (erroneous_delta st) (last_timer_val st) (last_pps_count st)
    (last_sample_count st) (eeprom_trim st) (dac_reg st) (dac_frames st)
    (led_port st) (tx_log st).

Definition set_sample_window_pos (v : Z) (st : State) : State :=
  mkState (last_dac_value st) (phase_error_sum st) (phase_error_count st)
    (sample_buffer st) (valid_samples st) v (timer_hibits st) (pps_count st)
    (sample_count st) (gps_status st) (lock st) (total_error st)
    (trim_percent st) (last_adc_value st) (erroneous_delta st)
    (last_timer_val st) (last_pps_count st) (last_sample_count st)
    (eeprom_trim st) (dac_reg st) (dac_frames st) (led_port st) (tx_log st).

Definition set_timer_hibits (v : Z) (st : State) : State :=
  mkState (last_dac_value st) (phase_error_sum st) (phase_error_count st)
    (sample_buffer st) (valid_samples st) (sample_window_pos st) v
    (pps_count st) (sample_count st) (gps_status st) (lock st)
    (total_error st) (trim_percent st) (last_adc_value st)
    (erroneous_delta st) (last_timer_val st) (last_pps_count st)
    (last_sample_count st) (eeprom_trim st) (dac_reg st) (dac_frames st)
    (led_port st) (tx_log st).

Definition set_pps_count (v : Z) (st : State) : State :=
  mkState (last_dac_value st) (phase_error_sum st) (phase_error_count st)
    (sample_buffer st) (valid_samples st) (sample_window_pos st)
    (timer_hibits st) v (sample_count st) (gps_status st) (lock st)
    (total_error st) (trim_percent st) (last_adc_value st)
    (erroneous_delta st) (last_timer_val st) (last_pps_count st)
    (last_sample_count st) (eeprom_trim st) (dac_reg st) (dac_frames st)
    (led_port st) (tx_log st).

Definition set_sample_count (v : Z) (st : State) : State :=
  mkState (last_dac_value st) (phase_error_sum st) (phase_error_count st)
    (sample_buffer st) (valid_samples st) (sample_window_pos st)
    (timer_hibits st) (pps_count st) v (gps_status st) (lock st)
    (total_error st) (trim_percent st) (last_adc_value st)
    (erroneous_delta st) (last_timer_val st) (last_pps_count st)
    (last_sample_count st) (eeprom_trim st) (dac_reg st) (dac_frames st)
    (led_port st) (tx_log st).

Definition set_gps_status (v : Z) (st : State) : State :=
  mkState (last_dac_value st) (phase_error_sum st) (phase_error_count st)
    (sample_buffer st) (valid_samples st) (sample_window_pos st)
    (timer_hibits st) (pps_count st) (sample_count st) v (lock st)
    (total_error st) (trim_percent st) (last_adc_value st)
    (erroneous_delta st) (last_timer_val st) (last_pps_count st)
    (last_sample_count st) (eeprom_trim st) (dac_reg st) (dac_frames st)
    (led_port st) (tx_log st).

Definition set_lock (v : Z) (st : State) : State :=
  mkState (last_dac_value st) (phase_error_sum st) (phase_error_count st)
    (sample_buffer st) (valid_samples st) (sample_window_pos st)
    (timer_hibits st) (pps_count st) (sample_count st) (gps_status st) v
    (total_error st) (trim_percent st) (last_adc_value st)
    (erroneous_delta st) (last_timer_val st) (last_pps_count st)
    (last_sample_count st) (eeprom_trim st) (dac_reg st) (dac_frames st)
    (led_port st) (tx_log st).

Definition set_total_error (v : Z) (st : State) : State :=
  mkState (last_dac_value st) (phase_error_sum st) (phase_error_count st)
    (sample_buffer st) (valid_samples st) (sample_window_pos st)
    (timer_hibits st) (pps_count st) (sample_count st) (gps_status st)
    (lock st) v (trim_percent st) (last_adc_value st) (erroneous_delta st)
    (last_timer_val st) (last_pps_count st) (last_sample_count st)
    (eeprom_trim st) (dac_reg st) (dac_frames st) (led_port st) (tx_log st).

Definition set_trim_percent (v : Z) (st : State) : State :=
  mkState (last_dac_value st) (phase_error_sum st) (phase_error_count st)
    (sample_buffer st) (valid_samples st) (sample_window_pos st)
    (timer_hibits st) (pps_count st) (sample_count st) (gps_status st)
    (lock st) (total_error st) v (last_adc_value st) (erroneous_delta st)
    (last_timer_val st) (last_pps_count st) (last_sample_count st)
    (eeprom_trim st) (dac_reg st) (dac_frames st) (led_port st) (tx_log st).

Definition set_last_adc_value (v : Z) (st : State) : State :=
  mkState (last_dac_value st) (phase_error_sum st) (phase_error_count st)
    (sample_buffer st) (valid_samples st) (sample_window_pos st)
    (timer_hibits st) (pps_count st) (sample_count st) (gps_status st)
    (lock st) (total_error st) (trim_percent st) v (erroneous_delta st)
    (last_timer_val st) (last_pps_count st) (last_sample_count st)
    (eeprom_trim st) (dac_reg st) (dac_frames st) (led_port st) (tx_log st).

Definition set_erroneous_delta (v : Z) (st : State) : State :=
  mkState (last_dac_value st) (phase_error_sum st) (phase_error_count st)
    (sample_buffer st) (valid_samples st) (sample_window_pos st)
    (timer_hibits st) (pps_count st) (sample_count st) (gps_status st)
    (lock st) (total_error st) (trim_percent st) (last_adc_value st) v
    (last_timer_val st) (last_pps_count st) (last_sample_count st)
    (eeprom_trim st) (dac_reg st) (dac_frames st) (led_port st) (tx_log st).

Definition set_last_timer_val (v : Z) (st : State) : State :=
  mkState (last_dac_value st) (phase_error_sum st) (phase_error_count st)
    (sample_buffer st) (valid_samples st) (sample_window_pos st)
    (timer_hibits st) (pps_count st) (sample_count st) (gps_status st)
    (lock st) (total_error st) (trim_percent st) (last_adc_value st)
    (erroneous_delta st) v (last_pps_count st) (last_sample_count st)
    (eeprom_trim st) (dac_reg st) (dac_frames st) (led_port st) (tx_log st).

Definition set_last_pps_count (v : Z) (st : State) : State :=
  mkState (last_dac_value st) (phase_error_sum st) (phase_error_count st)
    (sample_buffer st) (valid_samples st) (sample_window_pos st)
    (timer_hibits st) (pps_count st) (sample_count st) (gps_status st)
    (lock st) (total_error st) (trim_percent st) (last_adc_value st)
    (erroneous_delta st) (last_timer_val st) v (last_sample_count st)
    (eeprom_trim st) (dac_reg st) (dac_frames st) (led_port st) (tx_log st).

Definition set_last_sample_count (v : Z) (st : State) : State :=
  mkState (last_dac_value st) (phase_error_sum st) (phase_error_count st)
    (sample_buffer st) (valid_samples st) (sample_window_pos st)
    (timer_hibits st) (pps_count st) (sample_count st) (gps_status st)
    (lock st) (total_error st) (trim_percent st) (last_adc_value st)
    (erroneous_delta st) (last_timer_val st) (last_pps_count st) v
    (eeprom_trim st) (dac_reg st) (dac_frames st) (led_port st) (tx_log st).

Definition set_eeprom_trim (v : Z) (st : State) : State :=
  mkState (last_dac_value st) (phase_error_sum st) (phase_error_count st)
    (sample_buffer st) (valid_samples st) (sample_window_pos st)
    (timer_hibits st) (pps_count st) (sample_count st) (gps_status st)
    (lock st) (total_error st) (trim_percent st) (last_adc_value st)
    (erroneous_delta st) (last_timer_val st) (last_pps_count st)
    (last_sample_count st) v (dac_reg st) (dac_frames st) (led_port st)
    (tx_log st).

Definition set_dac_reg (v : Z) (st : State) : State :=
  mkState (last_dac_value st) (phase_error_sum st) (phase_error_count st)
    (sample_buffer st) (valid_samples st) (sample_window_pos st)
    (timer_hibits st) (pps_count st) (sample_count st) (gps_status st)
    (lock st) (total_error st) (trim_percent st) (last_adc_value st)
    (erroneous_delta st) (last_timer_val st) (last_pps_count st)
    (last_sample_count st) (eeprom_trim st) v (dac_frames st) (led_port st)
    (tx_log st).

Definition set_dac_frames (v : list (list bool)) (st : State) : State :=
  mkState (last_dac_value st) (phase_error_sum st) (phase_error_count st)
    (sample_buffer st) (valid_samples st) (sample_window_pos st)
    (timer_hibits st) (pps_count st) (sample_count st) (gps_status st)
    (lock st) (total_error st) (trim_percent st) (last_adc_value st)
    (erroneous_delta st) (last_timer_val st) (last_pps_count st)
    (last_sample_count st) (eeprom_trim st) (dac_reg st) v (led_port st)
    (tx_log st).

Definition set_led_port (v : Z) (st : State) : State :=
  mkState (last_dac_value st) (phase_error_sum st) (phase_error_count st)
    (sample_buffer st) (valid_samples st) (sample_window_pos st)
    (timer_hibits st) (pps_count st) (sample_count st) (gps_status st)
    (lock st) (total_error st) (trim_percent st) (last_adc_value st)
    (erroneous_delta st) (last_timer_val st) (last_pps_count st)
    (last_sample_count st) (eeprom_trim st) (dac_reg st) (dac_frames st) v
    (tx_log st).

Definition set_tx_log (v : list diag) (st : State) : State :=
  mkState (last_dac_value st) (phase_error_sum st) (phase_error_count st)
    (sample_buffer st) (valid_samples st) (sample_window_pos st)
    (timer_hibits st) (pps_count st) (sample_count st) (gps_status st)
    (lock st) (total_error st) (trim_percent st) (last_adc_value st)
    (erroneous_delta st) (last_timer_val st) (last_pps_count st)
    (last_sample_count st) (eeprom_trim st) (dac_reg st) (dac_frames st)
    (led_port st) v.

(** ** DAC driver: [writeDacValue] (lines 173-200) *)

(** Line 191: the level of DO for bit [i], [(value >> i) & 0x1]. *)
Definition frame_bit (value : Z) (i : nat) : bool :=
  negb (Z.land (Z.shiftr value (Z.of_nat i)) 1 =? 0).

(** The bits clocked out by the two [for] loops: eight zeros, then bit 15
    down to bit 0 of [value]. *)
Definition dac_frame (value : Z) : list bool :=
  repeat false 8 ++ map (frame_bit value) (rev (seq 0 16)).

(** The input shift register of the AD5061 taking one bit. *)
Definition shift_in (acc : Z) (b : bool) : Z := 2 * acc + (if b then 1 else 0).

(** What the AD5061 holds once !CS rises: the last 16 bits shifted in, most
    significant first. *)
Definition dac_latch (frame : list bool) : Z :=
  fold_left shift_in (drop 8 frame) 0.

Definition writeDacValue (value : Z) (st : State) : State :=
  if value =? last_dac_value st then st
  else
    let st := set_last_dac_value value st in
    let st := set_dac_frames (dac_frames st ++ [dac_frame value]) st in
    set_dac_reg (dac_latch (dac_frame value)) st.

(** ** Timekeeper: [ISR(TIMER1_OVF_vect)] (lines 205-207) *)

Definition TIMER1_OVF (st : State) : State :=
  set_timer_hibits (to_uint (timer_hibits st + 1)) st.

(** ** PPS capture: [ISR(TIMER1_CAPT_vect)] (lines 215-275) *)

(** What the interrupt reads from the hardware: the input capture register,
    the overflow flag of [TIFR1] and the ADC conversion it waits for. *)
Record capture : Type := mkCapture {
  ICR1 : Z;
  TOV1 : bool;
  ADC : Z
}.

(** Lines 230-234: the 32-bit tick of the captured edge. *)
Definition capture_timer_val (hibits captured_lowbits : Z) (tov : bool) : Z :=
  let local_timer_hibits :=
    if tov && (captured_lowbits <? 0x8000) then to_uint (hibits + 1)
    else hibits in
  Z.lor (Z.shiftl local_timer_hibits 16) captured_lowbits.

(** Line 271: [memmove] of [SAMPLE_COUNT - 1] elements from index 1 to
    index 0; the last element keeps its old value. *)
Definition rotate_left (buf : list Z) : list Z :=
  take (Z.to_nat (SAMPLE_COUNT - 1)) (drop 1 buf)
  ++ drop (Z.to_nat (SAMPLE_COUNT - 1)) buf.

(** Lines 264-273: the buffer update for a [delta] that was not rejected. *)
Definition store_sample (delta : Z) (st : State) : State :=
  if valid_samples st <? 0 then
    set_valid_samples (to_char (valid_samples st + 1)) st
  else if valid_samples st <? SAMPLE_COUNT then
    let i := Z.to_nat (to_uchar (valid_samples st)) in
    let st := set_valid_samples (to_char (valid_samples st + 1)) st in
    set_sample_buffer (<[ i := to_int delta ]> (sample_buffer st)) st
  else
    let st := set_valid_samples SAMPLE_COUNT st in
    let st := set_sample_buffer (rotate_left (sample_buffer st)) st in
    set_sample_buffer
      (<[ Z.to_nat (SAMPLE_COUNT - 1) := to_int delta ]> (sample_buffer st)) st.

(** Lines 253 and 257: ticks since the previous window edge, less the
    nominal count, as a [long]. *)
Definition window_delta (timer_val last : Z) : Z :=
  let time_span := to_ulong (timer_val - last) in
  to_long (time_span - SAMPLE_SECONDS * NOMINAL_CLOCK).

Definition TIMER1_CAPT (c : capture) (st : State) : State :=
  let captured_lowbits := ICR1 c in
  let timer_val :=
    capture_timer_val (timer_hibits st) captured_lowbits (TOV1 c) in
  let st := set_last_adc_value (ADC c) st in
  if Z.land (gps_status st) 1 =? 0 then
    set_last_timer_val timer_val st
  else
    let st := set_pps_count (to_ulong (pps_count st + 1)) st in
    let st := set_sample_window_pos (to_uchar (sample_window_pos st - 1)) st in
    if 0 <? sample_window_pos st then st
    else
      let st := set_sample_window_pos SAMPLE_SECONDS st in
      let delta := window_delta timer_val (last_timer_val st) in
      let st := set_last_timer_val timer_val st in
      if (MAX_DELTA <? abs delta) && (0 <=? valid_samples st) then
        set_erroneous_delta delta st
      else
        let st := store_sample delta st in
        set_sample_count (to_ulong (sample_count st + 1)) st.

(** ** GPS-fix gate: the tail of [handleGPS] (lines 422-432)

    [gps_now_valid] is the outcome of line 407 for a [$GPGSA] sentence that
    passed the checksum and the field scan. *)
Definition handleGPS (gps_now_valid : bool) (st : State) : State :=
  let now : Z := if gps_now_valid then 1 else 0 in
  if now =? Z.land (gps_status st) 1 then st
  else
    let st := set_gps_status now st in
    if gps_status st =? 0 then
      let st := set_valid_samples (-1) st in
      let st := set_sample_window_pos SAMPLE_SECONDS st in
      let st := set_total_error 0 st in
      set_lock 0 st
    else st.

(** ** [main]: initialisation (lines 437-534) *)

Definition tx (d : list diag) (st : State) : State :=
  set_tx_log (tx_log st ++ d) st.

Definition reset_cause (mcusr_value : Z) : list diag :=
  (if Z.testbit mcusr_value PORF then [Tx_RES_PO] else []) ++
  (if Z.testbit mcusr_value EXTRF then [Tx_RES_EXT] else []) ++
  (if Z.testbit mcusr_value BORF then [Tx_RES_BO] else []) ++
  (if Z.testbit mcusr_value WDRF then [Tx_RES_WD] else []).

(** The globals as lines 472-503 leave them.  [sample_buffer], [lock] and
    the statics are not assigned by [main]; they are zero as .bss is.
    [ee] is the EEPROM word and [dac] the word the AD5061 holds when the
    controller comes out of reset. *)
Definition reset_state (mcusr_value ee dac : Z) : State :=
  {| last_dac_value := 0x8000;
     phase_error_sum := 0;
     phase_error_count := 0;
     sample_buffer := repeat 0 (Z.to_nat SAMPLE_COUNT);
     valid_samples := -1;
     sample_window_pos := SAMPLE_SECONDS;
     timer_hibits := 0;
     pps_count := 0;
     sample_count := 0;
     gps_status := 0;
     lock := 0;
     total_error := 0;
     trim_percent := 0;
     last_adc_value := PHASE_ADC_MIDPOINT;
     erroneous_delta := 0;
     last_timer_val := 0;
     last_pps_count := 0;
     last_sample_count := 0;
     eeprom_trim := ee;
     dac_reg := dac;
     dac_frames := [];
     led_port := 0;
     tx_log := Tx_START :: reset_cause mcusr_value |}.

(** Lines 516-532: restore the DAC from the EEPROM. *)
Definition restore_trim (st : State) : State :=
  let trim_value := eeprom_trim st in
  let trim_value := if trim_value =? 0xffff then 0x8000 else trim_value in
  let st := writeDacValue trim_value st in
  let st := set_trim_percent (to_long ((trim_value - 0x8000) * 100)) st in
  tx [Tx_EE trim_value; Tx_TP (to_long (DAC_SIGN * trim_percent st))] st.

Definition boot (mcusr_value ee dac : Z) : State :=
  restore_trim (reset_state mcusr_value ee dac).

(** ** [main]: one pass of the body of [while(1)] (lines 536-724) *)

(** Lines 545-552 (DEBUG): log a fix change once. *)
Definition log_status (st : State) : State :=
  if Z.land (gps_status st) 2 =? 0 then
    let st := set_gps_status (Z.lor (gps_status st) 2) st in
    tx [if Z.land (gps_status st) 1 =? 0 then Tx_G_UN else Tx_G_LK] st
  else st.

(** Lines 558-577: the lock grade in binary while locked, else a 2 Hz
    alternation derived from the high half of the tick counter. *)
Definition update_leds (st : State) : State :=
  let on (led port : Z) := Z.lor port led in
  let off (led port : Z) := Z.ldiff port led in
  if Z.land (gps_status st) 1 =? 0 then
    let blink_pos := to_uint (Z.rem (timer_hibits st) (Z.quot NOMINAL_CLOCK 65536)) in
    let blink_pos :=
      to_uint (Z.quot (to_uint (4 * blink_pos)) (Z.quot NOMINAL_CLOCK 65536)) in
    if Z.land blink_pos 1 =? 0 then
      set_led_port (off LED0 (on LED1 (led_port st))) st
    else
      set_led_port (off LED1 (on LED0 (led_port st))) st
  else
    let p := led_port st in
    let p := if Z.land (lock st) 1 =? 0 then off LED0 p else on LED0 p in
    let p := if Z.land (lock st) 2 =? 0 then off LED1 p else on LED1 p in
    set_led_port p st.

(** Line 605: [PHASE_ADC_MIDPOINT - last_adc_value] is computed in
    [unsigned int] and converted to [int]. *)
Definition current_phase_error (adc : Z) : Z :=
  to_int (to_uint (PHASE_ADC_MIDPOINT - adc)).

(** Line 614. *)
Definition average_phase_error (sum : Z) : Z := Z.quot sum SAMPLE_SECONDS.

(** Line 618: in mils, cut to [int]. *)
Definition sample_phase_error (average : Z) : Z :=
  to_int (Z.quot (to_long (average * 1000)) 512).

(** Lines 621-632: [sample_drift] after the [for] loop, started at [acc]. *)
Fixpoint sum_samples (acc : Z) (samples : list Z) : Z :=
  match samples with
  | [] => acc
  | s :: rest => sum_samples (to_long (acc + s)) rest
  end.

(** The entries the loop visits: indices [0 .. valid_samples - 1]. *)
Definition valid_entries (st : State) : list Z :=
  take (Z.to_nat (valid_samples st)) (sample_buffer st).

(** Line 647. *)
Definition scale_drift (sum : Z) : Z :=
  Z.quot (to_long (sum * 10)) SAMPLE_COUNT.

(** Lines 651-662. *)
Definition lock_grade (valid sample_drift : Z) : Z :=
  if valid <? SAMPLE_COUNT then 0
  else if abs sample_drift <? 1250 then
    if abs sample_drift <? 125 then
      if abs sample_drift <? 25 then 3 else 2
    else 1
  else 0.

(** Line 673. *)
Definition current_error (sample_drift phase_error : Z) : Z :=
  to_long (to_long (10 * sample_drift) + Z.quot phase_error 14).

(** Line 685: [DAC_SIGN * (...) / 10000] associates to the left. *)
Definition adj_val (current total : Z) : Z :=
  Z.quot
    (to_long (DAC_SIGN * to_long (to_long (current * K_P) + to_long (total * K_I))))
    10000.

(** Line 688: the quotient is cut to [int]; [0x8000] is an [unsigned int]
    constant, so the sum is formed modulo 2^16. *)
Definition trim_value (percent : Z) : Z :=
  to_uint (to_int (Z.quot percent 100) + 0x8000).

(** Lines 718-723. *)
Definition persist (current trim : Z) (st : State) : State :=
  if (abs current <? 100)
     && (EE_UPDATE_OFFSET <? abs (to_uint (eeprom_trim st - trim)))
  then tx [Tx_EEUP] (set_eeprom_trim trim st)
  else st.

(** Lines 673-723: the PI update. *)
Definition discipline (sample_drift phase_error : Z) (st : State) : State :=
  let current := current_error sample_drift phase_error in
  let st := tx [Tx_CE current] st in
  let st := set_total_error (to_long (total_error st + current)) st in
  let adj := adj_val current (total_error st) in
  let st := set_trim_percent (to_long (trim_percent st - adj)) st in
  let trim := trim_value (trim_percent st) in
  let st := writeDacValue trim st in
  let st :=
    tx [Tx_TE (total_error st); Tx_AV adj;
        Tx_TP (to_long (DAC_SIGN * trim_percent st)); Tx_TV trim; Tx_PD] st in
  persist current trim st.

(** Lines 612-665: a new sample is in the buffer. *)
Definition window_update (st : State) : State :=
  let st := set_last_sample_count (sample_count st) st in
  let average := average_phase_error (phase_error_sum st) in
  let st := set_phase_error_count 0 (set_phase_error_sum 0 st) in
  let phase_error := sample_phase_error average in
  let sum := sum_samples 0 (valid_entries st) in
  let st := tx (map Tx_SB (valid_entries st) ++ [Tx_ER sum; Tx_PE phase_error]) st in
  let sample_drift := scale_drift sum in
  let st := set_lock (lock_grade (valid_samples st) sample_drift) st in
  if valid_samples st <=? 0 then st
  else discipline sample_drift phase_error st.

(** Lines 581-611: a PPS edge was counted since the last pass. *)
Definition pps_update (st : State) : State :=
  let st := set_last_pps_count (pps_count st) st in
  if negb (erroneous_delta st =? 0) then
    set_erroneous_delta 0 (tx [Tx_XXX (erroneous_delta st)] st)
  else
    let st := tx [Tx_ADC (last_adc_value st)] st in
    let st :=
      set_phase_error_sum
        (to_long (phase_error_sum st + current_phase_error (last_adc_value st)))
        st in
    let st := set_phase_error_count (to_int (phase_error_count st + 1)) st in
    if last_sample_count st =? sample_count st then st
    else window_update st.

Definition main_loop (st : State) : State :=
  let st := log_status st in
  let st := update_leds st in
  if last_pps_count st =? pps_count st then st
  else pps_update st.

(** The first statements of a pass, up to the test of line 580. *)
Definition housekeeping (st : State) : State := update_leds (log_status st).

(** ** Runs

    The firmware after reset, driven by its interrupts and by passes of
    the main loop, in any order. *)

Inductive event : Type :=
| Overflow                       (* ISR(TIMER1_OVF_vect) *)
| Capture (c : capture)          (* ISR(TIMER1_CAPT_vect) *)
| Gps (gps_now_valid : bool)     (* ISR(USART0_RX_vect) reaching line 422 *)
| Loop.                          (* one pass of while(1) *)

Definition well_formed (e : event) : Prop :=
  match e with
  | Capture c => is_uint (ICR1 c) /\ is_uint (ADC c)
  | _ => True
  end.

Definition step (e : event) (st : State) : State :=
  match e with
  | Overflow => TIMER1_OVF st
  | Capture c => TIMER1_CAPT c st
  | Gps v => handleGPS v st
  | Loop => main_loop st
  end.

Definition run (es : list event) (st : State) : State :=
  fold_left (fun s e => step e s) es st.

Inductive reachable : State -> Prop :=
| reach_boot mcusr_value ee dac :
    is_uchar mcusr_value -> is_uint ee -> is_uint dac ->
    reachable (boot mcusr_value ee dac)
| reach_step e st :
    reachable st -> well_formed e -> reachable (step e st).

(** ** Views of the state *)

(** What the capture interrupt publishes to the main loop. *)
Definition sampler (st : State) : Z * Z * list Z * Z * Z :=
  (pps_count st, sample_count st, sample_buffer st, valid_samples st,
   sample_window_pos st).

(** What the main loop accumulates per PPS edge and per window. *)
Definition accumulators (st : State) : Z * Z * Z :=
  (phase_error_sum st, phase_error_count st, total_error st).

(** The tuning value in all its copies: fixed point, driver, DAC, EEPROM. *)
Definition tuning (st : State) : Z * Z * Z * list (list bool) * Z :=
  (trim_percent st, last_dac_value st, dac_reg st, dac_frames st,
   eeprom_trim st).

(** The fix bit of a report, as line 407 computes it. *)
Definition fix_bit (v : bool) : Z := if v then 1 else 0.

Definition locked (st : State) : bool := negb (Z.land (gps_status st) 1 =? 0).

(** The main loop has seen every PPS edge and every sample so far. *)
Definition caught_up (st : State) : Prop :=
  last_pps_count st = pps_count st /\ last_sample_count st = sample_count st.

Definition no_gps (e : event) : bool :=
  match e with Gps _ => false | _ => true end.

(** ** Concrete states used below *)

(** Locked, the second window after the fix has closed with a delta of
    48 ticks, and the main loop has run lines 612-665 of its pass. *)
Definition window_closed_state : State :=
  {| last_dac_value := 0x8000;
     phase_error_sum := 0;
     phase_error_count := 0;
     sample_buffer := [48; 0; 0; 0; 0; 0; 0; 0; 0; 0];
     valid_samples := 1;
     sample_window_pos := SAMPLE_SECONDS;
     timer_hibits := 7629;
     pps_count := 50;
     sample_count := 2;
     gps_status := 3;
     lock := 0;
     total_error := 0;
     trim_percent := 0;
     last_adc_value := PHASE_ADC_MIDPOINT;
     erroneous_delta := 0;
     last_timer_val := 500000048;
     last_pps_count := 50;
     last_sample_count := 2;
     eeprom_trim := 0xffff;
     dac_reg := 0x8000;
     dac_frames := [];
     led_port := 0;
     tx_log := [] |}.

(** ** Timer 1 as the capture interrupt meets it

    The environment of lines 218-229.  TCNT1 wraps every 65536 ticks and
    each wrap sets TOV1; the overflow interrupt clears the flag and counts
    the wrap into [timer_hibits].  A wrap whose interrupt has not run yet
    is [pending].  The capture unit latches TCNT1 at the PPS edge; the
    capture interrupt reads TIFR1 [latency] ticks later, before any
    overflow interrupt can run. *)

(** The tick count of the PPS edge, modulo 2^32: the wraps counted so far,
    one more if a wrap is pending at the edge, then the latched low bits. *)
Definition edge_tick (hibits : Z) (pending : bool) (lowbits : Z) : Z :=
  to_ulong (to_uint (hibits + (if pending then 1 else 0)) * 65536 + lowbits).

(** TOV1 as the capture interrupt reads it: set at the edge already, or
    set by a wrap of the counter between the edge and the read. *)
Definition tov_at_service (pending : bool) (lowbits latency : Z) : bool :=
  pending || (65536 <=? lowbits + latency).

(** ** The capture interrupt at the end of a window *)

(** The state a window-closing capture hands to the outlier test. *)
Definition window_edge (c : capture) (st : State) : State :=
  set_last_timer_val (capture_timer_val (timer_hibits st) (ICR1 c) (TOV1 c))
    (set_sample_window_pos SAMPLE_SECONDS
       (set_pps_count (to_ulong (pps_count st + 1))
          (set_last_adc_value (ADC c) st))).

(** The delta of the window a capture closes. *)
Definition closing_delta (c : capture) (st : State) : Z :=
  window_delta (capture_timer_val (timer_hibits st) (ICR1 c) (TOV1 c))
               (last_timer_val st).

(** Locked, caught up, two samples' worth of history, and one PPS edge
    away from the end of the window that began at tick 500000048: an edge
    at tick 750000048 would give a delta of 0. *)
Definition closing_state : State :=
  set_timer_hibits 11444 (set_sample_window_pos 1 window_closed_state).

(** The capture of an edge [delta] ticks late in [closing_state]
    (750000048 = 11444 * 65536 + 6064). *)
Definition edge_late (delta adc : Z) : capture :=
  mkCapture (6064 + delta) false adc.

(** [closing_state] with the skip-one marker still armed. *)
Definition armed_state : State := set_valid_samples (-1) closing_state.

(** ** The sample buffer over a run of accepted deltas *)

(** The deltas of [deltas], oldest first, stored one after the other. *)
Definition store_all (deltas : list Z) (st : State) : State :=
  fold_left (fun s d => store_sample d s) deltas st.

(** The [n] newest of a list that is kept oldest first. *)
Definition newest (n : nat) (l : list Z) : list Z := drop (length l - n) l.

(** [hist] is the list of the samples stored since the marker was
    consumed, oldest first; the valid part of the buffer is its tail. *)
Definition tracks (hist : list Z) (st : State) : Prop :=
  length (sample_buffer st) = 10%nat /\
  valid_samples st = Z.of_nat (Nat.min 10 (length hist)) /\
  valid_entries st = newest 10 hist.

(** The fill count is the skip marker or a number of samples, and the
    buffer is an array of [SAMPLE_COUNT] values of type [int]. *)
Definition fill_ok (st : State) : Prop :=
  (valid_samples st = -1 \/ 0 <= valid_samples st <= SAMPLE_COUNT)
  /\ length (sample_buffer st) = Z.to_nat SAMPLE_COUNT
  /\ Forall is_int (sample_buffer st).

(** [closing_state] with a full buffer. *)
Definition full_state : State :=
  set_valid_samples SAMPLE_COUNT
    (set_sample_buffer [1; 2; 3; 4; 5; 6; 7; 8; 9; 10] closing_state).

(** ** The window update in exact integer arithmetic

    The formulas of the controller over [Z], with no reduction to the
    width of a C type.  Division is the one of C, rounding toward zero,
    but for [dac_word_floor], which rounds down. *)

Module Spec.

Definition sum (samples : list Z) : Z := fold_right Z.add 0 samples.

Definition sample_drift (samples : list Z) : Z :=
  Z.quot (sum samples * 10) SAMPLE_COUNT.

Definition average_phase_error (phase_error_sum : Z) : Z :=
  Z.quot phase_error_sum SAMPLE_SECONDS.

Definition sample_phase_error (average : Z) : Z :=
  Z.quot (average * 1000) PHASE_ADC_MIDPOINT.

Definition current_error (sample_drift phase_error : Z) : Z :=
  10 * sample_drift + Z.quot phase_error 14.

Definition adj (current total : Z) : Z :=
  Z.quot (DAC_SIGN * (current * K_P + total * K_I)) 10000.

Definition dac_word (trim_percent : Z) : Z := Z.quot trim_percent 100 + 0x8000.

Definition dac_word_floor (trim_percent : Z) : Z := trim_percent / 100 + 0x8000.

(** The sums and products of lines 683-686 stay in the range of [long]. *)
Definition fits (current total_before trim_before : Z) : Prop :=
  let total := total_before + current in
  is_long total /\
  is_long (current * K_P) /\
  is_long (total * K_I) /\
  is_long (current * K_P + total * K_I) /\
  is_long (DAC_SIGN * (current * K_P + total * K_I)) /\
  is_long (trim_before - adj current total).

End Spec.

(** ** A pass of the main loop that finds a new sample *)

(** Lines 605-618: the phase error of the window, from the sum so far and
    the reading of this edge. *)
Definition window_phase_error (st : State) : Z :=
  sample_phase_error
    (average_phase_error
       (to_long (phase_error_sum st + current_phase_error (last_adc_value st)))).

(** Lines 621-632: the sum of the valid entries. *)
Definition window_sum (st : State) : Z := sum_samples 0 (valid_entries st).

(** Line 647. *)
Definition window_drift (st : State) : Z := scale_drift (window_sum st).

(** The globals after line 662 of such a pass. *)
Definition measured (st : State) : State :=
  set_lock (lock_grade (valid_samples st) (window_drift st))
    (tx (map Tx_SB (valid_entries st)
         ++ [Tx_ER (window_sum st); Tx_PE (window_phase_error st)])
       (set_phase_error_count 0
          (set_phase_error_sum 0
             (set_last_sample_count (sample_count st)
                (tx [Tx_ADC (last_adc_value st)]
                   (set_last_pps_count (pps_count st) st)))))).

(** What the pass works from. *)
Definition window_inputs (st : State) : Z * Z * Z * list Z * Z * Z * Z :=
  (phase_error_sum st, last_adc_value st, valid_samples st, sample_buffer st,
   total_error st, trim_percent st, eeprom_trim st).

(** A new PPS edge and a new sample are waiting, and no outlier report. *)
Definition sample_pending (st : State) : Prop :=
  last_pps_count st <> pps_count st /\
  erroneous_delta st = 0 /\
  last_sample_count st <> sample_count st.

(** Locked; the window has just closed on a delta of -5 ticks, the first
    sample after the skipped one; 24 phase readings of the window sum to
    375 and the 25th, at the midpoint, is in [last_adc_value]. *)
Definition sampled_state : State :=
  {| last_dac_value := 0x8000;
     phase_error_sum := 375;
     phase_error_count := 24;
     sample_buffer := [-5; 0; 0; 0; 0; 0; 0; 0; 0; 0];
     valid_samples := 1;
     sample_window_pos := SAMPLE_SECONDS;
     timer_hibits := 7629;
     pps_count := 50;
     sample_count := 2;
     gps_status := 3;
     lock := 0;
     total_error := 0;
     trim_percent := 0;
     last_adc_value := PHASE_ADC_MIDPOINT;
     erroneous_delta := 0;
     last_timer_val := 499999995;
     last_pps_count := 49;
     last_sample_count := 1;
     eeprom_trim := 0xffff;
     dac_reg := 0x8000;
     dac_frames := [];
     led_port := 0;
     tx_log := [] |}.

(** The test of line 259 for the window a capture closes. *)
Definition rejects (c : capture) (st : State) : bool :=
  (MAX_DELTA <? abs (closing_delta c st)) && (0 <=? valid_samples st).

(** The C conversions of lines 607-618 leave the phase error as it is:
    the sum fits [long], its average times 1000 fits [long], and the
    result fits [int]. *)
Definition phase_fits (sum : Z) : Prop :=
  is_long sum /\
  is_long (Spec.average_phase_error sum * 1000) /\
  is_int (Spec.sample_phase_error (Spec.average_phase_error sum)).

(** [closing_state] in the middle of an accumulation: 24 readings that
    sum to 100. *)
Definition accumulating_state : State :=
  set_phase_error_count 24 (set_phase_error_sum 100 closing_state).

(** ** A run that ends far off frequency

    One window of PPS edges as the firmware meets them: 24 captures, each
    followed by a pass of the main loop, then the timer overflows of the
    window (their place among the captures does not matter: only the
    closing capture uses the tick), then the capture that closes the
    window with the low bits [icr], and a pass of the main loop.  The
    phase detector reads [adc] throughout. *)
Definition window_events (overflows : nat) (icr adc : Z) : list event :=
  concat (repeat [Capture (mkCapture 0 false adc); Loop] 24)
  ++ repeat Overflow overflows
  ++ [Capture (mkCapture icr false adc)].

(** Power-on with an erased EEPROM, a 3D fix, and an oscillator that runs
    fast: the window edges fall at ticks 250000000 (the window the skip
    marker consumes), 500002500, 750005000 and 1000006553, so the deltas
    taken are 2500, 2500 and 1553 ticks, all within [MAX_DELTA]. *)
Definition far_off_run : list event :=
  [Gps true]
  ++ window_events 3814 45696 468 ++ [Loop]
  ++ window_events 3815 28356 468 ++ [Loop]
  ++ window_events 3815 11016 468 ++ [Loop]
  ++ window_events 3814 58265 468.

(** The state in which the main loop finds the third sample. *)
Definition far_off_state : State := run far_off_run (boot 1 0xffff 0x8000).

(** [well_formed], decided. *)
Definition well_formedb (e : event) : bool :=
  match e with
  | Capture c =>
      (0 <=? ICR1 c) && (ICR1 c <? 2 ^ 16) && (0 <=? ADC c) && (ADC c <? 2 ^ 16)
  | _ => true
  end.

(** The sampler and the integrator as the gate leaves them when the fix
    is lost. *)
Definition is_reset (st : State) : Prop :=
  valid_samples st = -1 /\ sample_window_pos st = SAMPLE_SECONDS /\
  total_error st = 0 /\ lock st = 0.

(** ** A loss of fix in the middle of a pass

    Interrupts are enabled while the main loop runs.  This is the pass
    that finds a new sample with valid entries in the buffer when the
    interrupt service routine [irq] runs between the test of line 665 and
    line 673: the locals of the pass ([sample_drift],
    [sample_phase_error]) are computed, the globals are read afterwards. *)
Definition main_loop_interrupted (irq : State -> State) (st : State) : State :=
  discipline (window_drift st) (window_phase_error st)
    (irq (measured (housekeeping st))).

(** Power-on with an erased EEPROM, a 3D fix, the window the skip marker
    consumes, and a window that closes 48 ticks late (at tick 500000048);
    the phase detector reads the midpoint. *)
Definition lock_run : list event :=
  [Gps true]
  ++ window_events 3814 45696 512 ++ [Loop]
  ++ window_events 3815 25904 512.

(** The state in which the main loop finds the first sample. *)
Definition first_sample_state : State := run lock_run (boot 1 0xffff 0x8000).

(** Unlocked, with an integrator that is not zero: [first_sample_state]
    after a pass during which the receive interrupt delivers the loss of
    fix.  The loop adds its [current_error] of 480 to the [total_error]
    the gate has just cleared. *)
Definition holdover_state : State :=
  {| last_dac_value := 0x8000 + 15;
     phase_error_sum := 0;
     phase_error_count := 0;
     sample_buffer := [48; 0; 0; 0; 0; 0; 0; 0; 0; 0];
     valid_samples := -1;
     sample_window_pos := SAMPLE_SECONDS;
     timer_hibits := 7629;
     pps_count := 50;
     sample_count := 2;
     gps_status := 0;
     lock := 0;
     total_error := 480;
     trim_percent := 1507;
     last_adc_value := PHASE_ADC_MIDPOINT;
     erroneous_delta := 0;
     last_timer_val := 500000048;
     last_pps_count := 50;
     last_sample_count := 2;
     eeprom_trim := 0xffff;
     dac_reg := 0x8000 + 15;
     dac_frames := [dac_frame (0x8000 + 15)];
     led_port := 0;
     tx_log := [Tx_START; Tx_RES_PO; Tx_EE 0x8000; Tx_TP 0; Tx_G_LK]
               ++ repeat (Tx_ADC 512) 25 ++ [Tx_ER 0; Tx_PE 0]
               ++ repeat (Tx_ADC 512) 25
               ++ [Tx_SB 48; Tx_ER 48; Tx_PE 0; Tx_CE 480; Tx_TE 480;
                   Tx_AV (-1507); Tx_TP (-1507); Tx_TV (0x8000 + 15); Tx_PD] |}.

(** The word the driver has sent last: the one of the last frame clocked
    out since reset, or, when there is none, the 0x8000 that line 472
    takes the DAC to have powered up with.  The word the DAC holds is
    [dac_reg]. *)
Definition last_written (st : State) : Z :=
  match last (dac_frames st) with
  | Some frame => dac_latch frame
  | None => 0x8000
  end.

(** The driver's record agrees with the frames it has clocked out. *)
Definition driver_ok (st : State) : Prop :=
  last_dac_value st = last_written st /\ is_uint (last_dac_value st).

(** ** Invariants of the globals *)

(** Every global that the interrupts and the main loop share holds a value
    of its C type. *)
Definition typed (st : State) : Prop :=
  is_uint (last_dac_value st) /\
  is_long (phase_error_sum st) /\
  is_int (phase_error_count st) /\
  is_uint (timer_hibits st) /\
  is_ulong (pps_count st) /\
  is_ulong (sample_count st) /\
  0 <= gps_status st <= 3 /\
  is_long (total_error st) /\
  is_long (trim_percent st) /\
  is_uint (last_adc_value st) /\
  is_long (erroneous_delta st) /\
  is_ulong (last_timer_val st) /\
  is_ulong (last_pps_count st) /\
  is_ulong (last_sample_count st) /\
  is_uint (eeprom_trim st) /\
  is_uint (dac_reg st).

(** The window position counts down from [SAMPLE_SECONDS] to 1, and a lock
    grade above 0 is shown only with a fix and a full buffer. *)
Definition graded (st : State) : Prop :=
  1 <= sample_window_pos st <= SAMPLE_SECONDS /\
  0 <= lock st <= 3 /\
  (lock st <> 0 -> valid_samples st = SAMPLE_COUNT /\ locked st = true).

(** ** Runs inside one sample window *)

(** The PPS edges and the timer overflows among the events of a run. *)
Fixpoint edges (es : list event) : Z :=
  match es with
  | [] => 0
  | Capture _ :: es => 1 + edges es
  | _ :: es => edges es
  end.

Fixpoint overflows (es : list event) : Z :=
  match es with
  | [] => 0
  | Overflow :: es => 1 + overflows es
  | _ :: es => overflows es
  end.

(** What a window keeps from its first edge to its last: the sample
    count, the buffer, its fill and the tick of the previous window edge. *)
Definition window_base (st : State) : Z * list Z * Z * Z :=
  (sample_count st, sample_buffer st, valid_samples st, last_timer_val st).

(** The events of one window before its closing edge: 24 PPS edges, each
    followed by a pass of the main loop, and the overflows of the timer. *)
Definition window_body (overflows : nat) (adc : Z) : list event :=
  concat (repeat [Capture (mkCapture 0 false adc); Loop] 24)
  ++ repeat Overflow overflows.


(** The DAC driver and the DAC are in step with the trim: the word the
    driver remembers is the one the trim stands for and, once a frame has
    been clocked out, the one the DAC holds. *)
Definition in_step (st : State) : Prop :=
  last_dac_value st = trim_value (trim_percent st) /\
  (dac_frames st <> [] -> dac_reg st = last_dac_value st).

(** ** Serial receiver: [ISR(USART0_RX_vect)] (lines 279-294) and the
    parser of [handleGPS] (lines 377-421)

    A byte is a [Z] in the range of [unsigned char]; a pointer into
    [rx_buf] is the list of the bytes from there to the end of the
    array. *)

Definition RX_BUF_LEN : Z := 64.

(** The code of a character constant. *)
Definition ch (a : ascii) : Z := Z.of_N (N_of_ascii a).

(** The bytes of a string literal, without the terminating zero. *)
Definition bytes (s : string) : list Z := map ch (list_ascii_of_string s).

Definition CR : Z := 0x0d.
Definition LF : Z := 0x0a.

(** Lines 365-370. *)
Definition hexChar (c : Z) : Z :=
  if (ch "0" <=? c) && (c <=? ch "9") then to_uchar (c - ch "0")
  else if (ch "a" <=? c) && (c <=? ch "f") then to_uchar (c - ch "a" + 10)
  else if (ch "A" <=? c) && (c <=? ch "F") then to_uchar (c - ch "A" + 10)
  else 0.

(** [rx_buf[i]]. *)
Definition at_index (buf : list Z) (i : Z) : Z := nth (Z.to_nat i) buf 0.

(** Lines 384-387: the loop over [rx_buf[1 .. str_len - 1]], given as the
    list [s] of these bytes; [i] and [checksum] when the loop is left. *)
Fixpoint checksum_loop (s : list Z) (i checksum : Z) : Z * Z :=
  match s with
  | [] => (i, checksum)
  | c :: s =>
      if c =? ch "*" then (i, checksum)
      else checksum_loop s (to_int (i + 1)) (to_uchar (Z.lxor checksum c))
  end.

(** [strncmp] of the C library: the difference of the first bytes that
    differ among the first [n], 0 when there is none before the end of
    the strings.  The end of a list stands for the terminating zero. *)
Fixpoint strncmp (s1 s2 : list Z) (n : nat) : Z :=
  match n with
  | O => 0
  | S n =>
      let c1 := hd 0 s1 in
      let c2 := hd 0 s2 in
      if c1 =? c2 then
        if c1 =? 0 then 0 else strncmp (tl s1) (tl s2) n
      else c1 - c2
  end.

(** [strchr] of the C library: the string from the first [c] on, [None]
    (the null pointer) when the terminating zero comes first. *)
Fixpoint strchr (s : list Z) (c : Z) : option (list Z) :=
  match s with
  | [] => None
  | b :: rest =>
      if b =? c then Some s
      else if b =? 0 then None
      else strchr rest c
  end.

(** Lines 400-406 and 410-416: [n] times, find the next comma and step
    over it; [None] when the function returns for want of a comma. *)
Fixpoint skip_commas (n : nat) (ptr : list Z) : option (list Z) :=
  match n with
  | O => Some ptr
  | S n =>
      match strchr ptr (ch ",") with
      | None => None
      | Some p => skip_commas n (tl p)
      end
  end.

(** Lines 417-420 (DEBUG): the string left in [pdop_buf].  When no comma
    follows, the length is the difference of the null pointer and [ptr],
    which depends on where the linker put [rx_buf]: [None]. *)
Definition read_pdop (ptr : list Z) : option (list Z) :=
  match strchr ptr (ch ",") with
  | Some p =>
      let len := to_uchar (Z.of_nat (length ptr - length p)) in
      let len := if 4 <? len then 4 else len in
      Some (take (Z.to_nat len) ptr)
  | None => None
  end.

(** Lines 378-421: what [handleGPS] finds in [rx_buf], where the
    terminator was written at index [str_len].  [None] stands for every
    [return] before line 417; otherwise [gps_now_valid] of line 407 and
    the new content of [pdop_buf]. *)
Definition parse_sentence (buf : list Z) (str_len : Z)
  : option (bool * option (list Z)) :=
  if str_len <? 9 then None
  else
    let '(i, checksum) :=
      checksum_loop (drop 1 (take (Z.to_nat str_len) buf)) 1 0 in
    if to_uint (str_len - 3) <? to_uint i then None
    else
      let i := to_int (i + 1) in
      let sent_checksum :=
        to_uchar (Z.lor (Z.shiftl (hexChar (at_index buf i)) 4)
                        (hexChar (at_index buf (i + 1)))) in
      if negb (sent_checksum =? checksum) then None
      else if negb (strncmp buf (bytes "$GPGSA") 6 =? 0) then None
      else
        match skip_commas 2 buf with
        | None => None
        | Some ptr =>
            let gps_now_valid := hd 0 ptr =? ch "3" in
            match skip_commas 13 ptr with
            | None => None
            | Some ptr => Some (gps_now_valid, read_pdop ptr)
            end
        end.

(** The receiver's own globals. *)
Record Receiver : Type := mkReceiver {
  rx_buf : list Z;
  rx_str_len : Z;
  pdop_buf : option (list Z)
}.

(** [handleGPS] (lines 377-434) on the line in [rx_buf]. *)
Definition handleGPS_line (r : Receiver) (st : State) : Receiver * State :=
  match parse_sentence (rx_buf r) (rx_str_len r) with
  | None => (r, st)
  | Some (gps_now_valid, pdop) =>
      (mkReceiver (rx_buf r) (rx_str_len r) pdop, handleGPS gps_now_valid st)
  end.

(** [ISR(USART0_RX_vect)] for the byte [rx_char] read from [UDR0]. *)
Definition USART0_RX (rx_char : Z) (rs : Receiver * State) : Receiver * State :=
  let '(r, st) := rs in
  if (rx_str_len r =? 0) && negb (rx_char =? ch "$") then (r, st)
  else
    let i := Z.to_nat (rx_str_len r) in
    let r := mkReceiver (<[ i := rx_char ]> (rx_buf r)) (rx_str_len r) (pdop_buf r) in
    if (rx_char =? 0x0d) || (rx_char =? 0x0a) then
      let r := mkReceiver (<[ i := 0 ]> (rx_buf r)) (rx_str_len r) (pdop_buf r) in
      let '(r, st) := handleGPS_line r st in
      (mkReceiver (rx_buf r) 0 (pdop_buf r), st)
    else
      let r := mkReceiver (rx_buf r) (to_uchar (rx_str_len r + 1)) (pdop_buf r) in
      if rx_str_len r =? RX_BUF_LEN
      then (mkReceiver (rx_buf r) 0 (pdop_buf r), st)
      else (r, st).

(** The receiver after reset (lines 496 and 501): [rx_buf] is in .bss. *)
Definition reset_receiver : Receiver :=
  mkReceiver (repeat 0 (Z.to_nat RX_BUF_LEN)) 0 (Some []).

(** The interrupt run once for each byte of [cs]. *)
Definition receive (cs : list Z) (rs : Receiver * State) : Receiver * State :=
  fold_left (fun rs c => USART0_RX c rs) cs rs.

(** ** NMEA sentences

    What a receiver sends: [$], the payload, [*], and the exclusive or of
    the payload bytes as two hexadecimal digits. *)

Definition nmea_checksum (payload : list Z) : Z := fold_left Z.lxor payload 0.

Definition hex_digit (n : Z) : Z :=
  if n <? 10 then ch "0" + n else ch "A" + (n - 10).

Definition nmea_sentence (payload : list Z) : list Z :=
  ch "$" :: payload
  ++ [ch "*"; hex_digit (nmea_checksum payload / 16);
      hex_digit (nmea_checksum payload mod 16)].

(** The payload of a GSA sentence with the given fields, each one
    preceded by a comma. *)
Definition gsa_payload (fields : list (list Z)) : list Z :=
  bytes "GPGSA" ++ concat (map (cons (ch ",")) fields).

(** A byte of a field: not zero, not a separator, not a line end. *)
Definition plain (c : Z) : bool :=
  (0 <? c) && (c <? 256) && negb (c =? ch ",") && negb (c =? ch "*")
  && negb (c =? CR) && negb (c =? LF).

(** The number of commas in a line. *)
Fixpoint commas (s : list Z) : nat :=
  match s with
  | [] => 0
  | c :: s => if c =? ch "," then S (commas s) else commas s
  end.

(** The sentence quoted at line 398 of the source, and its fields. *)
Definition sample_gsa : list Z :=
  bytes "$GPGSA,A,3,02,06,12,24,25,29,,,,,,,1.61,1.33,0.90*01".

Definition sample_sats : list (list Z) :=
  [bytes "02"; bytes "06"; bytes "12"; bytes "24"; bytes "25"; bytes "29";
   []; []; []; []; []; []].

(** The sample sentence with its fix mode changed on the wire from 3 to 1
    and the checksum left as it was. *)
Definition corrupted_gsa : list Z :=
  bytes "$GPGSA,A,1,02,06,12,24,25,29,,,,,,,1.61,1.33,0.90*01".

(** A GGA sentence with a correct checksum. *)
Definition sample_gga : list Z :=
  nmea_sentence (bytes "GPGGA,1,2,3,4,5,6,7,8,9,10,11,12,13,14,15").

(** A GSA sentence with a correct checksum and thirteen fields. *)
Definition short_gsa : list Z :=
  nmea_sentence (bytes "GPGSA,A,3,02,06,12,24,25,29,,,,,1.61").

(** The receive index points into [rx_buf]. *)
Definition rx_ok (r : Receiver) : Prop :=
  length (rx_buf r) = Z.to_nat RX_BUF_LEN /\ 0 <= rx_str_len r < RX_BUF_LEN.

(** A byte that does not end a line. *)
Definition inline (c : Z) : bool := negb (c =? CR) && negb (c =? LF).

(** A GSA sentence with twelve satellites in the fix: 64 bytes. *)
Definition full_gsa : list Z :=
  nmea_sentence
    (bytes "GPGSA,A,3,01,02,03,04,05,06,07,08,09,10,11,12,1.61,1.33,0.90").

(** ** Serial transmitter (DEBUG): [ISR(USART0_UDRE_vect)] (lines 297-305),
    [tx_char] (lines 311-328), [tx_pstr] and [tx_str] (lines 330-338) *)

Definition TX_BUF_LEN : Z := 96.

(** The transmit ring, the interrupt enable bit of the data register
    empty interrupt, and the bytes written to [UDR0] so far. *)
Record Transmitter : Type := mkTransmitter {
  txbuf : list Z;
  txbuf_head : Z;
  txbuf_tail : Z;
  UDRIE0 : bool;
  sent : list Z
}.

Definition USART0_UDRE (t : Transmitter) : Transmitter :=
  if txbuf_head t =? txbuf_tail t then
    mkTransmitter (txbuf t) (txbuf_head t) (txbuf_tail t) false (sent t)
  else
    let sent' := sent t ++ [at_index (txbuf t) (txbuf_tail t)] in
    let tail := to_uint (txbuf_tail t + 1) in
    let tail := if tail =? TX_BUF_LEN then 0 else tail in
    mkTransmitter (txbuf t) (txbuf_head t) tail (UDRIE0 t) sent'.

(** Lines 315-317: the fill of the ring as [tx_char] computes it. *)
Definition buf_in_use (t : Transmitter) : Z :=
  let buf_in_use := to_int (to_uint (txbuf_head t - txbuf_tail t)) in
  if buf_in_use <? 0 then to_int (buf_in_use + TX_BUF_LEN) else buf_in_use.

(** [tx_char].  The loop of lines 313-319 is left only with room in the
    ring; while there is none it spins, and nothing but a transmit
    interrupt can make room: [None]. *)
Definition tx_char (c : Z) (t : Transmitter) : option Transmitter :=
  if TX_BUF_LEN - 2 <=? buf_in_use t then None
  else
    let buf := <[ Z.to_nat (txbuf_head t) := c ]> (txbuf t) in
    let head := to_uint (txbuf_head t + 1) in
    let head := if head =? TX_BUF_LEN then 0 else head in
    Some (mkTransmitter buf head (txbuf_tail t) true (sent t)).

(** [tx_pstr] and [tx_str]: [tx_char] for each byte of the string. *)
Fixpoint tx_str (buf : list Z) (t : Transmitter) : option Transmitter :=
  match buf with
  | [] => Some t
  | c :: buf =>
      match tx_char c t with
      | Some t => tx_str buf t
      | None => None
      end
  end.

(** The transmitter after reset (line 502; [UCSR0B] is set at line 457
    without [UDRIE0]). *)
Definition reset_transmitter : Transmitter :=
  mkTransmitter (repeat 0 (Z.to_nat TX_BUF_LEN)) 0 0 false [].

(** What happens to the transmitter: a call of [tx_char] that finds room,
    and the data register empty interrupt, which is taken only while it
    is enabled. *)
Inductive tx_event : Type :=
| Put (c : Z)
| Udre.

Definition tx_step (e : tx_event) (t : Transmitter) : option Transmitter :=
  match e with
  | Put c => tx_char c t
  | Udre => Some (if UDRIE0 t then USART0_UDRE t else t)
  end.

Fixpoint tx_run (es : list tx_event) (t : Transmitter) : option Transmitter :=
  match es with
  | [] => Some t
  | e :: es =>
      match tx_step e t with
      | Some t => tx_run es t
      | None => None
      end
  end.

(** The bytes given to [tx_char] in a run. *)
Fixpoint puts (es : list tx_event) : list Z :=
  match es with
  | [] => []
  | Put c :: es => c :: puts es
  | Udre :: es => puts es
  end.

(** The bytes waiting in the ring, oldest first: those at the indices
    [tail], [tail + 1], ... up to [head], modulo the length of the ring. *)
Definition pending (t : Transmitter) : list Z :=
  map (fun k => at_index (txbuf t) ((txbuf_tail t + Z.of_nat k) mod TX_BUF_LEN))
      (seq 0 (Z.to_nat ((txbuf_head t - txbuf_tail t) mod TX_BUF_LEN))).

Definition ring_ok (t : Transmitter) : Prop :=
  length (txbuf t) = Z.to_nat TX_BUF_LEN /\
  0 <= txbuf_head t < TX_BUF_LEN /\
  0 <= txbuf_tail t < TX_BUF_LEN /\
  (txbuf_head t - txbuf_tail t) mod TX_BUF_LEN <= TX_BUF_LEN - 2 /\
  (txbuf_head t <> txbuf_tail t -> UDRIE0 t = true).

(** A ring with 94 bytes waiting. *)
Definition full_ring : Transmitter :=
  mkTransmitter (repeat 85 94 ++ [0; 0]) 94 0 true [].

(** The interrupt taken [n] times in a row. *)
Definition drain (n : nat) : list tx_event := repeat Udre n.

(** ** Number output (DEBUG): [pow10] (lines 341-345) and [tx_fp]
    (lines 348-361) *)

(** The loop of [pow10] run [n] times from [out]. *)
Fixpoint pow10_loop (n : nat) (out : Z) : Z :=
  match n with
  | O => out
  | S n => pow10_loop n (to_ulong (out * 10))
  end.

Definition pow10 (val : Z) : Z := pow10_loop (Z.to_nat val) 1.

(** The digit loop of [ltoa] and [itoa] of avr-libc: the digits of the
    unsigned number [n] in the given radix, most significant first, put
    in front of [acc]; letters are in lower case. *)
Fixpoint utoa_loop (fuel : nat) (radix n : Z) (acc : list Z) : list Z :=
  match fuel with
  | O => acc
  | S fuel =>
      let d := n mod radix in
      let acc := (if d <? 10 then ch "0" + d else ch "a" + (d - 10)) :: acc in
      if n / radix =? 0 then acc else utoa_loop fuel radix (n / radix) acc
  end.

(** [ltoa]: a minus sign for a negative number in radix 10; in any other
    radix the 32 bits are taken as unsigned. *)
Definition ltoa (val radix : Z) : list Z :=
  if (radix =? 10) && (val <? 0) then ch "-" :: utoa_loop 32 radix (- val) []
  else utoa_loop 32 radix (to_ulong val) [].

(** [itoa]: the same for the 16 bits of an [int]. *)
Definition itoa (val radix : Z) : list Z :=
  if (radix =? 10) && (val <? 0) then ch "-" :: utoa_loop 16 radix (- val) []
  else utoa_loop 16 radix (to_uint val) [].

(** Lines 357-358: one [0] for each [i] from 1 to [digits - 1] with
    [frac_part < pow10(i)]. *)
Definition fp_zeros (digits frac_part : Z) : list Z :=
  flat_map (fun i => if frac_part <? pow10 (Z.of_nat i) then [ch "0"] else [])
           (seq 1 (Z.to_nat digits - 1)).

(** The bytes [tx_fp] hands to [tx_char], in order. *)
Definition tx_fp_text (val digits : Z) : list Z :=
  let sign := if val <? 0 then ch "-" else ch "+" in
  let abs_val := to_ulong (labs val) in
  let whole := ltoa (to_long (abs_val / pow10 digits)) 10 in
  if digits =? 0 then sign :: whole
  else
    let frac_part := abs_val mod pow10 digits in
    sign :: whole ++ [ch "."] ++ fp_zeros digits frac_part
    ++ ltoa (to_long frac_part) 10.

Definition tx_fp (val digits : Z) (t : Transmitter) : option Transmitter :=
  tx_str (tx_fp_text val digits) t.

(** A decimal digit, and the number a string of digits stands for. *)
Definition is_digit (c : Z) : Prop := ch "0" <= c <= ch "9".

Definition read_decimal (s : list Z) : Z :=
  fold_left (fun a c => 10 * a + (c - ch "0")) s 0.

(** ** What [main] prints before it enables interrupts (lines 506-530) *)

Definition crlf : list Z := [CR; LF].

Definition boot_banner (mcusr_value ee : Z) : list Z :=
  let trim_value := if ee =? 0xffff then 0x8000 else ee in
  let trim_percent := to_long ((trim_value - 0x8000) * 100) in
  bytes "START" ++ crlf
  ++ (if Z.testbit mcusr_value PORF then bytes "RES_PO" ++ crlf else [])
  ++ (if Z.testbit mcusr_value EXTRF then bytes "RES_EXT" ++ crlf else [])
  ++ (if Z.testbit mcusr_value BORF then bytes "RES_BO" ++ crlf else [])
  ++ (if Z.testbit mcusr_value WDRF then bytes "RES_WD" ++ crlf else [])
  ++ bytes "EE=0x" ++ itoa (to_int trim_value) 16
  ++ crlf ++ bytes "TP="
  ++ tx_fp_text (to_long (DAC_SIGN * trim_percent)) 2
  ++ crlf.

(** ** The pins of the DAC: the body of [writeDacValue] (lines 177-199)

    [dac_frame] above lists the bits the two loops present on DO.  Here
    are the writes to [DAC_PORT] themselves, and the AD5061 as the
    comment of lines 163-172 describes it: the level of DO is taken on
    each falling edge of the clock while !CS is low, and the word takes
    effect when !CS rises. *)

Definition DAC_CS : Z := 8.    (* _BV(PORTA3) *)
Definition DAC_CLK : Z := 16.  (* _BV(PORTA4) *)
Definition DAC_DO : Z := 32.   (* _BV(PORTA5) *)

(** [DAC_PORT |= mask] and [DAC_PORT &= ~mask]. *)
Inductive port_op : Type :=
| Raise (mask : Z)
| Lower (mask : Z).

Definition apply_op (o : port_op) (port : Z) : Z :=
  match o with
  | Raise mask => Z.lor port mask
  | Lower mask => Z.ldiff port mask
  end.

(** One negative-going pulse of the clock (lines 187-188, 195-196). *)
Definition clock_pulse : list port_op := [Lower DAC_CLK; Raise DAC_CLK].

(** The statements of lines 178-199 for a [value] that differs from
    [last_dac_value]. *)
Definition dac_ops (value : Z) : list port_op :=
  [Raise DAC_CLK; Lower DAC_CS; Lower DAC_DO]
  ++ concat (repeat clock_pulse 8)
  ++ flat_map
       (fun i => (if frame_bit value i then Raise DAC_DO else Lower DAC_DO)
                 :: clock_pulse)
       (rev (seq 0 16))
  ++ [Raise DAC_CS].

(** The values [DAC_PORT] takes, one after the other. *)
Fixpoint port_trace (ops : list port_op) (port : Z) : list Z :=
  match ops with
  | [] => []
  | o :: ops => apply_op o port :: port_trace ops (apply_op o port)
  end.

(** The AD5061 watching the port: the bits shifted in since !CS fell, and
    the word that took effect when !CS last rose after 24 bits. *)
Record Ad5061 : Type := mkAd5061 {
  pins : Z;
  shifted : list bool;
  output : option Z
}.

Definition ad5061_step (chip : Ad5061) (port : Z) : Ad5061 :=
  let cs_was := Z.testbit (pins chip) 3 in
  let clk_was := Z.testbit (pins chip) 4 in
  let cs := Z.testbit port 3 in
  let clk := Z.testbit port 4 in
  let dout := Z.testbit port 5 in
  if cs_was && negb cs then mkAd5061 port [] (output chip)
  else if negb cs_was && cs then
    mkAd5061 port []
      (if (length (shifted chip) =? 24)%nat then Some (dac_latch (shifted chip))
       else output chip)
  else if negb cs && clk_was && negb clk then
    mkAd5061 port (shifted chip ++ [dout]) (output chip)
  else mkAd5061 port (shifted chip) (output chip).

Definition ad5061_run (ports : list Z) (chip : Ad5061) : Ad5061 :=
  fold_left ad5061_step ports chip.

(** The port after the last of the writes. *)
Definition port_after (ops : list port_op) (port : Z) : Z :=
  fold_left (fun p o => apply_op o p) ops port.

(** Selected, clock high, DO at level [d]. *)
Definition clocking (d : bool) (port : Z) : Prop :=
  Z.testbit port 3 = false /\ Z.testbit port 4 = true /\ Z.testbit port 5 = d.

(** ** Concrete runs used for the defects below *)

(** Unlocked again with one PPS edge waiting: the fix arrives, one edge
    is counted, and the fix is lost before the main loop has run. *)
Definition late_state : State :=
  run [Gps true; Capture (mkCapture 0 false 512); Gps false]
      (boot 1 0xffff 0x8000).

(** Power-on, a 3D fix, the window the skip marker consumes (edge at tick
    250000000), then a window whose closing edge comes 3000 ticks late, at
    tick 500003000 = 7629 * 65536 + 28856.  The phase detector reads 500
    throughout, 12 below the midpoint. *)
Definition outlier_run : list event :=
  [Gps true]
  ++ window_events 3814 45696 500 ++ [Loop]
  ++ window_events 3815 28856 500.

(** The state in which the main loop finds the rejected delta. *)
Definition outlier_state : State := run outlier_run (boot 1 0xffff 0x8000).

(** [outlier_run], the pass that reports the outlier, and a window that
    closes on time, at tick 750003000 = 11444 * 65536 + 9016. *)
Definition next_window_run : list event :=
  outlier_run ++ [Loop] ++ window_events 3815 9016 500.

(** The state in which the main loop finds the sample of that window. *)
Definition next_window_state : State :=
  run next_window_run (boot 1 0xffff 0x8000).

(** A reset that is not a power-on.  [main] starts again and initialises
    the globals; the EEPROM keeps its word, and the AD5061, which is not
    reset with the controller, keeps the word it was last sent.  Line 440
    arms the watchdog, and lines 508-511 report the cause of the reset. *)
Definition warm_reset (mcusr_value : Z) (st : State) : State :=
  boot mcusr_value (eeprom_trim st) (dac_reg st).

(** [first_sample_state] after the pass that finds the sample: the PI
    update has moved the DAC, and has left the EEPROM alone. *)
Definition tuned_state : State :=
  run (lock_run ++ [Loop]) (boot 1 0xffff 0x8000).

(** [tuned_state] after the watchdog has bitten. *)
Definition restarted_state : State := warm_reset (2 ^ WDRF) tuned_state.

Arguments to_unsigned : simpl never.
Arguments to_signed : simpl never.
Arguments to_uchar : simpl never.
Arguments to_uint : simpl never.
Arguments to_ulong : simpl never.
Arguments to_char : simpl never.
Arguments to_int : simpl never.
Arguments to_long : simpl never.
Arguments abs : simpl never.
Arguments dac_frame : simpl never.
Arguments dac_latch : simpl never.
Arguments store_sample : simpl never.

(** * Properties *)

(** Reduction of field accesses through updates, and of nothing else. *)
Ltac fields :=
  cbn beta iota zeta delta
    [
      last_dac_value phase_error_sum phase_error_count sample_buffer
      valid_samples sample_window_pos timer_hibits pps_count
      sample_count gps_status lock total_error trim_percent
      last_adc_value erroneous_delta last_timer_val last_pps_count
      last_sample_count eeprom_trim dac_reg dac_frames led_port tx_log
      set_last_dac_value set_phase_error_sum set_phase_error_count
      set_sample_buffer set_valid_samples set_sample_window_pos
      set_timer_hibits set_pps_count set_sample_count set_gps_status
      set_lock set_total_error set_trim_percent set_last_adc_value
      set_erroneous_delta set_last_timer_val set_last_pps_count
      set_last_sample_count set_eeprom_trim set_dac_reg set_dac_frames
      set_led_port set_tx_log tx sampler accumulators tuning ].

Ltac fields_in H :=
  cbn beta iota zeta delta
    [
      last_dac_value phase_error_sum phase_error_count sample_buffer
      valid_samples sample_window_pos timer_hibits pps_count
      sample_count gps_status lock total_error trim_percent
      last_adc_value erroneous_delta last_timer_val last_pps_count
      last_sample_count eeprom_trim dac_reg dac_frames led_port tx_log
      set_last_dac_value set_phase_error_sum set_phase_error_count
      set_sample_buffer set_valid_samples set_sample_window_pos
      set_timer_hibits set_pps_count set_sample_count set_gps_status
      set_lock set_total_error set_trim_percent set_last_adc_value
      set_erroneous_delta set_last_timer_val set_last_pps_count
      set_last_sample_count set_eeprom_trim set_dac_reg set_dac_frames
      set_led_port set_tx_log tx sampler accumulators tuning ] in H.


(** ** Conversions *)

Lemma to_unsigned_range w x : 0 <= w -> 0 <= to_unsigned w x < 2 ^ w.
Proof.
  intros Hw. unfold to_unsigned. apply Z.mod_pos_bound.
  apply Z.pow_pos_nonneg; lia.
Qed.

Lemma to_unsigned_id w x : 0 <= x < 2 ^ w -> to_unsigned w x = x.
Proof. intros H. unfold to_unsigned. now apply Z.mod_small. Qed.

Lemma to_signed_id w x :
  0 < w -> - 2 ^ (w - 1) <= x < 2 ^ (w - 1) -> to_signed w x = x.
Proof.
  intros Hw H. unfold to_signed.
  replace (2 ^ w) with (2 * 2 ^ (w - 1)).
  - rewrite Z.mod_small; lia.
  - rewrite <- Z.pow_succ_r by lia. f_equal. lia.
Qed.

Lemma to_signed_range w x :
  0 < w -> - 2 ^ (w - 1) <= to_signed w x < 2 ^ (w - 1).
Proof.
  intros Hw. unfold to_signed.
  assert (H2 : 2 ^ w = 2 * 2 ^ (w - 1)).
  { rewrite <- Z.pow_succ_r by lia. f_equal. lia. }
  assert (Hp : 0 < 2 ^ (w - 1)) by (apply Z.pow_pos_nonneg; lia).
  pose proof (Z.mod_pos_bound (x + 2 ^ (w - 1)) (2 ^ w)). lia.
Qed.

Lemma to_uchar_id x : is_uchar x -> to_uchar x = x.
Proof. apply to_unsigned_id. Qed.

Lemma to_uint_id x : is_uint x -> to_uint x = x.
Proof. apply to_unsigned_id. Qed.

Lemma to_ulong_id x : is_ulong x -> to_ulong x = x.
Proof. apply to_unsigned_id. Qed.

Lemma to_char_id x : is_char x -> to_char x = x.
Proof. apply (to_signed_id 8). lia. Qed.

Lemma to_int_id x : is_int x -> to_int x = x.
Proof. apply (to_signed_id 16). lia. Qed.

Lemma to_long_id x : is_long x -> to_long x = x.
Proof. apply (to_signed_id 32). lia. Qed.

Lemma to_uint_is_uint x : is_uint (to_uint x).
Proof. apply to_unsigned_range. lia. Qed.

Lemma to_ulong_is_ulong x : is_ulong (to_ulong x).
Proof. apply to_unsigned_range. lia. Qed.

Lemma to_int_is_int x : is_int (to_int x).
Proof. apply (to_signed_range 16). lia. Qed.

Lemma to_long_is_long x : is_long (to_long x).
Proof. apply (to_signed_range 32). lia. Qed.

(** In the range of [int], avr-libc's [abs] is the absolute value, but
    for [INT_MIN]. *)
Lemma abs_int x : - 2 ^ 15 < x < 2 ^ 15 -> abs x = Z.abs x.
Proof.
  intros H. unfold abs. rewrite (to_int_id x) by (unfold is_int; lia).
  destruct (Z.ltb_spec x 0).
  - rewrite to_int_id by (unfold is_int; lia). lia.
  - lia.
Qed.

(** Successor of an unsigned counter never maps it to itself. *)
Lemma to_ulong_succ_neq x : is_ulong x -> to_ulong (x + 1) <> x.
Proof.
  unfold is_ulong, to_ulong, to_unsigned. intros H E.
  destruct (Z.eq_dec x (2 ^ 32 - 1)) as [->|Hne].
  - vm_compute in E. discriminate.
  - rewrite Z.mod_small in E; lia.
Qed.

(** ** The DAC frame *)

Lemma frame_bit_value value i :
  (if frame_bit value i then 1 else 0) = (value / 2 ^ Z.of_nat i) mod 2.
Proof.
  unfold frame_bit. rewrite Z.shiftr_div_pow2 by lia.
  change 1 with (Z.ones 1) at 1. rewrite Z.land_ones by lia.
  change (2 ^ 1) with 2.
  pose proof (Z.mod_pos_bound (value / 2 ^ Z.of_nat i) 2).
  destruct (Z.eqb_spec ((value / 2 ^ Z.of_nat i) mod 2) 0); simpl; lia.
Qed.

Lemma shift_in_bits value n acc :
  fold_left shift_in (map (frame_bit value) (rev (seq 0 n))) acc
  = acc * 2 ^ Z.of_nat n + value mod 2 ^ Z.of_nat n.
Proof.
  revert acc. induction n as [|n IH]; intros acc.
  - simpl. rewrite Z.mod_1_r. lia.
  - rewrite seq_S, rev_app_distr. simpl rev. simpl app.
    rewrite map_cons. simpl fold_left. rewrite IH.
    unfold shift_in at 1. rewrite frame_bit_value.
    rewrite Nat2Z.inj_succ, Z.pow_succ_r by lia.
    rewrite (Z.mul_comm 2 (2 ^ Z.of_nat n)).
    rewrite Z.rem_mul_r by (try apply Z.pow_nonzero; lia). lia.
Qed.

(** The AD5061 latches the word the driver was asked to write. *)
Lemma dac_latch_frame value : is_uint value -> dac_latch (dac_frame value) = value.
Proof.
  intros H. unfold dac_latch, dac_frame.
  change (drop 8 (repeat false 8 ++ ?l)) with l.
  rewrite shift_in_bits. rewrite Z.mod_small; [lia | exact H].
Qed.

Lemma dac_frame_length value : length (dac_frame value) = 24%nat.
Proof. reflexivity. Qed.

(** ** DAC driver *)

Lemma writeDacValue_same st : writeDacValue (last_dac_value st) st = st.
Proof. unfold writeDacValue. now rewrite Z.eqb_refl. Qed.

Lemma writeDacValue_last value st :
  last_dac_value (writeDacValue value st) = value.
Proof.
  unfold writeDacValue. destruct (Z.eqb_spec value (last_dac_value st)); auto.
Qed.

Lemma writeDacValue_fresh value st :
  value <> last_dac_value st ->
  writeDacValue value st
  = set_dac_reg (dac_latch (dac_frame value))
      (set_dac_frames (dac_frames st ++ [dac_frame value])
         (set_last_dac_value value st)).
Proof.
  intros H. unfold writeDacValue.
  destruct (Z.eqb_spec value (last_dac_value st)); [contradiction | reflexivity].
Qed.

(** ** Boot *)

Lemma trim_value_of_word value :
  is_uint value -> trim_value ((value - 0x8000) * 100) = value.
Proof.
  intros H. unfold trim_value. rewrite Z.quot_mul by lia.
  unfold is_uint in H.
  rewrite to_int_id by (unfold is_int; lia).
  rewrite to_uint_id by (unfold is_uint; lia). lia.
Qed.

(** What [main] does with the EEPROM word.  After reset the word is read,
    0xFFFF is replaced by 0x8000, the result is handed to the DAC driver
    and [trim_percent] is set to (value - 0x8000) * 100, from which the DAC
    word formula gives the value back.  The driver compares with the
    0x8000 that line 472 puts in [last_dac_value]: a frame is clocked out
    for every other value, and for 0x8000 the DAC keeps the word [dac] it
    holds. *)
Theorem boot_restores_trim (mcusr_value ee dac : Z) :
  is_uint ee ->
  let value := if ee =? 0xffff then 0x8000 else ee in
  let st := boot mcusr_value ee dac in
  eeprom_trim st = ee /\
  last_dac_value st = value /\
  dac_frames st = (if value =? 0x8000 then [] else [dac_frame value]) /\
  dac_reg st = (if value =? 0x8000 then dac else value) /\
  (dac = 0x8000 -> dac_reg st = value) /\
  trim_percent st = (value - 0x8000) * 100 /\
  trim_value (trim_percent st) = value /\
  trim_percent st / 100 + 0x8000 = value.
Proof.
  intros Hee value st.
  assert (Hv : is_uint value).
  { subst value. destruct (ee =? 0xffff); [unfold is_uint; lia | exact Hee]. }
  assert (Htp : trim_percent st = (value - 0x8000) * 100).
  { subst st. unfold boot, restore_trim. fold value. simpl.
    apply to_long_id. unfold is_uint in Hv. unfold is_long. lia. }
  assert (Hst : st = tx [Tx_EE value;
                         Tx_TP (to_long (DAC_SIGN * to_long ((value - 0x8000) * 100)))]
                     (set_trim_percent (to_long ((value - 0x8000) * 100))
                        (writeDacValue value (reset_state mcusr_value ee dac))))
    by reflexivity.
  destruct (Z.eqb_spec value 0x8000) as [E|E].
  - assert (Hw : writeDacValue value (reset_state mcusr_value ee dac)
                 = reset_state mcusr_value ee dac)
      by (rewrite E; apply (writeDacValue_same (reset_state mcusr_value ee dac))).
    rewrite Hw in Hst. rewrite Htp, Hst. simpl.
    repeat split; try (symmetry; exact E).
    + congruence.
    + now apply trim_value_of_word.
    + rewrite Z.div_mul by lia. lia.
  - rewrite (writeDacValue_fresh value (reset_state mcusr_value ee dac) E) in Hst.
    rewrite Htp, Hst. simpl.
    repeat split.
    + now apply dac_latch_frame.
    + intros _. now apply dac_latch_frame.
    + now apply trim_value_of_word.
    + rewrite Z.div_mul by lia. lia.
Qed.

Lemma boot_restores_trim_witness :
  last_dac_value (boot 1 0xffff 0x8000) = 0x8000 /\
  dac_reg (boot 1 0xffff 0x8000) = 0x8000 /\
  trim_percent (boot 1 0xffff 0x8000) = 0 /\
  last_dac_value (boot 8 0x7f00 0x6000) = 0x7f00 /\
  dac_reg (boot 8 0x7f00 0x6000) = 0x7f00 /\
  trim_percent (boot 8 0x7f00 0x6000) = -25600.
Proof.
  assert (H1 : is_uint 0xffff) by (unfold is_uint; lia).
  assert (H2 : is_uint 0x7f00) by (unfold is_uint; lia).
  destruct (boot_restores_trim 1 0xffff 0x8000 H1) as (_ & A & _ & B & _ & C & _).
  destruct (boot_restores_trim 8 0x7f00 0x6000 H2) as (_ & D & _ & E & _ & F & _).
  repeat split; assumption.
Defined.

(** ** Frame lemmas of the capture interrupt *)

Ltac by_computation := vm_compute; repeat split; congruence.

Ltac branches :=
  repeat match goal with
         | |- context [if ?b then _ else _] => destruct b eqn:?
         end.

Lemma store_sample_frame delta st :
  let st' := store_sample delta st in
  last_timer_val st' = last_timer_val st /\
  erroneous_delta st' = erroneous_delta st /\
  sample_count st' = sample_count st /\
  pps_count st' = pps_count st /\
  sample_window_pos st' = sample_window_pos st /\
  gps_status st' = gps_status st /\
  total_error st' = total_error st /\
  trim_percent st' = trim_percent st /\
  phase_error_sum st' = phase_error_sum st /\
  phase_error_count st' = phase_error_count st /\
  last_adc_value st' = last_adc_value st /\
  last_pps_count st' = last_pps_count st /\
  last_sample_count st' = last_sample_count st /\
  eeprom_trim st' = eeprom_trim st /\
  last_dac_value st' = last_dac_value st /\
  dac_reg st' = dac_reg st /\
  dac_frames st' = dac_frames st /\
  tx_log st' = tx_log st /\
  lock st' = lock st.
Proof. unfold store_sample. branches; simpl; repeat split. Qed.

(** ** Timekeeper *)

Lemma lor_shiftl_16 hi lo :
  is_uint lo -> Z.lor (Z.shiftl hi 16) lo = hi * 65536 + lo.
Proof.
  intros Hlo. rewrite Z.shiftl_mul_pow2 by lia. change (2 ^ 16) with 65536.
  symmetry. apply Z.add_nocarry_lor.
  apply Z.bits_inj'. intros n Hn.
  rewrite Z.land_spec, Z.bits_0.
  destruct (Z.ltb_spec n 16).
  - replace 65536 with (2 ^ 16) by reflexivity.
    rewrite Z.mul_pow2_bits_low by lia. reflexivity.
  - rewrite (Z.bits_above_log2 lo n), andb_false_r; try reflexivity.
    + unfold is_uint in Hlo. lia.
    + unfold is_uint in Hlo. destruct (Z.eq_dec lo 0) as [->|].
      * simpl. lia.
      * apply Z.log2_lt_pow2; try lia.
        apply Z.lt_le_trans with (2 ^ 16); [lia |].
        apply Z.pow_le_mono_r; lia.
Qed.

Lemma capture_timer_val_eq hibits lowbits tov :
  is_uint lowbits ->
  capture_timer_val hibits lowbits tov
  = (if tov && (lowbits <? 0x8000) then to_uint (hibits + 1) else hibits)
    * 65536 + lowbits.
Proof. intros H. unfold capture_timer_val. now apply lor_shiftl_16. Qed.

Lemma capture_stores_tick c st :
  Z.land (gps_status st) 1 = 0 \/ sample_window_pos st = 1 ->
  last_timer_val (TIMER1_CAPT c st)
  = capture_timer_val (timer_hibits st) (ICR1 c) (TOV1 c).
Proof.
  intros H. unfold TIMER1_CAPT. fields.
  destruct (Z.eqb_spec (Z.land (gps_status st) 1) 0) as [E|E]; [reflexivity |].
  destruct H as [H|H]; [contradiction |]. rewrite H.
  change (to_uchar (1 - 1)) with 0. change (0 <? 0) with false. cbv iota.
  branches; fields; [reflexivity |].
  now rewrite (proj1 (store_sample_frame _ _)).
Qed.

(** C2. The tick of a capture is the captured low bits under a high half
    that is [timer_hibits] plus one when TOV1 is set and the low bits are
    below 0x8000, and [timer_hibits] itself otherwise (the half is 16 bits
    wide, the tick 32: the sum is taken modulo 2^32); it is the value the
    interrupt keeps as the previous edge.  With the timer
    described above, an overflow serviced late by less than half a counter
    period and a capture serviced within half a period, that tick is the
    tick count of the edge: when edge and overflow fall together nothing
    is lost (pending wrap, low bits small) and nothing is added (wrap
    after the edge, low bits large). *)
Theorem capture_tick_rule (c : capture) (st : State) :
  is_uint (timer_hibits st) ->
  is_uint (ICR1 c) ->
  let tick := capture_timer_val (timer_hibits st) (ICR1 c) (TOV1 c) in
  tick = (if TOV1 c && (ICR1 c <? 0x8000)
          then to_uint (timer_hibits st + 1) else timer_hibits st)
         * 65536 + ICR1 c /\
  tick = to_ulong ((timer_hibits st
                    + (if TOV1 c && (ICR1 c <? 0x8000) then 1 else 0))
                   * 65536 + ICR1 c) /\
  is_ulong tick /\
  (Z.land (gps_status st) 1 = 0 \/ sample_window_pos st = 1 ->
   last_timer_val (TIMER1_CAPT c st) = tick) /\
  (forall (pending : bool) (latency : Z),
      0 <= latency < 0x8000 ->
      (pending = true -> ICR1 c < 0x8000) ->
      TOV1 c = tov_at_service pending (ICR1 c) latency ->
      tick = edge_tick (timer_hibits st) pending (ICR1 c)).
Proof.
  intros Hhi Hlo tick.
  assert (Hrule := capture_timer_val_eq (timer_hibits st) (ICR1 c) (TOV1 c) Hlo).
  fold tick in Hrule.
  split; [exact Hrule |].
  split.
  { rewrite Hrule. unfold is_uint in Hhi, Hlo.
    destruct (TOV1 c && (ICR1 c <? 32768)).
    - unfold to_ulong, to_uint, to_unsigned.
      change (2 ^ 32) with 4294967296. change (2 ^ 16) with 65536.
      destruct (Z.eq_dec (timer_hibits st) 65535) as [E|E].
      + rewrite E. change ((65535 + 1) mod 65536) with 0.
        replace ((65535 + 1) * 65536 + ICR1 c)
          with (ICR1 c + 1 * 4294967296) by lia.
        rewrite Z.mod_add by lia. rewrite Z.mod_small; lia.
      + rewrite !Z.mod_small; lia.
    - rewrite Z.add_0_r. symmetry. apply to_ulong_id.
      unfold is_ulong. lia. }
  split.
  { rewrite Hrule. pose proof (to_uint_is_uint (timer_hibits st + 1)) as Hu.
    unfold is_uint, is_ulong in *.
    destruct (TOV1 c && (ICR1 c <? 32768)); lia. }
  split; [apply capture_stores_tick |].
  intros pending latency Hlat Hpend Htov.
  rewrite Hrule, Htov. unfold edge_tick, tov_at_service.
  unfold is_uint in Hhi, Hlo.
  destruct pending; simpl orb.
  - specialize (Hpend eq_refl).
    destruct (Z.ltb_spec (ICR1 c) 0x8000); [| lia]. simpl andb.
    pose proof (to_uint_is_uint (timer_hibits st + 1)) as Hu.
    unfold is_uint in Hu.
    rewrite to_ulong_id by (unfold is_ulong; lia). reflexivity.
  - rewrite Z.add_0_r, (to_uint_id (timer_hibits st)) by exact Hhi.
    rewrite to_ulong_id by (unfold is_ulong; lia).
    destruct (Z.leb_spec 65536 (ICR1 c + latency)); simpl andb; [| reflexivity].
    destruct (Z.ltb_spec (ICR1 c) 0x8000); [lia | reflexivity].
Qed.

Lemma capture_tick_rule_witness :
  let st := set_timer_hibits 7 (reset_state 1 0xffff 0x8000) in
  (* edge on the very tick the counter wraps: overflow pending, low bits 0 *)
  capture_timer_val 7 0 true = 8 * 65536 /\
  capture_timer_val 7 0 true = edge_tick 7 true 0 /\
  (* edge one tick before the wrap, which happens before TIFR1 is read *)
  capture_timer_val 7 0xffff true = 7 * 65536 + 0xffff /\
  capture_timer_val 7 0xffff true = edge_tick 7 false 0xffff /\
  last_timer_val (TIMER1_CAPT (mkCapture 0 true 512) st) = 8 * 65536.
Proof.
  intros st.
  assert (Hhi : is_uint (timer_hibits st)) by (unfold is_uint; simpl; lia).
  assert (Hlo0 : is_uint 0) by (unfold is_uint; lia).
  assert (Hlo1 : is_uint 0xffff) by (unfold is_uint; lia).
  destruct (capture_tick_rule (mkCapture 0 true 512) st Hhi Hlo0)
    as (A1 & _ & _ & A3 & A4).
  destruct (capture_tick_rule (mkCapture 0xffff true 512) st Hhi Hlo1)
    as (B1 & _ & _ & _ & B4).
  split; [exact A1 |].
  split; [apply (A4 true 5); [lia | simpl; lia | reflexivity] |].
  split; [exact B1 |].
  split; [apply (B4 false 12); [lia | discriminate | reflexivity] |].
  apply A3. left. reflexivity.
Defined.

(** ** The main loop between PPS edges *)

Lemma land_lor_2_1 g : Z.land (Z.lor g 2) 1 = Z.land g 1.
Proof.
  rewrite Z.land_lor_distr_l. change (Z.land 2 1) with 0. apply Z.lor_0_r.
Qed.

Lemma log_status_frame st :
  let st' := log_status st in
  sampler st' = sampler st /\ accumulators st' = accumulators st /\
  tuning st' = tuning st /\ locked st' = locked st /\
  last_pps_count st' = last_pps_count st /\
  last_sample_count st' = last_sample_count st /\
  erroneous_delta st' = erroneous_delta st /\
  last_adc_value st' = last_adc_value st /\
  last_timer_val st' = last_timer_val st /\
  timer_hibits st' = timer_hibits st /\
  lock st' = lock st.
Proof.
  unfold log_status, locked. destruct (Z.land (gps_status st) 2 =? 0); simpl.
  - rewrite land_lor_2_1. repeat split.
  - repeat split.
Qed.

Lemma update_leds_frame st :
  let st' := update_leds st in
  sampler st' = sampler st /\ accumulators st' = accumulators st /\
  tuning st' = tuning st /\ locked st' = locked st /\
  last_pps_count st' = last_pps_count st /\
  last_sample_count st' = last_sample_count st /\
  erroneous_delta st' = erroneous_delta st /\
  last_adc_value st' = last_adc_value st /\
  last_timer_val st' = last_timer_val st /\
  timer_hibits st' = timer_hibits st /\
  lock st' = lock st /\
  gps_status st' = gps_status st /\
  tx_log st' = tx_log st.
Proof.
  unfold update_leds, locked. cbv zeta.
  destruct (Z.land (gps_status st) 1 =? 0) eqn:E.
  - match goal with |- context [if ?b then _ else _] => destruct b end;
      simpl; rewrite ?E; repeat split.
  - simpl; rewrite ?E; repeat split.
Qed.

Lemma housekeeping_frame st :
  let st' := housekeeping st in
  sampler st' = sampler st /\ accumulators st' = accumulators st /\
  tuning st' = tuning st /\ locked st' = locked st /\
  last_pps_count st' = last_pps_count st /\
  last_sample_count st' = last_sample_count st /\
  erroneous_delta st' = erroneous_delta st /\
  last_adc_value st' = last_adc_value st /\
  last_timer_val st' = last_timer_val st /\
  timer_hibits st' = timer_hibits st /\
  lock st' = lock st.
Proof.
  unfold housekeeping.
  destruct (update_leds_frame (log_status st))
    as (A1 & A2 & A3 & A4 & A5 & A6 & A7 & A8 & A9 & A10 & A11 & _).
  destruct (log_status_frame st)
    as (B1 & B2 & B3 & B4 & B5 & B6 & B7 & B8 & B9 & B10 & B11).
  cbv zeta in *.
  rewrite A1, A2, A3, A4, A5, A6, A7, A8, A9, A10, A11.
  repeat split; assumption.
Qed.

Lemma housekeeping_log st :
  exists l, tx_log (housekeeping st) = tx_log st ++ l.
Proof.
  unfold housekeeping.
  destruct (update_leds_frame (log_status st))
    as (_ & _ & _ & _ & _ & _ & _ & _ & _ & _ & _ & _ & E).
  cbv zeta in E. rewrite E. unfold log_status.
  destruct (Z.land (gps_status st) 2 =? 0).
  - eexists. reflexivity.
  - exists []. now rewrite app_nil_r.
Qed.

Lemma main_loop_unfold st :
  main_loop st
  = if last_pps_count st =? pps_count st then housekeeping st
    else pps_update (housekeeping st).
Proof.
  unfold main_loop. fold (housekeeping st).
  destruct (housekeeping_frame st) as (A1 & _ & _ & _ & A5 & _).
  cbv zeta in *. unfold sampler in A1. injection A1 as ? ? ? ? ?.
  now rewrite A5, H.
Qed.

Lemma main_loop_idle st :
  last_pps_count st = pps_count st -> main_loop st = housekeeping st.
Proof. intros H. rewrite main_loop_unfold, H. now rewrite Z.eqb_refl. Qed.

(** ** Runs from reset *)

Lemma well_formedb_spec e : well_formedb e = true -> well_formed e.
Proof.
  destruct e as [|c|v|]; simpl; try tauto.
  rewrite !andb_true_iff. unfold is_uint. lia.
Qed.

Lemma reachable_run es st :
  reachable st -> forallb well_formedb es = true -> reachable (run es st).
Proof.
  revert st. induction es as [|e es IH]; intros st Hr Hes; [exact Hr |].
  simpl in Hes. apply andb_true_iff in Hes as [He Hes].
  unfold run. simpl fold_left. apply IH; [| exact Hes].
  apply reach_step; [exact Hr | now apply well_formedb_spec].
Qed.

(** ** Capture while unlocked *)

Lemma locked_false st : locked st = false <-> Z.land (gps_status st) 1 = 0.
Proof.
  unfold locked. destruct (Z.eqb_spec (Z.land (gps_status st) 1) 0); simpl.
  - tauto.
  - split; [discriminate | contradiction].
Qed.

Lemma capture_unlocked c st :
  locked st = false ->
  TIMER1_CAPT c st
  = set_last_timer_val
      (capture_timer_val (timer_hibits st) (ICR1 c) (TOV1 c))
      (set_last_adc_value (ADC c) st).
Proof.
  intros H. apply locked_false in H. unfold TIMER1_CAPT. fields.
  now rewrite H.
Qed.

Lemma idle_step e st :
  no_gps e = true -> locked st = false -> last_pps_count st = pps_count st ->
  let st' := step e st in
  locked st' = false /\ last_pps_count st' = pps_count st' /\
  sampler st' = sampler st /\ accumulators st' = accumulators st /\
  tuning st' = tuning st.
Proof.
  intros He Hu Hc. destruct e as [|c|v|]; try discriminate; simpl.
  - repeat split; assumption.
  - rewrite (capture_unlocked c st Hu). repeat split; assumption.
  - rewrite (main_loop_idle st Hc).
    destruct (housekeeping_frame st) as (A1 & A2 & A3 & A4 & A5 & _).
    cbv zeta in *. rewrite A4, A5. repeat split; try assumption.
    unfold sampler in A1. injection A1 as -> _ _ _ _. exact Hc.
Qed.

Lemma idle_run es st :
  forallb no_gps es = true -> locked st = false ->
  last_pps_count st = pps_count st ->
  let st' := run es st in
  locked st' = false /\ last_pps_count st' = pps_count st' /\
  sampler st' = sampler st /\ accumulators st' = accumulators st /\
  tuning st' = tuning st.
Proof.
  revert st. induction es as [|e es IH]; intros st Hes Hu Hc.
  - repeat split; assumption.
  - simpl in Hes. apply andb_true_iff in Hes as [He Hes].
    destruct (idle_step e st He Hu Hc) as (B1 & B2 & B3 & B4 & B5).
    destruct (IH (step e st) Hes B1 B2) as (C1 & C2 & C3 & C4 & C5).
    cbv zeta in *. unfold run in *. simpl fold_left.
    rewrite C3, C4, C5. repeat split; assumption.
Qed.

(** C10, as the code has it.  While the receiver is unlocked a capture
    writes [last_adc_value] and the previous-edge tick and nothing else:
    [pps_count], [sample_count], the buffer, [valid_samples] and
    [sample_window_pos] keep their values.  A main loop that had seen
    every edge counted so far ([last_pps_count = pps_count]) therefore
    takes the exit of line 580, and through any run of captures, timer
    overflows and main-loop passes without a fix change the sampler, the
    accumulators and the tuning value stay as they were. *)
Theorem capture_while_unlocked (c : capture) (st : State) :
  locked st = false ->
  let st' := TIMER1_CAPT c st in
  st' = set_last_timer_val
          (capture_timer_val (timer_hibits st) (ICR1 c) (TOV1 c))
          (set_last_adc_value (ADC c) st) /\
  sampler st' = sampler st /\
  (last_pps_count st = pps_count st ->
   main_loop st' = housekeeping st' /\
   accumulators (main_loop st') = accumulators st /\
   tuning (main_loop st') = tuning st /\
   forall es : list event,
     forallb no_gps es = true ->
     sampler (run es st) = sampler st /\
     accumulators (run es st) = accumulators st /\
     tuning (run es st) = tuning st /\
     last_pps_count (run es st) = pps_count (run es st)).
Proof.
  intros Hu st'. subst st'. rewrite (capture_unlocked c st Hu).
  split; [reflexivity |]. split; [reflexivity |].
  intros Hc.
  set (st' := set_last_timer_val _ _).
  assert (Hc' : last_pps_count st' = pps_count st') by exact Hc.
  split; [apply main_loop_idle; exact Hc' |].
  rewrite (main_loop_idle st' Hc').
  destruct (housekeeping_frame st') as (_ & A2 & A3 & _). cbv zeta in *.
  split; [rewrite A2; reflexivity |].
  split; [rewrite A3; reflexivity |].
  intros es Hes.
  destruct (idle_run es st Hes Hu Hc) as (_ & B2 & B3 & B4 & B5).
  repeat split; assumption.
Qed.

Lemma capture_while_unlocked_witness :
  let st := boot 1 0xffff 0x8000 in
  let c := mkCapture 0x1234 false 498 in
  sampler (TIMER1_CAPT c st) = sampler st /\
  main_loop (TIMER1_CAPT c st) = housekeeping (TIMER1_CAPT c st) /\
  accumulators (run [Capture c; Loop; Overflow; Capture c; Loop] st)
  = accumulators st.
Proof.
  intros st c.
  assert (Hu : locked st = false) by reflexivity.
  assert (Hc : last_pps_count st = pps_count st) by reflexivity.
  destruct (capture_while_unlocked c st Hu) as (_ & A & B).
  destruct (B Hc) as (B1 & _ & _ & B4).
  split; [exact A |]. split; [exact B1 |].
  apply (B4 [Capture c; Loop; Overflow; Capture c; Loop]). reflexivity.
Defined.

(** C10, as the claim words it, fails when the fix is lost between a PPS
    edge and the pass that would have processed it.  In [late_state] the
    receiver is unlocked and one counted edge is waiting.  A capture with
    an ADC reading of 400 leaves the sampler alone, as claimed, but the
    next pass does not take the exit of line 580: lines 605-608 run, on
    the reading of the unlocked capture, and the phase accumulator goes
    from (0, 0) to (112, 1). *)
Lemma pending_edge_processed_unlocked :
  let c := mkCapture 100 false 400 in
  reachable late_state /\
  locked late_state = false /\
  (pps_count late_state, last_pps_count late_state) = (1, 0) /\
  sampler (TIMER1_CAPT c late_state) = sampler late_state /\
  accumulators late_state = (0, 0, 0) /\
  accumulators (main_loop (TIMER1_CAPT c late_state)) = (112, 1, 0) /\
  main_loop (TIMER1_CAPT c late_state)
  <> housekeeping (TIMER1_CAPT c late_state) /\
  ~ (forall (c : capture) (st : State),
        reachable st -> locked st = false ->
        accumulators (main_loop (TIMER1_CAPT c st)) = accumulators st).
Proof.
  intros c.
  assert (Hr : reachable late_state).
  { unfold late_state. apply reachable_run; [apply reach_boot; by_computation |].
    vm_compute. reflexivity. }
  assert (Ha : accumulators (main_loop (TIMER1_CAPT c late_state)) = (112, 1, 0))
    by (vm_compute; reflexivity).
  split; [exact Hr |].
  split; [vm_compute; reflexivity |].
  split; [vm_compute; reflexivity |].
  split; [vm_compute; reflexivity |].
  split; [vm_compute; reflexivity |].
  split; [exact Ha |].
  split.
  - intros E. rewrite E in Ha. vm_compute in Ha. discriminate.
  - intros H. specialize (H c late_state Hr eq_refl).
    rewrite Ha in H. vm_compute in H. discriminate.
Qed.

(** ** GPS-fix gate *)

Lemma handleGPS_same v st :
  fix_bit v = Z.land (gps_status st) 1 -> handleGPS v st = st.
Proof.
  intros H. unfold handleGPS. fold (fix_bit v). rewrite H.
  now rewrite Z.eqb_refl.
Qed.

Lemma handleGPS_lost st :
  Z.land (gps_status st) 1 <> 0 ->
  handleGPS false st
  = set_lock 0 (set_total_error 0 (set_sample_window_pos SAMPLE_SECONDS
      (set_valid_samples (-1) (set_gps_status 0 st)))).
Proof.
  intros H. unfold handleGPS.
  destruct (Z.eqb_spec 0 (Z.land (gps_status st) 1)) as [E|E]; [congruence |].
  reflexivity.
Qed.

Lemma handleGPS_acquired st :
  Z.land (gps_status st) 1 <> 1 -> handleGPS true st = set_gps_status 1 st.
Proof.
  intros H. unfold handleGPS.
  destruct (Z.eqb_spec 1 (Z.land (gps_status st) 1)) as [E|E]; [congruence |].
  reflexivity.
Qed.

(** How [holdover_state] comes about: [lock_run] from power-on, then the
    pass of the main loop with the loss of fix delivered in its middle. *)
Example holdover_state_arises :
  main_loop_interrupted (handleGPS false) first_sample_state = holdover_state.
Proof. vm_compute. reflexivity. Qed.

(** C3, as the code has it.  A report that takes the fix away sets
    [valid_samples] to -1, [sample_window_pos] to [SAMPLE_SECONDS],
    [total_error] to 0 and [lock] to 0.  A report that brings the fix
    writes [gps_status] and nothing else: the four variables keep the
    values they have.  In both directions [trim_percent], the driver's
    last word, the DAC and the EEPROM are untouched. *)
Theorem handleGPS_change (gps_now_valid : bool) (st : State) :
  fix_bit gps_now_valid <> Z.land (gps_status st) 1 ->
  let st' := handleGPS gps_now_valid st in
  gps_status st' = fix_bit gps_now_valid /\
  tuning st' = tuning st /\
  (gps_now_valid = false ->
   valid_samples st' = -1 /\ sample_window_pos st' = SAMPLE_SECONDS /\
   total_error st' = 0 /\ lock st' = 0) /\
  (gps_now_valid = true -> st' = set_gps_status 1 st).
Proof.
  intros Hne st'. subst st'. destruct gps_now_valid; simpl in Hne.
  - rewrite (handleGPS_acquired st) by congruence.
    repeat split; congruence.
  - rewrite (handleGPS_lost st) by congruence.
    repeat split; congruence.
Qed.

Lemma handleGPS_change_witness :
  let locked_state := set_total_error 480 (set_lock 2 closing_state) in
  valid_samples (handleGPS false locked_state) = -1 /\
  total_error (handleGPS false locked_state) = 0 /\
  lock (handleGPS false locked_state) = 0 /\
  trim_percent (handleGPS false locked_state) = 0 /\
  handleGPS true holdover_state = set_gps_status 1 holdover_state.
Proof.
  intros locked_state.
  assert (H1 : fix_bit false <> Z.land (gps_status locked_state) 1)
    by (vm_compute; discriminate).
  assert (H2 : fix_bit true <> Z.land (gps_status holdover_state) 1)
    by (vm_compute; discriminate).
  destruct (handleGPS_change false locked_state H1) as (_ & A & B & _).
  destruct (handleGPS_change true holdover_state H2) as (_ & _ & _ & C).
  destruct (B eq_refl) as (B1 & _ & B3 & B4).
  split; [exact B1 |]. split; [exact B3 |]. split; [exact B4 |].
  split; [| exact (C eq_refl)].
  exact (f_equal (fun t => fst (fst (fst (fst t)))) A).
Defined.

(** C3, as the claim words it, fails for a report that brings the fix:
    the gate does not clear [total_error]. *)
Lemma handleGPS_acquire_keeps_integrator :
  ~ (forall (gps_now_valid : bool) (st : State),
        fix_bit gps_now_valid <> Z.land (gps_status st) 1 ->
        let st' := handleGPS gps_now_valid st in
        valid_samples st' = -1 /\ sample_window_pos st' = SAMPLE_SECONDS /\
        total_error st' = 0 /\ lock st' = 0 /\
        trim_percent st' = trim_percent st /\
        last_dac_value st' = last_dac_value st).
Proof.
  intros H.
  assert (Hne : fix_bit true <> Z.land (gps_status holdover_state) 1)
    by (vm_compute; discriminate).
  destruct (H true holdover_state Hne) as (_ & _ & Hte & _).
  vm_compute in Hte. discriminate.
Qed.

(** ** The capture interrupt at the end of a window *)

Lemma locked_true st : locked st = true <-> Z.land (gps_status st) 1 <> 0.
Proof.
  unfold locked. destruct (Z.eqb_spec (Z.land (gps_status st) 1) 0); simpl.
  - split; [discriminate | contradiction].
  - tauto.
Qed.

Lemma capture_frame c st :
  let st' := TIMER1_CAPT c st in
  accumulators st' = accumulators st /\ tuning st' = tuning st /\
  last_pps_count st' = last_pps_count st /\
  last_sample_count st' = last_sample_count st /\
  gps_status st' = gps_status st /\ lock st' = lock st /\
  timer_hibits st' = timer_hibits st /\ tx_log st' = tx_log st /\
  last_adc_value st' = ADC c.
Proof.
  unfold TIMER1_CAPT, store_sample. fields.
  branches; fields; repeat split.
Qed.

Lemma capture_closes c st :
  locked st = true -> sample_window_pos st = 1 ->
  TIMER1_CAPT c st
  = if rejects c st
    then set_erroneous_delta (closing_delta c st) (window_edge c st)
    else set_sample_count (to_ulong (sample_count st + 1))
           (store_sample (closing_delta c st) (window_edge c st)).
Proof.
  intros Hl Hp. apply locked_true in Hl.
  unfold TIMER1_CAPT, rejects, closing_delta, window_edge. fields.
  destruct (Z.eqb_spec (Z.land (gps_status st) 1) 0); [contradiction |].
  rewrite Hp. change (to_uchar (1 - 1)) with 0. change (0 <? 0) with false.
  cbv iota.
  destruct (_ && _); [reflexivity |].
  now rewrite (proj1 (proj2 (proj2 (store_sample_frame _ _)))).
Qed.

Lemma capture_within_window c st :
  locked st = true -> is_uchar (sample_window_pos st) ->
  sample_window_pos st <> 1 ->
  TIMER1_CAPT c st
  = set_sample_window_pos (to_uchar (sample_window_pos st - 1))
      (set_pps_count (to_ulong (pps_count st + 1))
         (set_last_adc_value (ADC c) st)).
Proof.
  intros Hl Hu Hp. apply locked_true in Hl. unfold TIMER1_CAPT. fields.
  destruct (Z.eqb_spec (Z.land (gps_status st) 1) 0); [contradiction |].
  destruct (Z.ltb_spec 0 (to_uchar (sample_window_pos st - 1))) as [|Hz];
    [reflexivity |].
  exfalso. unfold is_uchar in Hu. unfold to_uchar, to_unsigned in Hz.
  destruct (Z.eq_dec (sample_window_pos st) 0) as [E|E].
  - rewrite E in Hz. vm_compute in Hz. now apply Hz.
  - rewrite Z.mod_small in Hz; lia.
Qed.

Lemma pps_update_outlier st :
  erroneous_delta st <> 0 ->
  pps_update st
  = set_erroneous_delta 0
      (tx [Tx_XXX (erroneous_delta st)] (set_last_pps_count (pps_count st) st)).
Proof.
  intros H. unfold pps_update. simpl.
  destruct (Z.eqb_spec (erroneous_delta st) 0); [contradiction | reflexivity].
Qed.

Lemma main_loop_outlier st :
  last_pps_count st <> pps_count st -> erroneous_delta st <> 0 ->
  let st' := main_loop st in
  accumulators st' = accumulators st /\ tuning st' = tuning st /\
  sampler st' = sampler st /\ erroneous_delta st' = 0 /\
  exists l, tx_log st' = l ++ [Tx_XXX (erroneous_delta st)].
Proof.
  intros Hp He. cbv zeta. rewrite main_loop_unfold.
  destruct (Z.eqb_spec (last_pps_count st) (pps_count st)); [contradiction |].
  destruct (housekeeping_frame st) as (A1 & A2 & A3 & _ & _ & _ & A7 & _).
  cbv zeta in *.
  rewrite pps_update_outlier by congruence.
  rewrite A7, <- A1, <- A2, <- A3.
  repeat split. now exists (tx_log (housekeeping st)).
Qed.

Lemma store_sample_edge delta c st :
  sample_buffer (store_sample delta (window_edge c st))
  = sample_buffer (store_sample delta st) /\
  valid_samples (store_sample delta (window_edge c st))
  = valid_samples (store_sample delta st).
Proof. unfold store_sample. simpl. branches; split; reflexivity. Qed.

Lemma store_sample_append delta st :
  0 <= valid_samples st < SAMPLE_COUNT ->
  sample_buffer (store_sample delta st)
  = <[ Z.to_nat (valid_samples st) := to_int delta ]> (sample_buffer st) /\
  valid_samples (store_sample delta st) = valid_samples st + 1.
Proof.
  intros Hv. unfold store_sample. unfold SAMPLE_COUNT in *.
  destruct (Z.ltb_spec (valid_samples st) 0); [lia |].
  destruct (Z.ltb_spec (valid_samples st) 10); [| lia]. simpl.
  rewrite to_uchar_id by (unfold is_uchar; lia).
  rewrite to_char_id by (unfold is_char; lia). split; reflexivity.
Qed.

(** ** Outlier rejection *)




(** ** What a pass of the main loop leaves alone *)

Lemma pps_update_sampler st :
  sampler (pps_update st) = sampler st /\
  gps_status (pps_update st) = gps_status st /\
  timer_hibits (pps_update st) = timer_hibits st /\
  last_timer_val (pps_update st) = last_timer_val st.
Proof.
  unfold pps_update, window_update, discipline, persist, writeDacValue.
  fields. branches; fields; repeat split.
Qed.

Lemma main_loop_sampler st :
  sampler (main_loop st) = sampler st /\ locked (main_loop st) = locked st.
Proof.
  rewrite main_loop_unfold.
  destruct (housekeeping_frame st) as (A1 & _ & _ & A4 & _). cbv zeta in *.
  destruct (last_pps_count st =? pps_count st); [now split |].
  destruct (pps_update_sampler (housekeeping st)) as (B1 & B2 & _).
  rewrite B1, A1. split; [reflexivity |].
  unfold locked in *. now rewrite B2.
Qed.

(** ** The sample buffer *)

Lemma store_sample_fill_ok delta st : fill_ok st -> fill_ok (store_sample delta st).
Proof.
  unfold fill_ok, store_sample, rotate_left, SAMPLE_COUNT.
  intros (Hv & Hl & Hi).
  destruct (Z.ltb_spec (valid_samples st) 0).
  - simpl. split; [| split; [exact Hl | exact Hi]].
    assert (E : valid_samples st = -1) by lia. rewrite E. right.
    vm_compute. split; discriminate.
  - destruct (Z.ltb_spec (valid_samples st) 10); simpl.
    + rewrite length_insert. split; [| split; [exact Hl |]].
      * right. rewrite to_char_id by (unfold is_char; lia). lia.
      * apply Forall_insert; [exact Hi | apply to_int_is_int].
    + split; [right; lia |]. split.
      * rewrite length_insert, length_app, length_take, !length_drop.
        rewrite Hl. reflexivity.
      * apply Forall_insert; [| apply to_int_is_int].
        apply Forall_app. split.
        -- apply Forall_take, Forall_drop, Hi.
        -- apply Forall_drop, Hi.
Qed.

Lemma step_fill_ok e st : fill_ok st -> fill_ok (step e st).
Proof.
  intros H. destruct e as [|c|v|]; simpl.
  - exact H.
  - unfold TIMER1_CAPT. cbv zeta. branches; try exact H.
    match goal with
    | |- fill_ok (set_sample_count _ (store_sample ?d ?s)) =>
        exact (store_sample_fill_ok d s H)
    end.
  - unfold handleGPS. cbv zeta.
    branches; try exact H;
      destruct H as [_ Hl]; (split; [left; reflexivity | exact Hl]).
  - destruct (main_loop_sampler st) as [E _].
    unfold sampler in E. injection E as _ _ Eb Ev _.
    unfold fill_ok. now rewrite Eb, Ev.
Qed.

Lemma boot_fill_ok mcusr_value ee dac : fill_ok (boot mcusr_value ee dac).
Proof.
  unfold boot, restore_trim, writeDacValue. cbv zeta.
  branches; (split; [left; reflexivity | split; [reflexivity |]]);
    repeat constructor; by_computation.
Qed.

Lemma reachable_fill_ok st : reachable st -> fill_ok st.
Proof.
  induction 1 as [mcusr_value ee dac _ _ _ | e st _ IH _].
  - apply boot_fill_ok.
  - now apply step_fill_ok.
Qed.

Lemma rotate_left_full buf :
  length buf = Z.to_nat SAMPLE_COUNT ->
  forall x, <[ Z.to_nat (SAMPLE_COUNT - 1) := x ]> (rotate_left buf) = drop 1 buf ++ [x].
Proof.
  intros H x. unfold rotate_left.
  do 11 (destruct buf as [|? buf]; try discriminate H). reflexivity.
Qed.

Lemma store_sample_rotate delta st :
  SAMPLE_COUNT <= valid_samples st ->
  length (sample_buffer st) = Z.to_nat SAMPLE_COUNT ->
  sample_buffer (store_sample delta st) = drop 1 (sample_buffer st) ++ [to_int delta]
  /\ valid_samples (store_sample delta st) = SAMPLE_COUNT.
Proof.
  intros Hv Hl. unfold store_sample. unfold SAMPLE_COUNT in Hv.
  destruct (Z.ltb_spec (valid_samples st) 0); [lia |].
  destruct (Z.ltb_spec (valid_samples st) SAMPLE_COUNT);
    [unfold SAMPLE_COUNT in *; lia |].
  simpl. split; [| reflexivity]. now apply rotate_left_full.
Qed.

Lemma newest_short n (l : list Z) : (length l <= n)%nat -> newest n l = l.
Proof.
  intros H. unfold newest. replace (length l - n)%nat with 0%nat by lia.
  reflexivity.
Qed.

Lemma newest_snoc_full n (l : list Z) x :
  (0 < n <= length l)%nat ->
  newest n (l ++ [x]) = drop 1 (newest n l) ++ [x].
Proof.
  intros H. unfold newest. rewrite length_app. simpl length.
  rewrite drop_drop.
  replace (length l + 1 - n)%nat with (length l - n + 1)%nat by lia.
  apply drop_app_le. lia.
Qed.

Lemma tracks_store hist delta st :
  tracks hist st -> tracks (hist ++ [to_int delta]) (store_sample delta st).
Proof.
  unfold tracks, valid_entries. intros (Hl & Hv & He).
  rewrite length_app. simpl length.
  destruct (Nat.lt_ge_cases (length hist) 10) as [Hs|Hf].
  - rewrite Nat.min_r in Hv by lia.
    rewrite newest_short in He by lia.
    destruct (store_sample_append delta st) as [Eb Ev].
    { unfold SAMPLE_COUNT. lia. }
    rewrite Eb, Ev, length_insert, Hv.
    split; [exact Hl |]. split; [lia |].
    rewrite newest_short by (rewrite length_app; simpl; lia).
    replace (Z.to_nat (Z.of_nat (length hist) + 1)) with (S (length hist)) by lia.
    rewrite Hv, Nat2Z.id in He. rewrite Nat2Z.id.
    rewrite (take_S_r _ _ (to_int delta)).
    + rewrite take_insert_ge by lia. now rewrite He.
    + apply list_lookup_insert_eq. lia.
  - rewrite Nat.min_l in Hv by lia.
    destruct (store_sample_rotate delta st) as [Eb Ev].
    { unfold SAMPLE_COUNT. lia. }
    { exact Hl. }
    rewrite Eb, Ev, length_app, length_drop, Hl.
    split; [reflexivity |]. split; [unfold SAMPLE_COUNT; lia |].
    rewrite newest_snoc_full by lia. rewrite <- He, Hv.
    change (Z.to_nat SAMPLE_COUNT) with 10%nat.
    change (Z.to_nat (Z.of_nat 10)) with 10%nat.
    rewrite !firstn_all2; [reflexivity | lia |].
    rewrite length_app, length_drop, Hl. simpl. lia.
Qed.

Lemma tracks_store_all deltas hist st :
  tracks hist st -> tracks (hist ++ map to_int deltas) (store_all deltas st).
Proof.
  revert hist st. induction deltas as [|d deltas IH]; intros hist st H.
  - simpl. now rewrite app_nil_r.
  - simpl. change (hist ++ to_int d :: map to_int deltas)
      with (hist ++ [to_int d] ++ map to_int deltas).
    rewrite app_assoc. apply IH. now apply tracks_store.
Qed.

(** Started on an empty buffer, the valid entries are the
    [SAMPLE_COUNT] newest of the deltas stored, oldest first. *)
Lemma buffer_keeps_newest deltas st :
  valid_samples st = 0 ->
  length (sample_buffer st) = Z.to_nat SAMPLE_COUNT ->
  valid_entries (store_all deltas st)
  = newest (Z.to_nat SAMPLE_COUNT) (map to_int deltas) /\
  valid_samples (store_all deltas st)
  = Z.min SAMPLE_COUNT (Z.of_nat (length deltas)).
Proof.
  intros Hv Hl.
  assert (H0 : tracks [] st).
  { unfold tracks, valid_entries. rewrite Hv. repeat split. exact Hl. }
  destruct (tracks_store_all deltas [] st H0) as (_ & Ev & Ee).
  rewrite app_nil_l in Ev, Ee. rewrite Ee, Ev, length_map.
  split; [reflexivity |]. unfold SAMPLE_COUNT. clear. lia.
Qed.


(** C9. In every state the firmware reaches, [valid_samples] is -1 or
    lies between 0 and [SAMPLE_COUNT], and the buffer has [SAMPLE_COUNT]
    cells.  A capture that closes a window on a full buffer with an
    accepted delta drops the first cell, moves the others down and puts
    the delta last, leaving the count at [SAMPLE_COUNT].  Hence, from an
    empty buffer on, the valid cells are the [SAMPLE_COUNT] newest stored
    deltas, oldest first. *)
Theorem sample_buffer_invariant :
  (forall st : State,
      reachable st ->
      (valid_samples st = -1 \/ 0 <= valid_samples st <= SAMPLE_COUNT) /\
      length (sample_buffer st) = Z.to_nat SAMPLE_COUNT) /\
  (forall (c : capture) (st : State),
      locked st = true -> sample_window_pos st = 1 ->
      valid_samples st = SAMPLE_COUNT ->
      length (sample_buffer st) = Z.to_nat SAMPLE_COUNT ->
      abs (closing_delta c st) <= MAX_DELTA ->
      let st' := TIMER1_CAPT c st in
      sample_buffer st'
      = drop 1 (sample_buffer st) ++ [to_int (closing_delta c st)] /\
      valid_samples st' = SAMPLE_COUNT /\
      sample_count st' = to_ulong (sample_count st + 1)) /\
  (forall (deltas : list Z) (st : State),
      valid_samples st = 0 ->
      length (sample_buffer st) = Z.to_nat SAMPLE_COUNT ->
      valid_entries (store_all deltas st)
      = newest (Z.to_nat SAMPLE_COUNT) (map to_int deltas) /\
      valid_samples (store_all deltas st)
      = Z.min SAMPLE_COUNT (Z.of_nat (length deltas))).
Proof.
  split; [| split; [| exact buffer_keeps_newest]].
  { intros st Hr. destruct (reachable_fill_ok st Hr) as (A & B & _).
    split; assumption. }
  intros c st Hl Hp Hv Hlen Hacc st'. subst st'.
  rewrite (capture_closes c st Hl Hp). unfold rejects.
  destruct (Z.ltb_spec MAX_DELTA (abs (closing_delta c st))); [lia |].
  simpl andb. cbv iota.
  destruct (store_sample_edge (closing_delta c st) c st) as [E1 E2].
  destruct (store_sample_rotate (closing_delta c st) st) as [R1 R2];
    [lia | exact Hlen |].
  simpl. rewrite E1, E2, R1, R2. repeat split.
Qed.

Lemma sample_buffer_invariant_witness :
  let c := mkCapture 0x1234 false 500 in
  let st := run [Gps true; Capture c; Loop] (boot 1 0xffff 0x8000) in
  (valid_samples st = -1 \/ 0 <= valid_samples st <= SAMPLE_COUNT) /\
  sample_buffer (TIMER1_CAPT (edge_late 11 512) full_state)
  = [2; 3; 4; 5; 6; 7; 8; 9; 10; 11] /\
  valid_entries
    (store_all [1; 2; 3; 4; 5; 6; 7; 8; 9; 10; 11; 12]
       (set_valid_samples 0 closing_state))
  = [3; 4; 5; 6; 7; 8; 9; 10; 11; 12].
Proof.
  intros c st.
  destruct sample_buffer_invariant as (A & B & C).
  assert (Hr : reachable st).
  { subst st. unfold run. simpl fold_left.
    apply (reach_step Loop); [| exact I].
    apply (reach_step (Capture c)); [| by_computation].
    apply (reach_step (Gps true)); [| exact I].
    apply reach_boot; by_computation. }
  split; [exact (proj1 (A st Hr)) |].
  split.
  - exact (proj1 (B (edge_late 11 512) full_state eq_refl eq_refl eq_refl
                    eq_refl ltac:(by_computation))).
  - exact (proj1 (C [1; 2; 3; 4; 5; 6; 7; 8; 9; 10; 11; 12]
                    (set_valid_samples 0 closing_state) eq_refl eq_refl)).
Defined.

Example sampled_state_update :
  let st' := main_loop sampled_state in
  accumulators st' = (0, 0, -48) /\
  trim_percent st' = -150 /\ last_dac_value st' = 0x7fff /\
  tx_log st' = [Tx_ADC 512; Tx_SB (-5); Tx_ER (-5); Tx_PE 29; Tx_CE (-48);
                Tx_TE (-48); Tx_AV 150; Tx_TP 150; Tx_TV 0x7fff; Tx_PD].
Proof. vm_compute. repeat split. Qed.

(** ** The three ways through [pps_update] *)

(** Case analysis on the record, then evaluation of every field access:
    all updates become explicit records over the fields of [st]. *)
Ltac open_state st :=
  destruct st;
  cbv beta iota zeta delta
    [ last_dac_value phase_error_sum phase_error_count sample_buffer
      valid_samples sample_window_pos timer_hibits pps_count
      sample_count gps_status lock total_error trim_percent
      last_adc_value erroneous_delta last_timer_val last_pps_count
      last_sample_count eeprom_trim dac_reg dac_frames led_port tx_log
      set_last_dac_value set_phase_error_sum set_phase_error_count
      set_sample_buffer set_valid_samples set_sample_window_pos
      set_timer_hibits set_pps_count set_sample_count set_gps_status
      set_lock set_total_error set_trim_percent set_last_adc_value
      set_erroneous_delta set_last_timer_val set_last_pps_count
      set_last_sample_count set_eeprom_trim set_dac_reg set_dac_frames
      set_led_port set_tx_log tx sampler accumulators tuning
      window_inputs valid_entries window_phase_error window_sum
      window_drift measured pps_update window_update discipline persist
      writeDacValue ] in *.

Lemma pps_update_accumulates st :
  erroneous_delta st = 0 -> last_sample_count st = sample_count st ->
  pps_update st
  = set_phase_error_count (to_int (phase_error_count st + 1))
      (set_phase_error_sum
         (to_long (phase_error_sum st + current_phase_error (last_adc_value st)))
         (tx [Tx_ADC (last_adc_value st)]
            (set_last_pps_count (pps_count st) st))).
Proof.
  intros He Hs. open_state st. subst. rewrite !Z.eqb_refl. reflexivity.
Qed.

Lemma pps_update_closes st :
  erroneous_delta st = 0 -> last_sample_count st <> sample_count st ->
  pps_update st
  = if valid_samples st <=? 0 then measured st
    else discipline (window_drift st) (window_phase_error st) (measured st).
Proof.
  intros He Hs. open_state st. subst. simpl negb. cbv iota.
  match goal with
  | |- context [?a =? ?b] =>
      destruct (Z.eqb_spec a b); [contradiction |]
  end.
  destruct (_ <=? 0); reflexivity.
Qed.

Lemma measured_frame st :
  let st' := measured st in
  phase_error_sum st' = 0 /\ phase_error_count st' = 0 /\
  total_error st' = total_error st /\ tuning st' = tuning st /\
  sampler st' = sampler st /\
  tx_log st'
  = (tx_log st ++ [Tx_ADC (last_adc_value st)])
    ++ map Tx_SB (valid_entries st)
    ++ [Tx_ER (window_sum st); Tx_PE (window_phase_error st)].
Proof. open_state st. repeat split. Qed.

Lemma discipline_fields sample_drift phase_error st :
  let current := current_error sample_drift phase_error in
  let total := to_long (total_error st + current) in
  let adj := adj_val current total in
  let percent := to_long (trim_percent st - adj) in
  let st' := discipline sample_drift phase_error st in
  total_error st' = total /\
  trim_percent st' = percent /\
  last_dac_value st' = trim_value percent /\
  eeprom_trim st'
  = (if (abs current <? 100)
        && (EE_UPDATE_OFFSET <? abs (to_uint (eeprom_trim st - trim_value percent)))
     then trim_value percent else eeprom_trim st) /\
  phase_error_sum st' = phase_error_sum st /\
  phase_error_count st' = phase_error_count st /\
  sampler st' = sampler st /\
  exists l, tx_log st' = tx_log st ++ Tx_CE current :: Tx_TE total :: Tx_AV adj :: l.
Proof.
  open_state st.
  match goal with
  | |- context [?v =? ?w] =>
      destruct (Z.eqb_spec v w) as [E|E]; [try rewrite <- E |]
  end;
    match goal with
    | |- context [if ?b then _ else _] => destruct b
    end;
    repeat split; eexists; rewrite <- !app_assoc; cbn [app]; reflexivity.
Qed.

(** ** The controller without overflow *)

Lemma sum_samples_exact samples acc :
  Forall is_int samples ->
  Z.abs acc + 2 ^ 15 * Z.of_nat (length samples) < 2 ^ 31 ->
  sum_samples acc samples = acc + Spec.sum samples /\
  Z.abs (Spec.sum samples) <= 2 ^ 15 * Z.of_nat (length samples).
Proof.
  intros Hi. revert acc.
  induction Hi as [|s samples Hs _ IH]; intros acc Hacc.
  - simpl. split; lia.
  - unfold is_int in Hs. simpl length in *. simpl sum_samples. simpl Spec.sum.
    rewrite Nat2Z.inj_succ in *.
    rewrite to_long_id by (unfold is_long; lia).
    destruct (IH (acc + s)) as [E B]; [lia |].
    rewrite E. split; lia.
Qed.

Lemma window_sum_exact st :
  fill_ok st ->
  window_sum st = Spec.sum (valid_entries st) /\
  Z.abs (window_sum st) <= 327680.
Proof.
  intros (_ & Hl & Hi). unfold window_sum.
  assert (Hn : (length (valid_entries st) <= 10)%nat).
  { unfold valid_entries. rewrite length_take, Hl.
    change (Z.to_nat SAMPLE_COUNT) with 10%nat. lia. }
  destruct (sum_samples_exact (valid_entries st) 0) as [E B].
  - unfold valid_entries. now apply Forall_take.
  - simpl Z.abs. lia.
  - rewrite E. simpl. split; [reflexivity | lia].
Qed.

Lemma scale_drift_exact sum :
  Z.abs sum <= 327680 ->
  scale_drift sum = Z.quot (sum * 10) SAMPLE_COUNT /\ scale_drift sum = sum.
Proof.
  intros H. unfold scale_drift, SAMPLE_COUNT.
  rewrite to_long_id by (unfold is_long; lia).
  split; [reflexivity | apply Z.quot_mul; lia].
Qed.

Lemma quot_14_bound x : is_int x -> Z.abs (Z.quot x 14) <= 2341.
Proof.
  unfold is_int. intros H.
  pose proof (Z.quot_rem' x 14) as E.
  assert (HR : Z.abs (Z.rem x 14) < 14).
  { pose proof (Z.rem_bound_abs x 14). lia. }
  lia.
Qed.

Lemma current_error_exact sample_drift phase_error :
  Z.abs sample_drift <= 327680 -> is_int phase_error ->
  current_error sample_drift phase_error
  = Spec.current_error sample_drift phase_error.
Proof.
  intros Hd Hp. unfold current_error, Spec.current_error.
  pose proof (quot_14_bound phase_error Hp).
  rewrite (to_long_id (10 * sample_drift)) by (unfold is_long; lia).
  apply to_long_id. unfold is_long. lia.
Qed.

Lemma discipline_exact current total_before trim_before :
  Spec.fits current total_before trim_before ->
  let total := to_long (total_before + current) in
  total = total_before + current /\
  adj_val current total = Spec.adj current (total_before + current) /\
  to_long (trim_before - adj_val current total)
  = trim_before - Spec.adj current (total_before + current).
Proof.
  intros H total. unfold Spec.fits in H. cbv zeta in H.
  destruct H as (H1 & H2 & H3 & H4 & H5 & H6).
  assert (E1 : total = total_before + current) by now apply to_long_id.
  assert (E2 : adj_val current total = Spec.adj current (total_before + current)).
  { rewrite E1. unfold adj_val, Spec.adj.
    now rewrite (to_long_id _ H2), (to_long_id _ H3), (to_long_id _ H4),
      (to_long_id _ H5). }
  repeat split; [exact E1 | exact E2 |].
  rewrite E2. now apply to_long_id.
Qed.

Lemma to_uint_to_int_add x y : to_uint (to_int x + y) = (x + y) mod 2 ^ 16.
Proof.
  unfold to_uint, to_int, to_unsigned, to_signed.
  change (2 ^ (16 - 1)) with 32768. change (2 ^ 16) with 65536.
  replace ((x + 32768) mod 65536 - 32768 + y)
    with ((x + 32768) mod 65536 + (y - 32768)) by lia.
  rewrite Z.add_mod_idemp_l by lia. f_equal. lia.
Qed.

Lemma trim_value_exact percent :
  trim_value percent = Spec.dac_word percent mod 2 ^ 16.
Proof. unfold trim_value, Spec.dac_word. apply to_uint_to_int_add. Qed.

Lemma window_views_ext st1 st2 :
  sampler st1 = sampler st2 -> accumulators st1 = accumulators st2 ->
  last_adc_value st1 = last_adc_value st2 ->
  valid_entries st1 = valid_entries st2 /\
  window_sum st1 = window_sum st2 /\
  window_drift st1 = window_drift st2 /\
  window_phase_error st1 = window_phase_error st2.
Proof.
  unfold sampler, accumulators. intros Hs Ha Hadc.
  injection Hs as _ _ Hb Hv _. injection Ha as Hp _ _.
  unfold window_drift, window_sum, window_phase_error, valid_entries.
  now rewrite Hb, Hv, Hp, Hadc.
Qed.

(** A pass that finds a new sample, seen from the state it starts in. *)
Lemma main_loop_pending st :
  sample_pending st ->
  exists hs : State,
    main_loop st
    = (if valid_samples st <=? 0 then measured hs
       else discipline (window_drift st) (window_phase_error st) (measured hs)) /\
    sampler (measured hs) = sampler st /\
    total_error (measured hs) = total_error st /\
    tuning (measured hs) = tuning st /\
    phase_error_sum (measured hs) = 0 /\
    phase_error_count (measured hs) = 0 /\
    exists l, tx_log (measured hs)
              = tx_log st
                ++ l ++ [Tx_ER (window_sum st); Tx_PE (window_phase_error st)].
Proof.
  intros (Hp & He & Hs). exists (housekeeping st).
  rewrite main_loop_unfold.
  destruct (Z.eqb_spec (last_pps_count st) (pps_count st)); [contradiction |].
  destruct (housekeeping_frame st)
    as (A1 & A2 & A3 & _ & A5 & A6 & A7 & A8 & _). cbv zeta in *.
  set (hs := housekeeping st) in *.
  destruct (window_views_ext hs st A1 A2 A8) as (V1 & V2 & V3 & V4).
  assert (Hvs : valid_samples hs = valid_samples st).
  { unfold sampler in A1. now injection A1. }
  assert (Hsc : sample_count hs = sample_count st).
  { unfold sampler in A1. now injection A1. }
  rewrite pps_update_closes by congruence.
  rewrite Hvs, V3, V4.
  destruct (measured_frame hs) as (M1 & M2 & M3 & M4 & M5 & M6). cbv zeta in *.
  split; [reflexivity |].
  split; [congruence |]. split; [| split; [congruence |]].
  - rewrite M3. unfold accumulators in A2. now injection A2.
  - split; [exact M1 |]. split; [exact M2 |].
    destruct (housekeeping_log st) as [lh Eh]. fold hs in Eh.
    rewrite M6, V1, V2, V4, Eh.
    exists (lh ++ [Tx_ADC (last_adc_value hs)] ++ map Tx_SB (valid_entries st)).
    now rewrite <- !app_assoc.
Qed.

(** C1, as the code has it.  A pass of the main loop that finds a new
    sample, with at least one valid entry in a well-formed buffer, computes
    [sample_drift] as (sum of the valid entries) * 10 / [SAMPLE_COUNT],
    [current_error] as 10 * [sample_drift] + [sample_phase_error] / 14,
    adds it to [total_error], takes
    [DAC_SIGN] * ([current_error] * [K_P] + [total_error] * [K_I]) / 10000
    from [trim_percent], and commands the DAC word
    [trim_percent] / 100 + 0x8000 modulo 2^16.  Every division rounds
    toward zero, and the sums and products are the exact ones as long as
    they fit the 32 bits of [long]. *)
Theorem discipline_update (st : State) :
  sample_pending st ->
  fill_ok st ->
  0 < valid_samples st ->
  let phase_error := window_phase_error st in
  let drift := Spec.sample_drift (valid_entries st) in
  let current := Spec.current_error drift phase_error in
  let total := total_error st + current in
  let adj := Spec.adj current total in
  let percent := trim_percent st - adj in
  Spec.fits current (total_error st) (trim_percent st) ->
  let st' := main_loop st in
  total_error st' = total /\
  trim_percent st' = percent /\
  last_dac_value st' = Spec.dac_word percent mod 2 ^ 16 /\
  (is_int (Z.quot percent 100) -> last_dac_value st' = Spec.dac_word percent) /\
  exists l1 l2,
    tx_log st'
    = tx_log st
      ++ l1 ++ [Tx_ER (Spec.sum (valid_entries st)); Tx_PE phase_error;
                Tx_CE current; Tx_TE total; Tx_AV adj] ++ l2.
Proof.
  intros Hpend Hfill Hv phase_error drift current total adj percent Hfit st'.
  destruct (main_loop_pending st Hpend)
    as (hs & Hm & M1 & M2 & M3 & _ & _ & lm & M6).
  destruct (Z.leb_spec (valid_samples st) 0); [lia |].
  destruct (window_sum_exact st Hfill) as [Esum Bsum].
  destruct (scale_drift_exact (window_sum st) Bsum) as [Edrift Edrift'].
  assert (Hd : window_drift st = drift).
  { unfold window_drift, drift, Spec.sample_drift. now rewrite Edrift, Esum. }
  assert (Hc : current_error (window_drift st) (window_phase_error st) = current).
  { unfold current, phase_error. rewrite <- Hd. apply current_error_exact.
    - unfold window_drift. now rewrite Edrift'.
    - unfold window_phase_error, sample_phase_error. apply to_int_is_int. }
  destruct (discipline_fields (window_drift st) (window_phase_error st) (measured hs))
    as (D1 & D2 & D3 & _ & _ & _ & _ & ld & D8). cbv zeta in *.
  rewrite Hc, M2 in D1, D2, D3, D8.
  assert (Htp : trim_percent (measured hs) = trim_percent st).
  { unfold tuning in M3. now injection M3. }
  rewrite Htp in D2, D3.
  destruct (discipline_exact current (total_error st) (trim_percent st) Hfit)
    as (X1 & X2 & X3). cbv zeta in *.
  rewrite X3 in D2, D3. rewrite X2 in D8. rewrite X1 in D1, D8.
  subst st'. rewrite Hm.
  split; [exact D1 |]. split; [exact D2 |].
  rewrite D3, trim_value_exact.
  split; [reflexivity |]. split.
  - intros Hq. apply Z.mod_small. unfold Spec.dac_word, is_int in *.
    fold percent. lia.
  - exists lm, ld. rewrite D8, M6, <- Esum. fold phase_error total adj.
    rewrite <- !app_assoc. reflexivity.
Qed.

Lemma sampled_state_fill_ok : fill_ok sampled_state.
Proof.
  split; [right; by_computation |].
  split; [reflexivity |]. repeat constructor; by_computation.
Qed.

Lemma discipline_update_witness :
  let st' := main_loop sampled_state in
  total_error st' = -48 /\ trim_percent st' = -150 /\
  last_dac_value st' = (Z.quot (-150) 100 + 0x8000) mod 2 ^ 16 /\
  last_dac_value st' = 0x7fff.
Proof.
  assert (Hp : sample_pending sampled_state) by by_computation.
  assert (Hv : 0 < valid_samples sampled_state) by reflexivity.
  destruct (discipline_update sampled_state Hp sampled_state_fill_ok Hv
              ltac:(by_computation))
    as (A & B & C & D & _).
  split; [exact A |]. split; [exact B |]. split; [exact C |].
  apply D. by_computation.
Defined.

(** C1, as the claim words it, fails on the DAC word: [trim_percent] ends
    at -150, the word commanded is 0x8000 - 1, and rounding -1.5 down
    would give 0x8000 - 2. *)
Lemma dac_word_is_not_floor :
  ~ (forall st : State,
        sample_pending st -> fill_ok st -> 0 < valid_samples st ->
        locked st = true ->
        last_dac_value (main_loop st)
        = Spec.dac_word_floor (trim_percent (main_loop st))).
Proof.
  intros H.
  assert (Hp : sample_pending sampled_state) by by_computation.
  specialize (H sampled_state Hp sampled_state_fill_ok eq_refl eq_refl).
  vm_compute in H. discriminate.
Qed.

(** ** Phase sampler *)

Lemma abs_0_not_outlier : (MAX_DELTA <? abs 0) = false.
Proof. reflexivity. Qed.

Lemma capture_locked c st :
  locked st = true -> is_uchar (sample_window_pos st) ->
  let st' := TIMER1_CAPT c st in
  pps_count st' = to_ulong (pps_count st + 1) /\
  (sample_window_pos st <> 1 ->
   erroneous_delta st' = erroneous_delta st /\
   sample_count st' = sample_count st) /\
  (sample_window_pos st = 1 -> rejects c st = true ->
   erroneous_delta st' = closing_delta c st /\
   closing_delta c st <> 0 /\
   sample_count st' = sample_count st) /\
  (sample_window_pos st = 1 -> rejects c st = false ->
   erroneous_delta st' = erroneous_delta st /\
   sample_count st' = to_ulong (sample_count st + 1)).
Proof.
  intros Hl Hu st'. subst st'.
  destruct (Z.eq_dec (sample_window_pos st) 1) as [Hp|Hp].
  - rewrite (capture_closes c st Hl Hp).
    destruct (rejects c st) eqn:Hr.
    + split; [reflexivity |]. split; [contradiction |].
      split; [| discriminate]. intros _ _.
      split; [reflexivity |]. split; [| reflexivity].
      intros E. unfold rejects in Hr. rewrite E, abs_0_not_outlier in Hr.
      discriminate.
    + destruct (store_sample_frame (closing_delta c st) (window_edge c st))
        as (_ & F2 & F3 & F4 & _). cbv zeta in *.
      split; [exact F4 |]. split; [contradiction |].
      split; [discriminate |]. intros _ _.
      split; [exact F2 | reflexivity].
  - rewrite (capture_within_window c st Hl Hu Hp).
    split; [reflexivity |]. split; [intros _; split; reflexivity |].
    split; contradiction.
Qed.

Lemma main_loop_accumulates st :
  last_pps_count st <> pps_count st -> erroneous_delta st = 0 ->
  last_sample_count st = sample_count st ->
  let st' := main_loop st in
  phase_error_sum st'
  = to_long (phase_error_sum st + current_phase_error (last_adc_value st)) /\
  phase_error_count st' = to_int (phase_error_count st + 1) /\
  total_error st' = total_error st /\ tuning st' = tuning st.
Proof.
  intros Hp He Hs. cbv zeta. rewrite main_loop_unfold.
  destruct (Z.eqb_spec (last_pps_count st) (pps_count st)); [contradiction |].
  destruct (housekeeping_frame st)
    as (A1 & A2 & A3 & _ & _ & A6 & A7 & A8 & _). cbv zeta in *.
  unfold sampler in A1. injection A1 as _ A1 _ _ _.
  unfold accumulators in A2. injection A2 as A2 A2' A2''.
  rewrite pps_update_accumulates by congruence.
  rewrite <- A2, <- A2', <- A2'', <- A3, <- A8. repeat split.
Qed.

Lemma current_phase_error_exact adc :
  0 <= adc < 1024 -> current_phase_error adc = PHASE_ADC_MIDPOINT - adc.
Proof.
  intros H. unfold current_phase_error, PHASE_ADC_MIDPOINT.
  unfold to_uint, to_unsigned. change (2 ^ 16) with 65536.
  destruct (Z_le_gt_dec adc 512).
  - rewrite Z.mod_small by lia. apply to_int_id. unfold is_int. lia.
  - replace (512 - adc) with (512 - adc + 65536 + (-1) * 65536) by lia.
    rewrite Z.mod_add, Z.mod_small by lia.
    unfold to_int, to_signed. change (2 ^ (16 - 1)) with 32768.
    change (2 ^ 16) with 65536.
    replace (512 - adc + 65536 + 32768) with (512 - adc + 32768 + 1 * 65536) by lia.
    rewrite Z.mod_add, Z.mod_small by lia. lia.
Qed.

Lemma window_phase_error_exact st :
  0 <= last_adc_value st < 1024 ->
  let sum := phase_error_sum st + (PHASE_ADC_MIDPOINT - last_adc_value st) in
  phase_fits sum ->
  window_phase_error st
  = Spec.sample_phase_error (Spec.average_phase_error sum).
Proof.
  intros Hadc sum (F1 & F2 & F3). unfold window_phase_error.
  rewrite current_phase_error_exact by exact Hadc. fold sum.
  rewrite to_long_id by exact F1.
  unfold sample_phase_error. fold (Spec.average_phase_error sum).
  rewrite to_long_id by exact F2. now apply to_int_id.
Qed.

(** One PPS edge while locked, followed by a pass of a main loop that was
    caught up with no outlier report waiting.
    Within a window, midpoint minus reading is added to [phase_error_sum]
    and the count goes up by one.  On the edge that closes a window with a
    delta that is taken (stored, or consumed by the skip marker), the sum
    including this reading is divided by [SAMPLE_SECONDS], the quotient
    times 1000 is divided by 512 (both rounding toward zero), that is the
    phase error the pass reports and uses, and sum and count are zero
    afterwards.  On the edge that closes a window with a rejected delta
    the pass stops at line 593: the reading is not added, nothing is
    computed, and sum and count stay as they are, so that they enter the
    average of the next window. *)
Theorem phase_accumulation (c : capture) (st : State) :
  locked st = true ->
  caught_up st ->
  is_ulong (pps_count st) -> is_ulong (sample_count st) ->
  is_uchar (sample_window_pos st) ->
  erroneous_delta st = 0 ->
  0 <= ADC c < 1024 ->
  let sum := phase_error_sum st + (PHASE_ADC_MIDPOINT - ADC c) in
  let st' := main_loop (TIMER1_CAPT c st) in
  (sample_window_pos st <> 1 ->
   is_long sum -> is_int (phase_error_count st + 1) ->
   phase_error_sum st' = sum /\
   phase_error_count st' = phase_error_count st + 1) /\
  (sample_window_pos st = 1 -> rejects c st = false ->
   phase_fits sum ->
   phase_error_sum st' = 0 /\ phase_error_count st' = 0 /\
   exists l1 l2,
     tx_log st'
     = tx_log st
       ++ l1 ++ [Tx_PE (Spec.sample_phase_error (Spec.average_phase_error sum))]
       ++ l2) /\
  (sample_window_pos st = 1 -> rejects c st = true ->
   accumulators st' = accumulators st).
Proof.
  intros Hl [Hc1 Hc2] Hup Hus Huw He Hadc sum st'. subst st'.
  set (st1 := TIMER1_CAPT c st).
  destruct (capture_frame c st)
    as (F1 & _ & F3 & F4 & _ & _ & _ & F8 & F9). fold st1 in F1, F3, F4, F8, F9.
  destruct (capture_locked c st Hl Huw) as (L1 & L2 & L3 & L4).
  fold st1 in L1, L2, L3, L4.
  assert (Hnew : last_pps_count st1 <> pps_count st1).
  { rewrite F3, L1, Hc1. intros E. symmetry in E.
    now apply (to_ulong_succ_neq _ Hup). }
  assert (Hsum : phase_error_sum st1 = phase_error_sum st).
  { unfold accumulators in F1. now injection F1. }
  assert (Hcnt : phase_error_count st1 = phase_error_count st).
  { unfold accumulators in F1. now injection F1. }
  split; [| split].
  - intros Hp Hfit Hfc. destruct (L2 Hp) as [E1 E2].
    destruct (main_loop_accumulates st1 Hnew) as (A1 & A2 & _);
      [congruence | congruence |].
    rewrite A1, A2, Hsum, Hcnt, F9.
    rewrite current_phase_error_exact by exact Hadc. fold sum.
    split; now apply to_long_id || now apply to_int_id.
  - intros Hp Hr Hfit. destruct (L4 Hp Hr) as [E1 E2].
    assert (Hpend : sample_pending st1).
    { split; [exact Hnew |]. split; [congruence |].
      rewrite F4, E2, Hc2. intros E. symmetry in E.
      now apply (to_ulong_succ_neq _ Hus). }
    destruct (main_loop_pending st1 Hpend)
      as (hs & Hm & _ & _ & _ & M4 & M5 & lm & M6).
    assert (Hpe : window_phase_error st1
                  = Spec.sample_phase_error (Spec.average_phase_error sum)).
    { unfold sum. rewrite <- Hsum, <- F9.
      apply window_phase_error_exact; rewrite ?F9, ?Hsum; assumption. }
    rewrite Hpe, F8 in M6. rewrite Hpe in Hm. rewrite Hm.
    destruct (valid_samples st1 <=? 0).
    + split; [exact M4 |]. split; [exact M5 |].
      exists (lm ++ [Tx_ER (window_sum st1)]), [].
      rewrite M6, app_nil_r, <- !app_assoc. reflexivity.
    + destruct (discipline_fields (window_drift st1)
                  (Spec.sample_phase_error (Spec.average_phase_error sum))
                  (measured hs))
        as (_ & _ & _ & _ & D5 & D6 & _ & ld & D8). cbv zeta in *.
      rewrite D5, D6, D8, M6.
      split; [exact M4 |]. split; [exact M5 |].
      exists (lm ++ [Tx_ER (window_sum st1)]). eexists.
      rewrite <- !app_assoc. reflexivity.
  - intros Hp Hr. destruct (L3 Hp Hr) as (E1 & E2 & _).
    destruct (main_loop_outlier st1 Hnew) as (A1 & _); [congruence |].
    cbv zeta in A1. now rewrite A1.
Qed.

Lemma phase_accumulation_witness :
  let within := set_sample_window_pos 7 accumulating_state in
  phase_error_sum (main_loop (TIMER1_CAPT (edge_late 0 500) within)) = 112 /\
  phase_error_count (main_loop (TIMER1_CAPT (edge_late 0 500) within)) = 25 /\
  phase_error_sum (main_loop (TIMER1_CAPT (edge_late 0 500) accumulating_state)) = 0 /\
  phase_error_count (main_loop (TIMER1_CAPT (edge_late 0 500) accumulating_state)) = 0 /\
  accumulators (main_loop (TIMER1_CAPT (edge_late 3000 500) accumulating_state))
  = (100, 24, 0).
Proof.
  intros within.
  assert (Hadc : 0 <= 500 < 1024) by lia.
  destruct (phase_accumulation (edge_late 0 500) within eq_refl
              ltac:(by_computation) ltac:(by_computation) ltac:(by_computation)
              ltac:(by_computation) eq_refl Hadc) as (A & _ & _).
  destruct (phase_accumulation (edge_late 0 500) accumulating_state eq_refl
              ltac:(by_computation) ltac:(by_computation) ltac:(by_computation)
              ltac:(by_computation) eq_refl Hadc) as (_ & B & _).
  destruct (phase_accumulation (edge_late 3000 500) accumulating_state eq_refl
              ltac:(by_computation) ltac:(by_computation) ltac:(by_computation)
              ltac:(by_computation) eq_refl Hadc) as (_ & _ & C).
  destruct (A ltac:(by_computation) ltac:(by_computation) ltac:(by_computation))
    as [A1 A2].
  destruct (B eq_refl eq_refl ltac:(by_computation)) as (B1 & B2 & _).
  split; [exact A1 |]. split; [exact A2 |].
  split; [exact B1 |]. split; [exact B2 |].
  exact (C eq_refl eq_refl).
Defined.

(** For one edge: when it closes a window with a rejected delta, with a
    sum of 100 over 24 readings and a reading of 500, the pass neither
    adds 12 nor clears the accumulator. *)
Lemma rejected_window_keeps_phase_sum :
  ~ (forall (c : capture) (st : State),
        locked st = true -> caught_up st -> erroneous_delta st = 0 ->
        0 <= ADC c < 1024 ->
        let st' := main_loop (TIMER1_CAPT c st) in
        (sample_window_pos st <> 1 ->
         phase_error_sum st'
         = phase_error_sum st + (PHASE_ADC_MIDPOINT - ADC c) /\
         phase_error_count st' = phase_error_count st + 1) /\
        (sample_window_pos st = 1 ->
         phase_error_sum st' = 0 /\ phase_error_count st' = 0)).
Proof.
  intros H.
  assert (Hadc : 0 <= ADC (edge_late 3000 500) < 1024) by (simpl; lia).
  destruct (H (edge_late 3000 500) accumulating_state eq_refl
              ltac:(by_computation) eq_refl Hadc) as [_ H2].
  destruct (H2 eq_refl) as [H3 _].
  vm_compute in H3. discriminate.
Qed.

(** C5 on the window after a rejected one.  In [outlier_run] the second
    window closes 3000 ticks late.  The pass that finds the delta in
    [erroneous_delta] leaves at the [continue] of line 593: the reading
    of the closing edge is not added and, unlike the pass that discards
    the window of the skip marker, it does not clear the accumulator,
    which keeps the 24 readings of the rejected window.  The next window
    closes on time, and line 614 divides the sum of 49 readings (24 + 25,
    each 12) by [SAMPLE_SECONDS] = 25: the phase error reported and used
    is 44 mils, where the 25 readings of the window give 23.  Only then
    is the accumulator cleared. *)
Theorem rejected_window_stretches_average :
  reachable next_window_state /\
  erroneous_delta outlier_state = 3000 /\
  accumulators outlier_state = (288, 24, 0) /\
  accumulators (main_loop outlier_state) = (288, 24, 0) /\
  accumulators next_window_state = (576, 48, 0) /\
  sample_pending next_window_state /\
  last_adc_value next_window_state = 500 /\
  window_phase_error next_window_state
  = sample_phase_error (average_phase_error (49 * current_phase_error 500)) /\
  window_phase_error next_window_state = 44 /\
  sample_phase_error (average_phase_error (25 * current_phase_error 500)) = 23 /\
  In (Tx_PE 44) (tx_log (main_loop next_window_state)) /\
  accumulators (main_loop next_window_state) = (0, 0, 3).
Proof.
  split.
  - unfold next_window_state. apply reachable_run.
    + apply reach_boot; by_computation.
    + vm_compute. reflexivity.
  - vm_compute. repeat split; try congruence.
    repeat (first [left; reflexivity | right]).
Qed.

(** ** Persistence *)

Example far_off_state_fields :
  locked far_off_state = true /\
  valid_entries far_off_state = [2500; 2500; 1553] /\
  (pps_count far_off_state, last_pps_count far_off_state) = (100, 99) /\
  (sample_count far_off_state, last_sample_count far_off_state) = (4, 3) /\
  erroneous_delta far_off_state = 0 /\
  (total_error far_off_state, trim_percent far_off_state) = (75012, 235667) /\
  eeprom_trim far_off_state = 0xffff.
Proof. vm_compute. repeat split. Qed.

Lemma to_int_to_uint x : to_int (to_uint x) = to_int x.
Proof.
  unfold to_int, to_uint, to_signed, to_unsigned.
  change (2 ^ (16 - 1)) with 32768. change (2 ^ 16) with 65536.
  now rewrite Z.add_mod_idemp_l by lia.
Qed.

Lemma abs_to_uint x : abs (to_uint x) = abs x.
Proof. unfold abs. now rewrite to_int_to_uint. Qed.

(** Where [abs] sees its whole argument the test of line 718 is the one
    the comment above it describes. *)
Lemma persist_in_range current trim st :
  - 2 ^ 15 < current < 2 ^ 15 ->
  Z.abs (eeprom_trim st - trim) < 2 ^ 15 ->
  eeprom_trim (persist current trim st)
  = if (Z.abs current <? 100) && (EE_UPDATE_OFFSET <? Z.abs (eeprom_trim st - trim))
    then trim else eeprom_trim st.
Proof.
  intros Hc Hd. unfold persist.
  rewrite abs_to_uint, (abs_int current Hc), (abs_int (eeprom_trim st - trim)) by lia.
  destruct (_ && _); reflexivity.
Qed.

(** C6 at the end of [far_off_run].  The sample buffer holds 2500, 2500
    and 1553 ticks, [current_error] is 65536, six hundred times the bound
    of 100, and the pass writes the EEPROM: [abs] is avr-libc's
    [int abs(int)], the [long] argument is cut to its low 16 bits, which
    are zero. *)
Theorem eeprom_written_off_lock :
  let st' := main_loop far_off_state in
  reachable far_off_state /\
  window_drift far_off_state = 6553 /\
  current_error (window_drift far_off_state) (window_phase_error far_off_state)
  = 65536 /\
  100 <= Z.abs 65536 /\
  abs 65536 = 0 /\
  eeprom_trim far_off_state = 0xffff /\
  eeprom_trim st' = 0x8000 + 4416 /\
  last_dac_value st' = 0x8000 + 4416 /\
  drop (length (tx_log st') - 7) (tx_log st')
  = [Tx_CE 65536; Tx_TE 140548; Tx_AV (-205965); Tx_TP (-441632);
     Tx_TV (0x8000 + 4416); Tx_PD; Tx_EEUP].
Proof.
  intros st'. split.
  - apply reachable_run.
    + apply reach_boot; by_computation.
    + vm_compute. reflexivity.
  - subst st'. vm_compute. repeat split; congruence.
Qed.

(** ** Holdover *)

Lemma pps_update_empty st :
  valid_samples st <= 0 ->
  total_error (pps_update st) = total_error st /\
  (lock st = 0 -> lock (pps_update st) = 0).
Proof.
  intros Hv. open_state st.
  assert (Hg : forall d, lock_grade valid_samples0 d = 0).
  { intros d. unfold lock_grade, SAMPLE_COUNT.
    destruct (Z.ltb_spec valid_samples0 10); [reflexivity | lia]. }
  destruct (Z.leb_spec valid_samples0 0); [| lia].
  branches; split; try reflexivity; intros; try assumption; apply Hg.
Qed.

Lemma main_loop_empty st :
  valid_samples st <= 0 ->
  total_error (main_loop st) = total_error st /\
  (lock st = 0 -> lock (main_loop st) = 0).
Proof.
  intros Hv. rewrite main_loop_unfold.
  destruct (housekeeping_frame st)
    as (A1 & A2 & _ & _ & _ & _ & _ & _ & _ & _ & A11). cbv zeta in *.
  unfold sampler in A1. injection A1 as _ _ _ A1 _.
  unfold accumulators in A2. injection A2 as _ _ A2.
  destruct (last_pps_count st =? pps_count st).
  - split; congruence.
  - destruct (pps_update_empty (housekeeping st)) as [E1 E2]; [lia |].
    split; [congruence |]. intros Hz. apply E2. congruence.
Qed.

(** Run as atomic steps, the firmware is in the reset condition whenever
    the receiver is unlocked: a report that brings the fix finds the
    values a report that takes it away would set. *)
Lemma unlocked_is_reset st : reachable st -> locked st = false -> is_reset st.
Proof.
  induction 1 as [mcusr_value ee dac _ _ _ | e st Hr IH Hwf]; intros Hu.
  - unfold boot, restore_trim, writeDacValue, is_reset. cbv zeta.
    branches; repeat split.
  - destruct e as [|c|v|]; simpl in *.
    + exact (IH Hu).
    + destruct (locked st) eqn:Hl.
      * exfalso. destruct (capture_frame c st) as (_ & _ & _ & _ & G & _).
        cbv zeta in G. unfold locked in *. rewrite G, Hl in Hu. discriminate.
      * rewrite (capture_unlocked c st Hl). exact (IH eq_refl).
    + destruct (Z.eq_dec (fix_bit v) (Z.land (gps_status st) 1)) as [E|E].
      * rewrite (handleGPS_same v st E) in *. exact (IH Hu).
      * destruct v; simpl in E.
        -- exfalso. rewrite (handleGPS_acquired st) in Hu by congruence.
           discriminate.
        -- rewrite (handleGPS_lost st) by congruence. repeat split.
    + destruct (main_loop_sampler st) as [Es El]. rewrite El in Hu.
      destruct (IH Hu) as (I1 & I2 & I3 & I4).
      destruct (main_loop_empty st) as [E1 E2]; [lia |].
      unfold sampler in Es. injection Es as _ _ _ Ev Ew.
      unfold is_reset. rewrite Ev, Ew, E1. auto.
Qed.

(** Without an interrupt in its middle, the interrupted pass is the pass. *)
Lemma main_loop_uninterrupted st :
  sample_pending st -> 0 < valid_samples st ->
  main_loop_interrupted (fun s => s) st = main_loop st.
Proof.
  intros (Hp & He & Hs) Hv. unfold main_loop_interrupted.
  rewrite main_loop_unfold.
  destruct (Z.eqb_spec (last_pps_count st) (pps_count st)); [contradiction |].
  destruct (housekeeping_frame st)
    as (A1 & A2 & _ & _ & _ & A6 & A7 & A8 & _). cbv zeta in *.
  destruct (window_views_ext (housekeeping st) st A1 A2 A8) as (_ & _ & V3 & V4).
  unfold sampler in A1. injection A1 as _ A1 _ A1' _.
  rewrite pps_update_closes by congruence.
  rewrite A1', V3, V4.
  destruct (Z.leb_spec (valid_samples st) 0); [lia | reflexivity].
Qed.

Example first_sample_state_fields :
  reachable first_sample_state /\
  sample_pending first_sample_state /\
  valid_entries first_sample_state = [48] /\
  locked first_sample_state = true /\
  locked holdover_state = false /\
  ~ is_reset holdover_state.
Proof.
  split; [| split; [by_computation |]].
  - apply reachable_run; [apply reach_boot; by_computation |].
    vm_compute. reflexivity.
  - split; [reflexivity |]. split; [reflexivity |]. split; [reflexivity |].
    intros (_ & _ & H & _). vm_compute in H. discriminate.
Qed.

(** ** The driver's record of the DAC *)

Lemma trim_value_is_uint percent : is_uint (trim_value percent).
Proof. unfold trim_value. apply to_uint_is_uint. Qed.

Lemma writeDacValue_driver_ok value st :
  is_uint value -> driver_ok st -> driver_ok (writeDacValue value st).
Proof.
  intros Hv [H1 H2]. unfold driver_ok, last_written, writeDacValue in *.
  destruct (Z.eqb_spec value (last_dac_value st)) as [E|E]; [now split |].
  fields. rewrite last_snoc. split; [| exact Hv].
  symmetry. now apply dac_latch_frame.
Qed.

Lemma driver_ok_ext st1 st2 :
  last_dac_value st1 = last_dac_value st2 -> dac_frames st1 = dac_frames st2 ->
  driver_ok st2 -> driver_ok st1.
Proof. unfold driver_ok, last_written. now intros -> ->. Qed.

Lemma pps_update_driver_ok st : driver_ok st -> driver_ok (pps_update st).
Proof.
  unfold driver_ok, last_written. intros H. open_state st.
  branches; try exact H;
    (rewrite last_snoc; split;
     [symmetry; apply dac_latch_frame | ]; apply trim_value_is_uint).
Qed.

Lemma step_driver_ok e st : driver_ok st -> driver_ok (step e st).
Proof.
  intros H. destruct e as [|c|v|]; simpl.
  - exact H.
  - destruct (capture_frame c st) as (_ & E & _). cbv zeta in E.
    unfold tuning in E. injection E as _ E1 _ E2 _.
    exact (driver_ok_ext _ _ E1 E2 H).
  - unfold handleGPS. cbv zeta. branches; exact H.
  - rewrite main_loop_unfold.
    destruct (housekeeping_frame st) as (_ & _ & E & _). cbv zeta in E.
    unfold tuning in E. injection E as _ E1 _ E2 _.
    assert (Hh : driver_ok (housekeeping st)) by exact (driver_ok_ext _ _ E1 E2 H).
    destruct (_ =? _); [exact Hh | now apply pps_update_driver_ok].
Qed.

(** [last_dac_value] is the word of the last frame, or 0x8000 before the
    first frame. *)
Lemma reachable_driver_ok st : reachable st -> driver_ok st.
Proof.
  induction 1 as [mcusr_value ee dac _ Hee _ | e st _ IH _].
  - unfold boot, restore_trim. cbv zeta.
    match goal with
    | |- driver_ok (tx _ (set_trim_percent _ (writeDacValue ?v ?s))) =>
        assert (Hw : driver_ok (writeDacValue v s))
    end.
    + apply writeDacValue_driver_ok.
      * simpl. destruct (ee =? 65535); [by_computation | exact Hee].
      * split; [reflexivity | by_computation].
    + exact Hw.
  - now apply step_driver_ok.
Qed.

(** The driver against its own record.  [last_dac_value] is the word of
    the last frame clocked out since reset, and 0x8000 before the first.
    Asking for that word changes nothing: no frame is clocked out.  Asking
    for a different word clocks out exactly the frame of that word, which
    the DAC latches; asking for it a second time in a row adds no further
    frame, so the two requests make one physical write. *)
Theorem writeDacValue_once (value : Z) (st : State) :
  (reachable st -> last_dac_value st = last_written st) /\
  writeDacValue (last_dac_value st) st = st /\
  (value <> last_dac_value st ->
   dac_frames (writeDacValue value st) = dac_frames st ++ [dac_frame value] /\
   last_dac_value (writeDacValue value st) = value /\
   (is_uint value -> dac_reg (writeDacValue value st) = value) /\
   writeDacValue value (writeDacValue value st) = writeDacValue value st /\
   length (dac_frames (writeDacValue value (writeDacValue value st)))
   = S (length (dac_frames st))).
Proof.
  split; [intros Hr; exact (proj1 (reachable_driver_ok st Hr)) |].
  split; [apply writeDacValue_same |].
  intros Hne.
  assert (Hsame : writeDacValue value (writeDacValue value st)
                  = writeDacValue value st).
  { rewrite <- (writeDacValue_last value st) at 1. apply writeDacValue_same. }
  rewrite Hsame, (writeDacValue_fresh _ _ Hne). simpl.
  repeat split.
  - intros Hu. now apply dac_latch_frame.
  - rewrite length_app. simpl. lia.
Qed.

Lemma writeDacValue_once_witness :
  let st := boot 1 0xffff 0x8000 in
  last_dac_value st = last_written st /\
  dac_frames (writeDacValue 0x8123 (writeDacValue 0x8123 st))
  = [dac_frame 0x8123] /\
  dac_reg (writeDacValue 0x8123 st) = 0x8123.
Proof.
  intros st.
  assert (Hne : 0x8123 <> last_dac_value st) by by_computation.
  assert (Hr : reachable st) by (apply reach_boot; by_computation).
  destruct (writeDacValue_once 0x8123 st) as (H0 & _ & H).
  destruct (H Hne) as (Hf & _ & Hreg & Hsame & _).
  split; [exact (H0 Hr) |]. split.
  - rewrite Hsame. exact Hf.
  - apply Hreg. by_computation.
Defined.

(** ** The record of the DAC after a reset

    Line 472 sets [last_dac_value] to 0x8000 with the comment that the DAC
    powers up at mid-point.  That is the state of the AD5061 after a
    power-on, not after a watchdog or external reset, which restarts the
    controller and leaves the DAC with the word it was last sent. *)

(** C7 at a watchdog reset.  [tuned_state] is reached from power-on with
    an erased EEPROM: the first PI update has sent 0x800F to the DAC and
    has not written the EEPROM.  After the reset [main] reads 0xFFFF,
    takes 0x8000 and calls the driver, which returns at line 174: no frame
    is clocked out, the DAC keeps 0x800F, and [trim_percent] is 0, the
    fixed-point form of 0x8000.  The same happens with 0x8000 in the
    EEPROM; any other stored word is clocked out. *)
Theorem boot_keeps_stale_dac_word :
  reachable tuned_state /\
  (eeprom_trim tuned_state, dac_reg tuned_state) = (0xffff, 0x800f) /\
  restarted_state = boot 8 0xffff 0x800f /\
  dac_frames restarted_state = [] /\
  dac_reg restarted_state = 0x800f /\
  last_dac_value restarted_state = 0x8000 /\
  trim_percent restarted_state = 0 /\
  trim_value (trim_percent restarted_state) = 0x8000 /\
  (dac_frames (boot 8 0x8000 0x800f), dac_reg (boot 8 0x8000 0x800f))
  = ([], 0x800f) /\
  (dac_frames (boot 8 0x8001 0x800f), dac_reg (boot 8 0x8001 0x800f))
  = ([dac_frame 0x8001], 0x8001).
Proof.
  split.
  - unfold tuned_state. apply reachable_run.
    + apply reach_boot; by_computation.
    + vm_compute. reflexivity.
  - vm_compute. repeat split; congruence.
Qed.

(** C8 after a watchdog reset.  In [restarted_state] the DAC holds 0x800F,
    the last word physically written, and [last_dac_value] is 0x8000.  A
    request for 0x8000, which differs from the word in the DAC, returns at
    line 174 and does not reach the hardware: so for the call of line 520
    during the restart, and for any later one.  A request for 0x800F, the
    word the DAC already has, clocks out a frame. *)
Theorem writeDacValue_skips_after_reset :
  let st := restarted_state in
  reachable st /\
  dac_reg st = 0x800f /\
  last_dac_value st = 0x8000 /\
  writeDacValue 0x8000 (reset_state 8 0xffff 0x800f)
  = reset_state 8 0xffff 0x800f /\
  writeDacValue 0x8000 st = st /\
  dac_reg (writeDacValue 0x8000 st) = 0x800f /\
  dac_frames (writeDacValue 0x800f st) = [dac_frame 0x800f] /\
  dac_reg (writeDacValue 0x800f st) = 0x800f.
Proof.
  intros st. split.
  - subst st. unfold restarted_state, warm_reset.
    apply reach_boot; by_computation.
  - subst st. vm_compute. repeat split; congruence.
Qed.

Lemma capture_timer_val_is_ulong hibits lowbits tov :
  is_uint hibits -> is_uint lowbits ->
  is_ulong (capture_timer_val hibits lowbits tov).
Proof.
  intros Hh Hl. rewrite capture_timer_val_eq by exact Hl.
  assert (Hu := to_uint_is_uint (hibits + 1)).
  unfold is_uint, is_ulong in *.
  destruct (tov && (lowbits <? 32768)); lia.
Qed.

Lemma lock_grade_range valid sample_drift :
  0 <= lock_grade valid sample_drift <= 3 /\
  (lock_grade valid sample_drift <> 0 -> SAMPLE_COUNT <= valid).
Proof.
  unfold lock_grade. destruct (Z.ltb_spec valid SAMPLE_COUNT); branches;
    split; try lia; intros; lia.
Qed.

Lemma lor_2_range g : 0 <= g <= 3 -> 0 <= Z.lor g 2 <= 3.
Proof.
  intros H.
  assert (g = 0 \/ g = 1 \/ g = 2 \/ g = 3) as [-> | [-> | [-> | ->]]] by lia;
    vm_compute; split; congruence.
Qed.

Lemma store_sample_typed delta st : typed st -> typed (store_sample delta st).
Proof.
  unfold typed, store_sample. intros H. branches; fields; exact H.
Qed.

Lemma capture_typed c st :
  well_formed (Capture c) -> typed st -> typed (TIMER1_CAPT c st).
Proof.
  intros [Hi Ha] H.
  assert (Ht := capture_timer_val_is_ulong (timer_hibits st) (ICR1 c) (TOV1 c)).
  unfold TIMER1_CAPT. fields. branches.
  - unfold typed in *. fields. intuition.
  - unfold typed in *. fields. intuition. apply to_ulong_is_ulong.
  - unfold typed in *. fields. intuition; try apply to_ulong_is_ulong.
    apply to_long_is_long.
  - match goal with
    | |- typed (set_sample_count _ (store_sample ?d ?s)) =>
        assert (Hs : typed s);
        [| apply (store_sample_typed d) in Hs; unfold typed in *; fields;
           intuition; apply to_ulong_is_ulong ]
    end.
    unfold typed in *. fields. intuition. apply to_ulong_is_ulong.
Qed.

Lemma handleGPS_typed v st : typed st -> typed (handleGPS v st).
Proof.
  unfold typed, handleGPS. intros H. fields. branches; fields; intuition;
    try (destruct v; lia); unfold is_long; lia.
Qed.

Lemma housekeeping_typed st : typed st -> typed (housekeeping st).
Proof.
  unfold typed, housekeeping, update_leds, log_status. intros H.
  fields. branches; fields; intuition; apply lor_2_range; lia.
Qed.

Lemma pps_update_typed st : typed st -> typed (pps_update st).
Proof.
  unfold typed. open_state st. intros H.
  assert (Hl := to_long_is_long). assert (Hi := to_int_is_int).
  assert (Hu := to_uint_is_uint). pose proof trim_value_is_uint as Ht.
  assert (Hd : forall p, is_uint (dac_latch (dac_frame (trim_value p)))).
  { intros p. rewrite dac_latch_frame; apply Ht. }
  branches; cbv beta iota zeta; intuition; unfold is_long, is_int; try lia.
Qed.

Lemma step_typed e st : well_formed e -> typed st -> typed (step e st).
Proof.
  destruct e as [| c | v |]; simpl; intros Hw H.
  - unfold typed, TIMER1_OVF in *. fields. intuition. apply to_uint_is_uint.
  - now apply capture_typed.
  - now apply handleGPS_typed.
  - rewrite main_loop_unfold. destruct (_ =? _).
    + now apply housekeeping_typed.
    + now apply pps_update_typed, housekeeping_typed.
Qed.

Lemma boot_typed mcusr_value ee dac :
  is_uint ee -> is_uint dac -> typed (boot mcusr_value ee dac).
Proof.
  intros He Hd. unfold typed, boot, restore_trim, reset_state, writeDacValue.
  fields.
  assert (Hv : is_uint (if ee =? 65535 then 32768 else ee)).
  { destruct (ee =? 65535); [unfold is_uint; lia | exact He]. }
  assert (Hl := to_long_is_long).
  branches; fields; rewrite ?dac_latch_frame by exact Hv;
    intuition; unfold is_uint, is_long, is_int, is_ulong, PHASE_ADC_MIDPOINT in *;
    try lia.
Qed.

Lemma reachable_typed st : reachable st -> typed st.
Proof.
  induction 1 as [m ee dac Hm He Hd | e st Hr IH Hw].
  - now apply boot_typed.
  - now apply step_typed.
Qed.

Lemma store_sample_full delta st :
  valid_samples st = SAMPLE_COUNT ->
  valid_samples (store_sample delta st) = SAMPLE_COUNT.
Proof. intros H. unfold store_sample. rewrite H. reflexivity. Qed.

Lemma store_sample_window_pos delta st :
  sample_window_pos (store_sample delta st) = sample_window_pos st.
Proof. unfold store_sample. branches; reflexivity. Qed.

Lemma capture_graded c st : graded st -> graded (TIMER1_CAPT c st).
Proof.
  intros (Hp & Hl & Hg).
  destruct (capture_frame c st) as (_ & _ & _ & _ & Eg & El & _).
  assert (Hk : locked (TIMER1_CAPT c st) = locked st).
  { unfold locked. now rewrite Eg. }
  unfold graded. rewrite El, Hk.
  assert (Hpos : 1 <= sample_window_pos (TIMER1_CAPT c st) <= SAMPLE_SECONDS).
  { unfold TIMER1_CAPT. fields. branches; fields; try lia.
    - rewrite to_uchar_id in * by (unfold is_uchar, SAMPLE_SECONDS in *; lia).
      lia.
    - rewrite store_sample_window_pos. fields. unfold SAMPLE_SECONDS. lia. }
  split; [exact Hpos |]. split; [exact Hl |].
  intros Hn. destruct (Hg Hn) as [Hv Hlk]. split; [| exact Hlk].
  unfold TIMER1_CAPT. fields. branches; fields; try exact Hv.
  apply store_sample_full. fields. exact Hv.
Qed.

Lemma sampler_fields st1 st2 :
  sampler st1 = sampler st2 ->
  pps_count st1 = pps_count st2 /\ sample_count st1 = sample_count st2 /\
  sample_buffer st1 = sample_buffer st2 /\
  valid_samples st1 = valid_samples st2 /\
  sample_window_pos st1 = sample_window_pos st2.
Proof. unfold sampler. intros H. injection H. intros. repeat split; assumption. Qed.

Lemma pps_update_lock st :
  lock (pps_update st) = lock st \/
  exists d, lock (pps_update st) = lock_grade (valid_samples st) d.
Proof.
  open_state st. branches; cbv beta iota zeta; eauto.
Qed.

Lemma main_loop_lock st :
  lock (main_loop st) = lock st \/
  exists d, lock (main_loop st) = lock_grade (valid_samples st) d.
Proof.
  destruct (housekeeping_frame st) as (Hs & _ & _ & _ & _ & _ & _ & _ & _ & _ & Hl).
  apply sampler_fields in Hs. destruct Hs as (_ & _ & _ & Hv & _).
  rewrite main_loop_unfold. destruct (_ =? _); [now left |].
  rewrite <- Hl, <- Hv. apply pps_update_lock.
Qed.

Lemma handleGPS_graded v st : graded st -> graded (handleGPS v st).
Proof.
  unfold graded, handleGPS, locked. intros (Hp & Hl & Hg).
  fields. branches; fields; unfold SAMPLE_SECONDS; intuition lia.
Qed.

Lemma reachable_graded st : reachable st -> graded st.
Proof.
  induction 1 as [m ee dac Hm He Hd | e st Hr IH Hw].
  - unfold graded, boot, restore_trim, reset_state, writeDacValue, locked.
    fields. branches; fields; unfold SAMPLE_SECONDS; intuition lia.
  - destruct e as [| c | v |]; simpl.
    + exact IH.
    + now apply capture_graded.
    + now apply handleGPS_graded.
    + destruct IH as (Hp & Hl & Hg).
      destruct (main_loop_sampler st) as [Hs Hk].
      apply sampler_fields in Hs. destruct Hs as (_ & _ & _ & Hv & Hw').
      unfold graded. rewrite Hv, Hw', Hk.
      split; [exact Hp |].
      destruct (main_loop_lock st) as [E | [d E]]; rewrite E.
      * split; [exact Hl | exact Hg].
      * destruct (lock_grade_range (valid_samples st) d) as [Hr1 Hr2].
        split; [exact Hr1 |]. intros Hn. specialize (Hr2 Hn).
        destruct (reachable_fill_ok st Hr) as ([Hf | Hf] & _);
          [unfold SAMPLE_COUNT in *; lia |].
        split; [lia |].
        destruct (locked st) eqn:Hlk; [reflexivity |].
        destruct (unlocked_is_reset st Hr Hlk) as (Hm & _).
        unfold SAMPLE_COUNT in *. lia.
Qed.

Lemma to_ulong_add_l a b : to_ulong (to_ulong a + b) = to_ulong (a + b).
Proof. unfold to_ulong, to_unsigned. apply Z.add_mod_idemp_l. lia. Qed.

Lemma to_uint_add_l a b : to_uint (to_uint a + b) = to_uint (a + b).
Proof. unfold to_uint, to_unsigned. apply Z.add_mod_idemp_l. lia. Qed.

Lemma edges_nonneg es : 0 <= edges es.
Proof. induction es as [| [] es IH]; simpl; lia. Qed.

Lemma main_loop_window_base st :
  window_base (main_loop st) = window_base st /\
  timer_hibits (main_loop st) = timer_hibits st.
Proof.
  destruct (housekeeping_frame st)
    as (Hs & _ & _ & _ & _ & _ & _ & _ & Ht & Hh & _).
  destruct (pps_update_sampler (housekeeping st)) as (Ps & _ & Ph & Pt).
  apply sampler_fields in Hs. destruct Hs as (_ & H1 & H2 & H3 & _).
  apply sampler_fields in Ps. destruct Ps as (_ & P1 & P2 & P3 & _).
  rewrite main_loop_unfold. unfold window_base.
  destruct (_ =? _).
  - now rewrite H1, H2, H3, Ht, Hh.
  - now rewrite P1, P2, P3, Pt, Ph, H1, H2, H3, Ht, Hh.
Qed.

Lemma within_window_run es : forall st,
  locked st = true ->
  is_uchar (sample_window_pos st) -> is_ulong (pps_count st) ->
  is_uint (timer_hibits st) ->
  forallb no_gps es = true ->
  edges es < sample_window_pos st ->
  let st' := run es st in
  locked st' = true /\
  sample_window_pos st' = sample_window_pos st - edges es /\
  pps_count st' = to_ulong (pps_count st + edges es) /\
  timer_hibits st' = to_uint (timer_hibits st + overflows es) /\
  window_base st' = window_base st.
Proof.
  induction es as [| e es IH]; intros st Hl Hp Hc Hh Hn He.
  - simpl. rewrite Z.add_0_r, Z.sub_0_r, Z.add_0_r.
    rewrite to_ulong_id, to_uint_id by assumption. repeat split; assumption.
  - simpl in Hn. apply andb_prop in Hn. destruct Hn as [Hn1 Hn2].
    assert (He0 := edges_nonneg es).
    destruct e as [| c | v |]; try discriminate; cbn [run fold_left step].
    + (* overflow *)
      change (fold_left (fun s e => step e s) es (TIMER1_OVF st))
        with (run es (TIMER1_OVF st)).
      simpl in He.
      destruct (IH (TIMER1_OVF st)) as (I1 & I2 & I3 & I4 & I5);
        try assumption; try (unfold TIMER1_OVF; fields; assumption).
      { unfold TIMER1_OVF. fields. apply to_uint_is_uint. }
      cbv zeta. rewrite I1, I2, I3, I4, I5. unfold TIMER1_OVF. fields.
      cbn [overflows]. rewrite to_uint_add_l.
      repeat split. f_equal. lia.
    + (* a PPS edge before the last of the window *)
      change (fold_left (fun s e => step e s) es (TIMER1_CAPT c st))
        with (run es (TIMER1_CAPT c st)).
      cbn [edges] in He.
      assert (Hne : sample_window_pos st <> 1) by lia.
      rewrite (capture_within_window c st Hl Hp Hne).
      set (st1 := set_sample_window_pos _ _).
      assert (Hpos : sample_window_pos st1 = sample_window_pos st - 1).
      { subst st1. fields. apply to_uchar_id. unfold is_uchar in *. lia. }
      destruct (IH st1) as (I1 & I2 & I3 & I4 & I5).
      * subst st1. unfold locked in *. fields. exact Hl.
      * rewrite Hpos. unfold is_uchar in *. lia.
      * subst st1. fields. apply to_ulong_is_ulong.
      * subst st1. fields. exact Hh.
      * exact Hn2.
      * rewrite Hpos. lia.
      * cbv zeta. rewrite I1, I2, I3, I4, I5, Hpos. cbn [edges overflows].
        subst st1. unfold window_base. fields. rewrite to_ulong_add_l.
        repeat split; try lia. f_equal. lia.
    + (* a pass of the main loop *)
      change (fold_left (fun s e => step e s) es (main_loop st))
        with (run es (main_loop st)).
      destruct (main_loop_sampler st) as [Ms Mk].
      apply sampler_fields in Ms. destruct Ms as (M1 & _ & _ & _ & M5).
      destruct (main_loop_window_base st) as [Mb Mh].
      cbn [edges] in He.
      destruct (IH (main_loop st)) as (I1 & I2 & I3 & I4 & I5);
        rewrite ?Mk, ?M1, ?M5, ?Mh; try assumption.
      cbv zeta. cbn [edges overflows].
      rewrite I1, I2, I3, I4, I5, M1, M5, Mh, Mb. repeat split.
Qed.

(** X1. In every state the firmware can reach from reset, each global holds
    a value of its C type; the window position is between 1 and
    [SAMPLE_SECONDS]; the lock grade is between 0 and 3, and it is above 0
    only with a fix and a full sample buffer; without a fix the sampler is
    disarmed ([valid_samples = -1], a full window ahead) and the
    integrator and the lock grade are zero. *)
Theorem reachable_invariant (st : State) :
  reachable st ->
  typed st /\
  1 <= sample_window_pos st <= SAMPLE_SECONDS /\
  0 <= lock st <= 3 /\
  (lock st <> 0 -> valid_samples st = SAMPLE_COUNT /\ locked st = true) /\
  (locked st = false ->
   valid_samples st = -1 /\ sample_window_pos st = SAMPLE_SECONDS /\
   total_error st = 0 /\ lock st = 0).
Proof.
  intros Hr. split; [now apply reachable_typed |].
  destruct (reachable_graded st Hr) as (Hp & Hl & Hg).
  split; [exact Hp |]. split; [exact Hl |]. split; [exact Hg |].
  intros Hu. exact (unlocked_is_reset st Hr Hu).
Qed.

Lemma reachable_invariant_witness :
  let st := run [Gps true; Capture (mkCapture 0x1234 false 500); Loop; Overflow]
                (boot 1 0xffff 0x8000) in
  1 <= sample_window_pos st <= SAMPLE_SECONDS /\ 0 <= lock st <= 3 /\
  is_ulong (pps_count st) /\ is_uint (timer_hibits st).
Proof.
  intros st.
  assert (Hr : reachable st).
  { apply reachable_run; [apply reach_boot |]; by_computation. }
  destruct (reachable_invariant st Hr) as (Ht & Hp & Hl & _).
  split; [exact Hp |]. split; [exact Hl |].
  destruct Ht as (_ & _ & _ & Hh & Hc & _).
  split; [exact Hc | exact Hh].
Defined.

(** X2. A sample window spans all of its PPS edges.  While the fix holds,
    the edges before the last one of a window only count down the window
    position and count up [pps_count]: whatever overflows and passes of
    the main loop come in between, the sample count, the buffer, its fill
    and the tick of the previous window edge stay as they are.  So the
    edge that closes the window measures its delta from the tick of the
    edge that closed the previous one, with the overflows counted since. *)
Theorem window_spans_its_edges (es : list event) (c : capture) (st : State) :
  locked st = true ->
  is_uchar (sample_window_pos st) -> is_ulong (pps_count st) ->
  is_uint (timer_hibits st) ->
  forallb no_gps es = true ->
  edges es < sample_window_pos st ->
  let st' := run es st in
  let tick :=
    capture_timer_val (to_uint (timer_hibits st + overflows es))
      (ICR1 c) (TOV1 c) in
  sample_window_pos st' = sample_window_pos st - edges es /\
  pps_count st' = to_ulong (pps_count st + edges es) /\
  window_base st' = window_base st /\
  (edges es = sample_window_pos st - 1 ->
   closing_delta c st' = window_delta tick (last_timer_val st) /\
   sample_window_pos (TIMER1_CAPT c st') = SAMPLE_SECONDS /\
   last_timer_val (TIMER1_CAPT c st') = tick /\
   pps_count (TIMER1_CAPT c st')
   = to_ulong (pps_count st + sample_window_pos st)).
Proof.
  intros Hl Hp Hc Hh Hn He st' tick.
  destruct (within_window_run es st Hl Hp Hc Hh Hn He)
    as (I1 & I2 & I3 & I4 & I5).
  fold st' in I1, I2, I3, I4, I5.
  split; [exact I2 |]. split; [exact I3 |]. split; [exact I5 |].
  intros Hlast.
  assert (Hone : sample_window_pos st' = 1) by lia.
  assert (Hb : last_timer_val st' = last_timer_val st).
  { exact (f_equal snd I5). }
  split; [| split; [| split]].
  - unfold closing_delta. now rewrite I4, Hb.
  - rewrite (capture_closes c st' I1 Hone).
    destruct (rejects c st'); fields;
      rewrite ?store_sample_window_pos; reflexivity.
  - rewrite capture_stores_tick by (right; exact Hone). now rewrite I4.
  - assert (Hu : is_uchar (sample_window_pos st')).
    { rewrite Hone. unfold is_uchar. lia. }
    destruct (capture_locked c st' I1 Hu) as (Hpps & _).
    cbv zeta in Hpps. rewrite Hpps, I3, to_ulong_add_l. f_equal. lia.
Qed.

Lemma window_spans_its_edges_witness :
  let es := window_body 3815 512 in
  let c := mkCapture 6069 false 512 in
  sample_window_pos (run es window_closed_state) = 1 /\
  window_base (run es window_closed_state) = window_base window_closed_state /\
  closing_delta c (run es window_closed_state) = 5 /\
  pps_count (TIMER1_CAPT c (run es window_closed_state)) = 75.
Proof.
  intros es c.
  assert (Hl : locked window_closed_state = true) by reflexivity.
  assert (Hp : is_uchar (sample_window_pos window_closed_state)) by by_computation.
  assert (Hc : is_ulong (pps_count window_closed_state)) by by_computation.
  assert (Hh : is_uint (timer_hibits window_closed_state)) by by_computation.
  assert (Hn : forallb no_gps es = true) by (vm_compute; reflexivity).
  assert (He : edges es < sample_window_pos window_closed_state)
    by (vm_compute; reflexivity).
  destruct (window_spans_its_edges es c window_closed_state Hl Hp Hc Hh Hn He)
    as (H1 & _ & H3 & H4).
  destruct H4 as (D & _ & _ & P); [vm_compute; reflexivity |].
  split; [rewrite H1; vm_compute; reflexivity |]. split; [exact H3 |].
  split; [rewrite D | rewrite P]; vm_compute; reflexivity.
Defined.

(** ** Passes of the main loop that find a closed window *)

Lemma main_loop_closes st :
  sample_pending st ->
  main_loop st
  = if valid_samples st <=? 0 then measured (housekeeping st)
    else discipline (window_drift st) (window_phase_error st)
           (measured (housekeeping st)).
Proof.
  intros (Hp & He & Hs).
  rewrite main_loop_unfold.
  destruct (Z.eqb_spec (last_pps_count st) (pps_count st)); [contradiction |].
  destruct (housekeeping_frame st)
    as (A1 & A2 & A3 & _ & A5 & A6 & A7 & A8 & _). cbv zeta in *.
  destruct (window_views_ext (housekeeping st) st A1 A2 A8) as (V1 & V2 & V3 & V4).
  apply sampler_fields in A1. destruct A1 as (_ & Hsc & _ & Hvs & _).
  rewrite pps_update_closes by congruence.
  now rewrite Hvs, V3, V4.
Qed.

Lemma measured_housekeeping st :
  let ms := measured (housekeeping st) in
  sampler ms = sampler st /\
  total_error ms = total_error st /\
  tuning ms = tuning st /\
  phase_error_sum ms = 0 /\ phase_error_count ms = 0 /\
  lock ms = lock_grade (valid_samples st) (window_drift st) /\
  last_pps_count ms = pps_count st /\
  last_sample_count ms = sample_count st /\
  erroneous_delta ms = erroneous_delta st.
Proof.
  destruct (housekeeping_frame st)
    as (A1 & A2 & A3 & _ & A5 & A6 & A7 & A8 & _). cbv zeta in *.
  destruct (window_views_ext (housekeeping st) st A1 A2 A8) as (V1 & V2 & V3 & V4).
  destruct (measured_frame (housekeeping st)) as (M1 & M2 & M3 & M4 & M5 & _).
  cbv zeta in *.
  assert (A1' := A1). apply sampler_fields in A1'.
  destruct A1' as (Hpc & Hsc & _ & Hvs & _).
  split; [congruence |]. split.
  { rewrite M3. unfold accumulators in A2. now injection A2. }
  split; [congruence |]. split; [exact M1 |]. split; [exact M2 |].
  unfold measured. fields. rewrite Hvs, V3, Hpc, Hsc, A7. repeat split.
Qed.

Lemma discipline_bookkeeping sample_drift phase_error st :
  let st' := discipline sample_drift phase_error st in
  lock st' = lock st /\
  last_pps_count st' = last_pps_count st /\
  last_sample_count st' = last_sample_count st /\
  erroneous_delta st' = erroneous_delta st /\
  dac_frames st'
  = (if trim_value (trim_percent st') =? last_dac_value st then dac_frames st
     else dac_frames st ++ [dac_frame (trim_value (trim_percent st'))]) /\
  dac_reg st'
  = (if trim_value (trim_percent st') =? last_dac_value st then dac_reg st
     else dac_latch (dac_frame (trim_value (trim_percent st')))).
Proof.
  open_state st. branches; cbv beta iota zeta; repeat split; congruence.
Qed.

Lemma window_exact st :
  fill_ok st ->
  window_drift st = Spec.sum (valid_entries st) /\
  window_drift st = Spec.sample_drift (valid_entries st) /\
  current_error (window_drift st) (window_phase_error st)
  = Spec.current_error (Spec.sample_drift (valid_entries st))
      (window_phase_error st).
Proof.
  intros Hfill.
  destruct (window_sum_exact st Hfill) as [Esum Bsum].
  destruct (scale_drift_exact (window_sum st) Bsum) as [Edrift Edrift'].
  assert (Hd : window_drift st = Spec.sample_drift (valid_entries st)).
  { unfold window_drift, Spec.sample_drift. now rewrite Edrift, Esum. }
  split; [unfold window_drift; now rewrite Edrift', Esum |].
  split; [exact Hd |].
  rewrite <- Hd. apply current_error_exact.
  - unfold window_drift. now rewrite Edrift'.
  - unfold window_phase_error, sample_phase_error. apply to_int_is_int.
Qed.

Lemma capture_skips c st :
  locked st = true -> sample_window_pos st = 1 -> valid_samples st = -1 ->
  let st' := TIMER1_CAPT c st in
  valid_samples st' = 0 /\ sample_buffer st' = sample_buffer st /\
  sample_count st' = to_ulong (sample_count st + 1) /\
  pps_count st' = to_ulong (pps_count st + 1) /\
  erroneous_delta st' = erroneous_delta st.
Proof.
  intros Hl Hp Hv. cbv zeta. rewrite (capture_closes c st Hl Hp).
  unfold rejects. rewrite Hv, andb_false_r.
  unfold store_sample, window_edge. fields. rewrite Hv. fields.
  repeat split.
Qed.

(** X3. The first window that closes after the fix was acquired is thrown
    away, whatever its delta: the capture interrupt only turns the skip
    marker [valid_samples = -1] into an empty buffer, and the pass of the
    main loop that finds this window restarts the phase accumulation and
    leaves the integrator, the trim, the DAC and the EEPROM alone. *)
Theorem first_window_is_discarded (c : capture) (st : State) :
  locked st = true -> sample_window_pos st = 1 -> valid_samples st = -1 ->
  caught_up st -> erroneous_delta st = 0 ->
  is_ulong (pps_count st) -> is_ulong (sample_count st) ->
  let st' := main_loop (TIMER1_CAPT c st) in
  valid_samples st' = 0 /\ sample_buffer st' = sample_buffer st /\
  sample_count st' = to_ulong (sample_count st + 1) /\
  erroneous_delta st' = 0 /\
  tuning st' = tuning st /\ total_error st' = total_error st /\
  lock st' = 0 /\
  phase_error_sum st' = 0 /\ phase_error_count st' = 0 /\
  caught_up st'.
Proof.
  intros Hl Hp Hv [Hc1 Hc2] He Hu1 Hu2 st'.
  destruct (capture_skips c st Hl Hp Hv) as (S1 & S2 & S3 & S4 & S5).
  destruct (capture_frame c st) as (F1 & F2 & F3 & F4 & _).
  set (s1 := TIMER1_CAPT c st) in *. cbv zeta in *.
  assert (Hpend : sample_pending s1).
  { unfold sample_pending. rewrite F3, F4, S3, S4, S5, Hc1, Hc2.
    split; [| split; [exact He |]]; intros E; symmetry in E;
      revert E; now apply to_ulong_succ_neq. }
  subst st'. rewrite (main_loop_closes s1 Hpend), S1.
  change (0 <=? 0) with true. cbv iota.
  destruct (measured_housekeeping s1)
    as (M1 & M2 & M3 & M4 & M5 & M6 & M7 & M8 & M9). cbv zeta in *.
  assert (M1' := M1). apply sampler_fields in M1'.
  destruct M1' as (Q1 & Q2 & Q3 & Q4 & _).
  unfold caught_up. rewrite ?Q1, ?Q2, ?Q3, ?Q4, M2, M3, M4, M5, M6, M7, M8, M9.
  rewrite ?S1, ?S2, ?S3, ?S5, ?He, ?F2.
  unfold accumulators in F1. injection F1 as _ _ F1. rewrite F1.
  repeat split.
Qed.

Lemma first_window_is_discarded_witness :
  let st' := main_loop (TIMER1_CAPT (edge_late 3000 500) armed_state) in
  valid_samples st' = 0 /\ tuning st' = tuning armed_state /\
  total_error st' = 0 /\ lock st' = 0.
Proof.
  intros st'.
  assert (Hc : caught_up armed_state) by by_computation.
  assert (H1 : is_ulong (pps_count armed_state)) by by_computation.
  assert (H2 : is_ulong (sample_count armed_state)) by by_computation.
  destruct (first_window_is_discarded (edge_late 3000 500) armed_state
              eq_refl eq_refl eq_refl Hc eq_refl H1 H2)
    as (A & _ & _ & _ & B & C & D & _).
  split; [exact A |]. split; [exact B |]. split; [exact C | exact D].
Defined.



(** ** The LEDs *)

Lemma testbit_on p k n :
  0 <= k -> Z.testbit (Z.lor p (2 ^ k)) n = Z.testbit p n || (k =? n).
Proof.
  intros Hk. destruct (Z.neg_nonneg_cases n) as [Hn | Hn].
  - rewrite !Z.testbit_neg_r by assumption.
    destruct (Z.eqb_spec k n); [lia | reflexivity].
  - now rewrite Z.lor_spec, Z.pow2_bits_eqb.
Qed.

Lemma testbit_off p k n :
  0 <= k -> Z.testbit (Z.ldiff p (2 ^ k)) n = Z.testbit p n && negb (k =? n).
Proof.
  intros Hk. destruct (Z.neg_nonneg_cases n) as [Hn | Hn].
  - now rewrite !Z.testbit_neg_r by assumption.
  - now rewrite Z.ldiff_spec, Z.pow2_bits_eqb.
Qed.

Lemma land_bit x k :
  0 <= k -> (Z.land x (2 ^ k) =? 0) = negb (Z.testbit x k).
Proof.
  intros Hk.
  assert (E : Z.land x (2 ^ k) = if Z.testbit x k then 2 ^ k else 0).
  { apply Z.bits_inj'. intros n Hn.
    rewrite Z.land_spec, Z.pow2_bits_eqb by assumption.
    destruct (Z.eqb_spec k n) as [-> | Hne].
    - destruct (Z.testbit x n); [| now rewrite Z.bits_0].
      now rewrite Z.pow2_bits_eqb, Z.eqb_refl.
    - rewrite andb_false_r.
      destruct (Z.testbit x k); [| now rewrite Z.bits_0].
      rewrite Z.pow2_bits_eqb by assumption.
      symmetry. now apply Z.eqb_neq. }
  rewrite E. destruct (Z.testbit x k); [| reflexivity].
  apply Z.eqb_neq. assert (0 < 2 ^ k) by (apply Z.pow_pos_nonneg; lia). lia.
Qed.

Lemma pps_update_led st : led_port (pps_update st) = led_port st.
Proof. open_state st. branches; reflexivity. Qed.

Lemma housekeeping_led st : led_port (housekeeping st) = led_port (update_leds st).
Proof.
  unfold housekeeping, log_status.
  destruct (Z.land (gps_status st) 2 =? 0); [| reflexivity].
  unfold update_leds. fields. rewrite land_lor_2_1. branches; reflexivity.
Qed.

Ltac led_bits :=
  repeat first [rewrite testbit_on by lia | rewrite testbit_off by lia].

Lemma main_loop_led st : led_port (main_loop st) = led_port (update_leds st).
Proof.
  rewrite main_loop_unfold. destruct (_ =? _).
  - apply housekeeping_led.
  - rewrite pps_update_led. apply housekeeping_led.
Qed.

Lemma blink_phase hibits :
  is_uint hibits ->
  to_uint (Z.quot (to_uint (4 * to_uint (Z.rem hibits (Z.quot NOMINAL_CLOCK 65536))))
             (Z.quot NOMINAL_CLOCK 65536))
  = (hibits mod 152) / 38 /\
  0 <= (hibits mod 152) / 38 <= 3.
Proof.
  intros Hh. change (Z.quot NOMINAL_CLOCK 65536) with 152.
  unfold is_uint in Hh.
  rewrite Z.rem_mod_nonneg by lia.
  assert (Hm : 0 <= hibits mod 152 < 152) by (apply Z.mod_pos_bound; lia).
  rewrite (to_uint_id (hibits mod 152)) by (unfold is_uint; lia).
  rewrite (to_uint_id (4 * _)) by (unfold is_uint; lia).
  rewrite Z.quot_div_nonneg by lia.
  change 152 with (4 * 38) at 2. rewrite Z.div_mul_cancel_l by lia.
  assert (Hq : 0 <= hibits mod 152 / 38 <= 3).
  { split; [apply Z.div_pos; lia |].
    apply Z.lt_succ_r. apply Z.div_lt_upper_bound; lia. }
  split; [| exact Hq]. apply to_uint_id. unfold is_uint. lia.
Qed.

Lemma land_1_odd x : (Z.land x 1 =? 0) = negb (Z.odd x).
Proof. rewrite <- Z.bit0_odd. exact (land_bit x 0 ltac:(lia)). Qed.

(** X5. What the two LEDs show after a pass of the main loop.  Only bits 1
    and 2 of PORTB change.  With a fix, LED0 and LED1 are bits 0 and 1 of
    the lock grade the pass started with.  Without a fix, exactly one LED
    is on, and which one alternates with the phase of the overflow count:
    a cycle is 152 overflows (about one second) in four quarters of 38,
    and LED0 is on in the odd quarters, LED1 in the even ones. *)
Theorem leds_show_lock_or_blink (st : State) :
  is_uint (timer_hibits st) ->
  let port := led_port (main_loop st) in
  (forall n, n <> 1 -> n <> 2 ->
             Z.testbit port n = Z.testbit (led_port st) n) /\
  (locked st = true ->
   Z.testbit port 1 = Z.testbit (lock st) 0 /\
   Z.testbit port 2 = Z.testbit (lock st) 1) /\
  (locked st = false ->
   let quarter := (timer_hibits st mod 152) / 38 in
   0 <= quarter <= 3 /\
   Z.testbit port 1 = Z.odd quarter /\
   Z.testbit port 2 = negb (Z.odd quarter)).
Proof.
  intros Hh port. subst port. rewrite main_loop_led.
  destruct (blink_phase (timer_hibits st) Hh) as [Eb Hb].
  assert (E2 : (Z.land (lock st) 2 =? 0) = negb (Z.testbit (lock st) 1))
    by exact (land_bit (lock st) 1 ltac:(lia)).
  unfold update_leds, locked. rewrite Eb. fields.
  rewrite !land_1_odd, E2.
  change LED0 with (2 ^ 1). change LED1 with (2 ^ 2).
  rewrite <- (Z.bit0_odd (lock st)).
  split; [| split].
  - intros n H1 H2.
    destruct (Z.odd (gps_status st)), (Z.odd _), (Z.testbit (lock st) 0),
      (Z.testbit (lock st) 1); cbn [negb]; fields; led_bits;
      (destruct (Z.eqb_spec 1 n); [lia |]);
      (destruct (Z.eqb_spec 2 n); [lia |]);
      cbn [negb]; rewrite ?orb_false_r, ?andb_true_r; reflexivity.
  - intros Hl. rewrite negb_involutive in Hl. rewrite Hl. cbn [negb].
    destruct (Z.testbit (lock st) 0), (Z.testbit (lock st) 1); cbn [negb];
      fields; led_bits; cbn;
      rewrite ?orb_true_r, ?andb_false_r, ?orb_false_r, ?andb_true_r;
      split; reflexivity.
  - intros Hl. rewrite negb_involutive in Hl. rewrite Hl. cbn [negb].
    split; [exact Hb |].
    destruct (Z.odd (timer_hibits st mod 152 / 38)); cbn [negb];
      fields; led_bits; cbn;
      rewrite ?orb_true_r, ?andb_false_r, ?orb_false_r, ?andb_true_r;
      split; reflexivity.
Qed.

Lemma leds_show_lock_or_blink_witness :
  let unlocked := set_timer_hibits 40 (boot 1 0xffff 0x8000) in
  let graded2 := set_lock 2 closing_state in
  Z.testbit (led_port (main_loop unlocked)) 1 = true /\
  Z.testbit (led_port (main_loop unlocked)) 2 = false /\
  Z.testbit (led_port (main_loop graded2)) 1 = false /\
  Z.testbit (led_port (main_loop graded2)) 2 = true.
Proof.
  intros unlocked graded2.
  assert (H1 : is_uint (timer_hibits unlocked)) by by_computation.
  assert (H2 : is_uint (timer_hibits graded2)) by by_computation.
  destruct (leds_show_lock_or_blink unlocked H1) as (_ & _ & A).
  destruct (A eq_refl) as (_ & A1 & A2).
  destruct (leds_show_lock_or_blink graded2 H2) as (_ & B & _).
  destruct (B eq_refl) as (B1 & B2).
  split; [exact A1 |]. split; [exact A2 |]. split; [exact B1 | exact B2].
Defined.

(** ** The EEPROM *)

Lemma pps_update_eeprom st :
  eeprom_trim (pps_update st) = eeprom_trim st \/
  (erroneous_delta st = 0 /\ last_sample_count st <> sample_count st /\
   0 < valid_samples st /\
   eeprom_trim (pps_update st) = last_dac_value (pps_update st) /\
   eeprom_trim (pps_update st) = trim_value (trim_percent (pps_update st)) /\
   exists l, tx_log (pps_update st) = l ++ [Tx_EEUP]).
Proof.
  open_state st.
  match goal with
  | |- context [negb (?a =? 0)] => destruct (Z.eqb_spec a 0) as [He | He]
  end; cbn [negb]; [| now left].
  match goal with
  | |- context [if ?a =? ?b then _ else _] =>
      destruct (Z.eqb_spec a b) as [Hs | Hs]
  end; [now left |].
  match goal with
  | |- context [if ?a <=? 0 then _ else _] =>
      destruct (Z.leb_spec a 0) as [Hv | Hv]
  end; [now left |].
  match goal with
  | |- context [if ?b && ?c then _ else _] => destruct (b && c)
  end; [right | now destruct (_ =? _); left].
  split; [exact He |]. split; [exact Hs |]. split; [exact Hv |].
  match goal with
  | |- context [if ?a =? ?b then _ else _] =>
      destruct (Z.eqb_spec a b) as [E | E]
  end; cbv beta iota zeta.
  - split; [exact E |]. split; [reflexivity |].
    eexists. rewrite !app_assoc. reflexivity.
  - split; [reflexivity |]. split; [reflexivity |].
    eexists. rewrite !app_assoc. reflexivity.
Qed.

(** X6. Who writes the EEPROM, and what.  No interrupt writes it.  A pass
    of the main loop writes it only when it found a closed window with at
    least one sample and ran the PI update; the word it stores is the one
    it has just handed to the DAC driver, and the write is logged as
    [EEUP], the last message of the pass. *)
Theorem eeprom_holds_a_dac_word (e : event) (st : State) :
  let st' := step e st in
  eeprom_trim st' = eeprom_trim st \/
  (e = Loop /\ sample_pending st /\ 0 < valid_samples st /\
   eeprom_trim st' = last_dac_value st' /\
   eeprom_trim st' = trim_value (trim_percent st') /\
   exists l, tx_log st' = l ++ [Tx_EEUP]).
Proof.
  destruct e as [| c | v |]; cbn [step]; cbv zeta.
  - left. reflexivity.
  - left. destruct (capture_frame c st) as (_ & Ht & _).
    exact (f_equal snd Ht).
  - left. unfold handleGPS. fields. branches; reflexivity.
  - rewrite main_loop_unfold.
    destruct (housekeeping_frame st)
      as (A1 & _ & A3 & _ & A5 & A6 & A7 & _). cbv zeta in *.
    assert (Ee : eeprom_trim (housekeeping st) = eeprom_trim st)
      by exact (f_equal snd A3).
    apply sampler_fields in A1. destruct A1 as (Q1 & Q2 & _ & Q4 & _).
    destruct (Z.eqb_spec (last_pps_count st) (pps_count st)) as [Hp | Hp];
      [now left |].
    destruct (pps_update_eeprom (housekeeping st))
      as [E | (P1 & P2 & P3 & P4 & P5 & P6)].
    + left. congruence.
    + right. split; [reflexivity |].
      split; [unfold sample_pending; repeat split; congruence |].
      split; [congruence |]. split; [exact P4 |]. split; [exact P5 | exact P6].
Qed.

(** ** Sign and rest of the correction *)

Lemma tuning_fields st1 st2 :
  tuning st1 = tuning st2 ->
  trim_percent st1 = trim_percent st2 /\
  last_dac_value st1 = last_dac_value st2 /\
  dac_reg st1 = dac_reg st2 /\ dac_frames st1 = dac_frames st2 /\
  eeprom_trim st1 = eeprom_trim st2.
Proof. unfold tuning. intros H. injection H. intros. repeat split; assumption. Qed.

Lemma main_loop_exact st :
  sample_pending st -> fill_ok st -> 0 < valid_samples st ->
  let current :=
    Spec.current_error (Spec.sample_drift (valid_entries st))
      (window_phase_error st) in
  Spec.fits current (total_error st) (trim_percent st) ->
  let st' := main_loop st in
  total_error st' = total_error st + current /\
  trim_percent st'
  = trim_percent st - Spec.adj current (total_error st + current) /\
  last_dac_value st' = trim_value (trim_percent st') /\
  dac_frames st'
  = (if trim_value (trim_percent st') =? last_dac_value st then dac_frames st
     else dac_frames st ++ [dac_frame (trim_value (trim_percent st'))]) /\
  dac_reg st'
  = (if trim_value (trim_percent st') =? last_dac_value st then dac_reg st
     else dac_latch (dac_frame (trim_value (trim_percent st')))).
Proof.
  intros Hpend Hfill Hv current Hfit st'.
  destruct (window_exact st Hfill) as (_ & _ & Hc). fold current in Hc.
  destruct (measured_housekeeping st) as (_ & M2 & M3 & _). cbv zeta in *.
  apply tuning_fields in M3. destruct M3 as (T1 & T2 & T3 & T4 & _).
  destruct (discipline_fields (window_drift st) (window_phase_error st)
              (measured (housekeeping st))) as (D1 & D2 & D3 & _).
  destruct (discipline_bookkeeping (window_drift st) (window_phase_error st)
              (measured (housekeeping st))) as (_ & _ & _ & _ & B5 & B6).
  cbv zeta in *.
  rewrite Hc, M2 in D1, D2, D3. rewrite T1 in D2, D3.
  rewrite T2, T4 in B5. rewrite T2, T3 in B6.
  destruct (discipline_exact current (total_error st) (trim_percent st) Hfit)
    as (X1 & X2 & X3). cbv zeta in *.
  rewrite X3 in D2, D3. rewrite X1 in D1.
  subst st'. rewrite (main_loop_closes st Hpend).
  destruct (Z.leb_spec (valid_samples st) 0); [lia |].
  split; [exact D1 |]. split; [exact D2 |].
  split; [now rewrite D3, D2 |]. split; [exact B5 | exact B6].
Qed.




Lemma quot_neg_10000 a : Z.quot (-1 * a) 10000 = - Z.quot a 10000.
Proof. replace (-1 * a) with (- a) by lia. apply Z.quot_opp_l. lia. Qed.

(** X8. The direction of the correction.  The trim moves by the quotient
    of [current * K_P + total * K_I] by 10000, rounded toward zero.  When
    the window shows the oscillator fast (a positive error) and the
    integrator, this error included, is not negative, the trim goes up by
    at least three times the error, and the DAC word does not go down:
    the DAC drives an inverting tuning input.  A negative error with an
    integrator that is not positive moves both the other way. *)
Theorem correction_opposes_error (st : State) :
  sample_pending st -> fill_ok st -> 0 < valid_samples st ->
  let current :=
    Spec.current_error (Spec.sample_drift (valid_entries st))
      (window_phase_error st) in
  let total := total_error st + current in
  Spec.fits current (total_error st) (trim_percent st) ->
  last_dac_value st = trim_value (trim_percent st) ->
  let st' := main_loop st in
  trim_percent st'
  = trim_percent st + Z.quot (current * K_P + total * K_I) 10000 /\
  (0 < current -> 0 <= total ->
   trim_percent st + 3 * current <= trim_percent st' /\
   (is_int (Z.quot (trim_percent st) 100) ->
    is_int (Z.quot (trim_percent st') 100) ->
    last_dac_value st <= last_dac_value st')) /\
  (current < 0 -> total <= 0 ->
   trim_percent st' <= trim_percent st + 3 * current /\
   (is_int (Z.quot (trim_percent st) 100) ->
    is_int (Z.quot (trim_percent st') 100) ->
    last_dac_value st' <= last_dac_value st)).
Proof.
  intros Hpend Hfill Hv current total Hfit Hd st'.
  destruct (main_loop_exact st Hpend Hfill Hv Hfit) as (E1 & E2 & E3 & _).
  cbv zeta in *. fold st' current total in E1, E2, E3.
  assert (Ea : Spec.adj current total
               = - Z.quot (current * K_P + total * K_I) 10000).
  { unfold Spec.adj, DAC_SIGN. apply quot_neg_10000. }
  rewrite Ea in E2.
  assert (Hw : forall p, is_int (Z.quot p 100) -> trim_value p = Z.quot p 100 + 32768).
  { intros p Hp. unfold trim_value. rewrite to_int_id by exact Hp.
    apply to_uint_id. unfold is_int, is_uint in *. lia. }
  split; [rewrite E2; lia |]. split.
  - intros Hc Ht.
    assert (Hq : 3 * current <= Z.quot (current * K_P + total * K_I) 10000).
    { unfold K_P, K_I. rewrite Z.quot_div_nonneg by lia.
      apply Z.div_le_lower_bound; lia. }
    split; [lia |]. intros H1 H2.
    rewrite E3, Hd, (Hw _ H1), (Hw _ H2).
    apply Z.add_le_mono_r. apply Z.quot_le_mono; lia.
  - intros Hc Ht.
    assert (Hq : Z.quot (current * K_P + total * K_I) 10000 <= 3 * current).
    { unfold K_P, K_I.
      replace (current * 31400 + total * 13)
        with (- (- current * 31400 + - total * 13)) by lia.
      rewrite Z.quot_opp_l by lia.
      rewrite Z.quot_div_nonneg by lia.
      assert (3 * - current <= (- current * 31400 + - total * 13) / 10000)
        by (apply Z.div_le_lower_bound; lia).
      lia. }
    split; [lia |]. intros H1 H2.
    rewrite E3, Hd, (Hw _ H1), (Hw _ H2).
    apply Z.add_le_mono_r. apply Z.quot_le_mono; lia.
Qed.

Lemma correction_opposes_error_witness :
  trim_percent (main_loop sampled_state) = -150 /\
  last_dac_value (main_loop sampled_state) <= last_dac_value sampled_state.
Proof.
  assert (Hp : sample_pending sampled_state) by by_computation.
  assert (Hv : 0 < valid_samples sampled_state) by reflexivity.
  assert (Hf : Spec.fits
                 (Spec.current_error
                    (Spec.sample_drift (valid_entries sampled_state))
                    (window_phase_error sampled_state))
                 (total_error sampled_state) (trim_percent sampled_state))
    by by_computation.
  assert (Hd : last_dac_value sampled_state
               = trim_value (trim_percent sampled_state)) by reflexivity.
  destruct (correction_opposes_error sampled_state Hp sampled_state_fill_ok
              Hv Hf Hd) as (A & _ & B).
  split; [rewrite A; reflexivity |].
  destruct B as (_ & B); [reflexivity | by_computation |].
  apply B; [by_computation |]. rewrite A. by_computation.
Defined.

(** ** The DAC and the trim *)

Lemma in_step_ext st1 st2 :
  tuning st1 = tuning st2 -> in_step st2 -> in_step st1.
Proof.
  intros H. apply tuning_fields in H. destruct H as (H1 & H2 & H3 & H4 & _).
  unfold in_step. now rewrite H1, H2, H3, H4.
Qed.

Lemma discipline_in_step sample_drift phase_error st :
  in_step st -> in_step (discipline sample_drift phase_error st).
Proof.
  intros [H1 H2].
  destruct (discipline_fields sample_drift phase_error st) as (_ & D2 & D3 & _).
  destruct (discipline_bookkeeping sample_drift phase_error st)
    as (_ & _ & _ & _ & B5 & B6).
  cbv zeta in *. rewrite <- D2 in D3.
  set (st' := discipline sample_drift phase_error st) in *.
  split; [exact D3 |]. intros Hn. rewrite B6.
  destruct (Z.eqb_spec (trim_value (trim_percent st')) (last_dac_value st))
    as [E | E].
  - rewrite B5 in Hn. rewrite (H2 Hn). congruence.
  - rewrite dac_latch_frame by apply trim_value_is_uint. now symmetry.
Qed.

Lemma pps_update_in_step st : in_step st -> in_step (pps_update st).
Proof.
  intros H.
  destruct (Z.eq_dec (erroneous_delta st) 0) as [He | He].
  - destruct (Z.eq_dec (last_sample_count st) (sample_count st)) as [Hs | Hs].
    + rewrite (pps_update_accumulates st He Hs).
      apply (in_step_ext _ st); [reflexivity | exact H].
    + rewrite (pps_update_closes st He Hs).
      assert (Hm : in_step (measured st)).
      { apply (in_step_ext _ st); [| exact H].
        now destruct (measured_frame st) as (_ & _ & _ & Ht & _). }
      destruct (_ <=? _); [exact Hm | now apply discipline_in_step].
  - rewrite (pps_update_outlier st He).
    apply (in_step_ext _ st); [reflexivity | exact H].
Qed.

Lemma boot_in_step mcusr_value ee dac :
  is_uint ee -> in_step (boot mcusr_value ee dac).
Proof.
  intros He.
  assert (Hv : is_uint (if ee =? 65535 then 32768 else ee)).
  { destruct (ee =? 65535); [unfold is_uint; lia | exact He]. }
  assert (Hl : to_long (((if ee =? 65535 then 32768 else ee) - 32768) * 100)
               = ((if ee =? 65535 then 32768 else ee) - 32768) * 100).
  { apply to_long_id. unfold is_uint, is_long in *. lia. }
  unfold in_step, boot, restore_trim, reset_state, writeDacValue. fields.
  destruct (Z.eqb_spec (if ee =? 65535 then 32768 else ee) 32768) as [E | E];
    fields; rewrite Hl, trim_value_of_word by exact Hv.
  - split; [symmetry; exact E | intros H; now contradiction H].
  - split; [reflexivity | intros _; now apply dac_latch_frame].
Qed.

(** X9. The DAC follows the trim.  In every state the firmware can reach,
    the word the driver remembers as written is the one line 688 derives
    from the present trim, and once the driver has clocked out a frame
    since reset, the DAC holds that word. *)
Theorem dac_follows_trim (st : State) :
  reachable st ->
  last_dac_value st = trim_value (trim_percent st) /\
  (dac_frames st <> [] -> dac_reg st = trim_value (trim_percent st)).
Proof.
  intros Hr.
  assert (H : in_step st).
  { induction Hr as [m ee dac Hm He Hd | e st Hr IH Hw].
    - now apply boot_in_step.
    - destruct e as [| c | v |]; cbn [step].
      + exact IH.
      + apply (in_step_ext _ st); [| exact IH].
        now destruct (capture_frame c st) as (_ & Ht & _).
      + apply (in_step_ext _ st); [| exact IH].
        unfold handleGPS. fields. branches; reflexivity.
      + rewrite main_loop_unfold.
        assert (Hh : in_step (housekeeping st)).
        { apply (in_step_ext _ st); [| exact IH].
          now destruct (housekeeping_frame st) as (_ & _ & Ht & _). }
        destruct (_ =? _); [exact Hh | now apply pps_update_in_step]. }
  destruct H as [H1 H2]. split; [exact H1 |].
  intros Hn. rewrite <- H1. now apply H2.
Qed.

Lemma dac_follows_trim_witness :
  let st := run [Gps true; Capture (mkCapture 0x1234 false 500); Loop]
                (boot 8 0x7f00 0x6000) in
  last_dac_value st = trim_value (trim_percent st) /\
  dac_reg st = trim_value (trim_percent st).
Proof.
  intros st.
  assert (Hr : reachable st).
  { apply reachable_run; [apply reach_boot |]; by_computation. }
  destruct (dac_follows_trim st Hr) as [A B].
  split; [exact A |]. apply B. by_computation.
Defined.

(** ** The tick counter across its wrap *)

(** X25. The delta of a window survives the wrap of the tick counter.
    The 32-bit tick count wraps about every 429 seconds, so now and then
    the edge that closes a window has a smaller tick than the edge that
    opened it.  As long as fewer than 2^32 ticks lie between the two
    edges, the unsigned difference of line 253 is the number of ticks
    that passed, and the delta is that number less the nominal
    250000000. *)
Theorem window_delta_across_wrap (opened closed : Z) :
  0 <= opened <= closed -> closed - opened < 2 ^ 32 ->
  window_delta (closed mod 2 ^ 32) (opened mod 2 ^ 32)
  = to_long (closed - opened - SAMPLE_SECONDS * NOMINAL_CLOCK) /\
  (Z.abs (closed - opened - SAMPLE_SECONDS * NOMINAL_CLOCK) < 2 ^ 31 ->
   window_delta (closed mod 2 ^ 32) (opened mod 2 ^ 32)
   = closed - opened - SAMPLE_SECONDS * NOMINAL_CLOCK).
Proof.
  intros Ho Hc.
  assert (E : to_ulong (closed mod 2 ^ 32 - opened mod 2 ^ 32) = closed - opened).
  { unfold to_ulong, to_unsigned.
    rewrite <- Zminus_mod. apply Z.mod_small. lia. }
  unfold window_delta. rewrite E. split; [reflexivity |].
  intros Ha. apply to_long_id. unfold is_long. lia.
Qed.

Lemma window_delta_across_wrap_witness :
  4395032709 mod 2 ^ 32 = 100065413 /\
  window_delta (4395032709 mod 2 ^ 32) (4145032704 mod 2 ^ 32) = 5.
Proof.
  destruct (window_delta_across_wrap 4145032704 4395032709
              ltac:(lia) ltac:(lia)) as [_ H].
  split; [reflexivity |]. apply H. by_computation.
Defined.

(** ** One pass for each edge *)

Lemma pps_update_catches_up st :
  last_pps_count (pps_update st) = pps_count (pps_update st).
Proof. open_state st. branches; reflexivity. Qed.

Lemma main_loop_catches_up st :
  last_pps_count (main_loop st) = pps_count (main_loop st).
Proof.
  rewrite main_loop_unfold.
  destruct (Z.eqb_spec (last_pps_count st) (pps_count st)) as [E | E].
  - destruct (housekeeping_frame st) as (Hs & _ & _ & _ & Hl & _).
    apply sampler_fields in Hs. destruct Hs as (Hp & _). cbv zeta in Hl.
    congruence.
  - apply pps_update_catches_up.
Qed.

Lemma idle_passes n : forall st,
  last_pps_count st = pps_count st ->
  let st' := Nat.iter n main_loop st in
  last_pps_count st' = pps_count st' /\
  sampler st' = sampler st /\ accumulators st' = accumulators st /\
  tuning st' = tuning st /\ erroneous_delta st' = erroneous_delta st /\
  last_sample_count st' = last_sample_count st.
Proof.
  induction n as [| n IH]; intros st Hc.
  - repeat split; assumption.
  - destruct (IH st Hc) as (I1 & I2 & I3 & I4 & I5 & I6). cbv zeta in *.
    change (Nat.iter (S n) main_loop st)
      with (main_loop (Nat.iter n main_loop st)).
    set (s1 := Nat.iter n main_loop st) in *.
    rewrite (main_loop_idle s1 I1).
    destruct (housekeeping_frame s1)
      as (A1 & A2 & A3 & _ & A5 & A6 & A7 & _). cbv zeta in *.
    assert (A1' := A1). apply sampler_fields in A1'. destruct A1' as (Q1 & _).
    split; [congruence |]. split; [congruence |]. split; [congruence |].
    split; [congruence |]. split; congruence.
Qed.

(** X26. One pass for each PPS edge.  A pass of the main loop leaves
    [last_pps_count] equal to [pps_count], so however many passes follow
    before the capture interrupt runs again, they only refresh the LEDs
    and the fix message: the phase accumulation, the integrator, the
    trim, the DAC and the EEPROM stay as the first pass left them.  No
    edge and no sample is accounted for twice. *)
Theorem edge_is_processed_once (n : nat) (st : State) :
  let st1 := main_loop st in
  let st' := Nat.iter n main_loop st1 in
  last_pps_count st1 = pps_count st1 /\
  sampler st' = sampler st /\
  accumulators st' = accumulators st1 /\
  tuning st' = tuning st1 /\
  erroneous_delta st' = erroneous_delta st1 /\
  last_sample_count st' = last_sample_count st1.
Proof.
  intros st1 st'.
  assert (Hc := main_loop_catches_up st). fold st1 in Hc.
  destruct (idle_passes n st1 Hc) as (_ & I2 & I3 & I4 & I5 & I6).
  cbv zeta in *. fold st' in I2, I3, I4, I5, I6.
  destruct (main_loop_sampler st) as [Hs _]. fold st1 in Hs.
  split; [exact Hc |]. split; [congruence |]. split; [exact I3 |].
  split; [exact I4 |]. split; [exact I5 | exact I6].
Qed.

(** ** The NMEA parser *)

Lemma lor_shiftl_4 hi lo :
  0 <= lo < 16 -> Z.lor (Z.shiftl hi 4) lo = hi * 16 + lo.
Proof.
  intros Hlo. rewrite Z.shiftl_mul_pow2 by lia. change (2 ^ 4) with 16.
  symmetry. apply Z.add_nocarry_lor.
  apply Z.bits_inj'. intros n Hn.
  rewrite Z.land_spec, Z.bits_0.
  destruct (Z.ltb_spec n 4).
  - replace 16 with (2 ^ 4) by reflexivity.
    rewrite Z.mul_pow2_bits_low by lia. reflexivity.
  - rewrite (Z.bits_above_log2 lo n), andb_false_r; try reflexivity.
    + lia.
    + destruct (Z.eq_dec lo 0) as [->|].
      * simpl. lia.
      * apply Z.log2_lt_pow2; try lia.
        apply Z.lt_le_trans with (2 ^ 4); [lia |].
        apply Z.pow_le_mono_r; lia.
Qed.

Lemma hexChar_range c : 0 <= hexChar c < 16.
Proof.
  unfold hexChar.
  change (ch "0") with 48. change (ch "9") with 57.
  change (ch "a") with 97. change (ch "f") with 102.
  change (ch "A") with 65. change (ch "F") with 70.
  destruct (Z.leb_spec 48 c), (Z.leb_spec c 57), (Z.leb_spec 97 c),
    (Z.leb_spec c 102), (Z.leb_spec 65 c), (Z.leb_spec c 70);
    cbn [andb]; try lia;
    rewrite to_uchar_id by (unfold is_uchar; lia); lia.
Qed.

(** X10. [hexChar] decodes one hexadecimal digit, in either case, to its
    value; every other byte decodes to 0, like the digit 0 itself.  The
    result is below 16, so the two digits of a checksum combine to
    [16 * high + low] with no bit lost in [unsigned char]. *)
Theorem hexChar_decodes :
  (forall c, 0 <= hexChar c < 16) /\
  (forall n, 0 <= n < 10 -> hexChar (ch "0" + n) = n) /\
  (forall n, 10 <= n < 16 ->
             hexChar (ch "a" + (n - 10)) = n /\ hexChar (ch "A" + (n - 10)) = n) /\
  (forall c, hexChar c <> 0 ->
             ch "1" <= c <= ch "9" \/ ch "a" <= c <= ch "f"
             \/ ch "A" <= c <= ch "F") /\
  (forall c1 c2,
      to_uchar (Z.lor (Z.shiftl (hexChar c1) 4) (hexChar c2))
      = 16 * hexChar c1 + hexChar c2).
Proof.
  assert (Hr := hexChar_range).
  split; [exact Hr |].
  split.
  { intros n Hn. unfold hexChar. change (ch "0") with 48. change (ch "9") with 57.
    destruct (Z.leb_spec 48 (48 + n)), (Z.leb_spec (48 + n) 57); try lia.
    cbn [andb]. rewrite to_uchar_id by (unfold is_uchar; lia). lia. }
  split.
  { intros n Hn. unfold hexChar.
    change (ch "0") with 48. change (ch "9") with 57.
    change (ch "a") with 97. change (ch "f") with 102.
    change (ch "A") with 65. change (ch "F") with 70.
    split.
    - destruct (Z.leb_spec 48 (97 + (n - 10))), (Z.leb_spec (97 + (n - 10)) 57),
        (Z.leb_spec 97 (97 + (n - 10))), (Z.leb_spec (97 + (n - 10)) 102);
        try lia.
      cbn [andb]. rewrite to_uchar_id by (unfold is_uchar; lia). lia.
    - destruct (Z.leb_spec 48 (65 + (n - 10))), (Z.leb_spec (65 + (n - 10)) 57),
        (Z.leb_spec 97 (65 + (n - 10))),
        (Z.leb_spec 65 (65 + (n - 10))), (Z.leb_spec (65 + (n - 10)) 70);
        try lia.
      cbn [andb]. rewrite to_uchar_id by (unfold is_uchar; lia). lia. }
  split.
  { intros c. unfold hexChar.
    change (ch "0") with 48. change (ch "9") with 57. change (ch "1") with 49.
    change (ch "a") with 97. change (ch "f") with 102.
    change (ch "A") with 65. change (ch "F") with 70.
    destruct (Z.leb_spec 48 c), (Z.leb_spec c 57), (Z.leb_spec 97 c),
      (Z.leb_spec c 102), (Z.leb_spec 65 c), (Z.leb_spec c 70);
      cbn [andb]; try lia;
      rewrite to_uchar_id by (unfold is_uchar; lia); lia. }
  intros c1 c2. assert (H1 := Hr c1). assert (H2 := Hr c2).
  rewrite lor_shiftl_4 by exact H2.
  rewrite to_uchar_id by (unfold is_uchar; lia). lia.
Qed.

Lemma hexChar_hex_digit n : 0 <= n < 16 -> hexChar (hex_digit n) = n.
Proof.
  intros Hn. unfold hex_digit, hexChar.
  change (ch "0") with 48. change (ch "9") with 57.
  change (ch "a") with 97. change (ch "f") with 102.
  change (ch "A") with 65. change (ch "F") with 70.
  destruct (Z.ltb_spec n 10).
  - destruct (Z.leb_spec 48 (48 + n)), (Z.leb_spec (48 + n) 57); try lia.
    cbn [andb]. rewrite to_uchar_id by (unfold is_uchar; lia). lia.
  - destruct (Z.leb_spec 48 (65 + (n - 10))), (Z.leb_spec (65 + (n - 10)) 57),
      (Z.leb_spec 97 (65 + (n - 10))),
      (Z.leb_spec 65 (65 + (n - 10))), (Z.leb_spec (65 + (n - 10)) 70);
      try lia.
    cbn [andb]. rewrite to_uchar_id by (unfold is_uchar; lia). lia.
Qed.

Lemma lxor_uchar a b : is_uchar a -> is_uchar b -> is_uchar (Z.lxor a b).
Proof.
  unfold is_uchar. intros Ha Hb.
  assert (H0 : 0 <= Z.lxor a b) by (apply Z.lxor_nonneg; lia).
  split; [exact H0 |].
  destruct (Z.eq_dec (Z.lxor a b) 0) as [-> | Hn]; [lia |].
  apply Z.log2_lt_pow2; [lia |].
  apply Z.le_lt_trans with (Z.max (Z.log2 a) (Z.log2 b));
    [apply Z.log2_lxor; lia |].
  assert (La : Z.log2 a < 8).
  { destruct (Z.eq_dec a 0) as [-> | ]; [simpl; lia |].
    apply Z.log2_lt_pow2; lia. }
  assert (Lb : Z.log2 b < 8).
  { destruct (Z.eq_dec b 0) as [-> | ]; [simpl; lia |].
    apply Z.log2_lt_pow2; lia. }
  lia.
Qed.

Lemma plain_spec c :
  plain c = true ->
  is_uchar c /\ c <> 0 /\ c <> ch "," /\ c <> ch "*" /\ c <> CR /\ c <> LF.
Proof.
  unfold plain, is_uchar. intros H.
  repeat (apply andb_prop in H; destruct H as [H ?]).
  repeat match goal with
         | H : negb _ = true |- _ => apply negb_true_iff, Z.eqb_neq in H
         | H : (_ <? _) = true |- _ => apply Z.ltb_lt in H
         end.
  repeat split; try assumption; lia.
Qed.

Lemma fold_lxor_uchar a x :
  Forall is_uchar a -> is_uchar x -> is_uchar (fold_left Z.lxor a x).
Proof.
  intros Ha. revert x. induction Ha as [| c a Hc Ha IH]; intros x Hx; simpl.
  - exact Hx.
  - apply IH. now apply lxor_uchar.
Qed.

(** The checksum loop runs over the payload and stops at the [*]. *)
Lemma checksum_loop_payload a b i x :
  Forall (fun c => is_uchar c /\ c <> ch "*") a ->
  is_uchar x -> 0 <= i -> i + Z.of_nat (length a) < 2 ^ 15 ->
  checksum_loop (a ++ ch "*" :: b) i x
  = (i + Z.of_nat (length a), fold_left Z.lxor a x).
Proof.
  intros Ha. revert i x.
  induction Ha as [| c a [Hc Hs] Ha IH]; intros i x Hx Hi Hl.
  - simpl. rewrite Z.add_0_r. reflexivity.
  - cbn [app checksum_loop fold_left length] in *.
    destruct (Z.eqb_spec c (ch "*")); [contradiction |].
    rewrite to_int_id by (unfold is_int; lia).
    rewrite to_uchar_id by (now apply lxor_uchar).
    rewrite IH; [f_equal; lia | now apply lxor_uchar | lia | lia].
Qed.

(** Without a [*], the loop runs to the end of the line. *)
Lemma checksum_loop_no_star a i x :
  Forall (fun c => c <> ch "*") a ->
  0 <= i -> i + Z.of_nat (length a) < 2 ^ 15 ->
  fst (checksum_loop a i x) = i + Z.of_nat (length a).
Proof.
  intros Ha. revert i x.
  induction Ha as [| c a Hc Ha IH]; intros i x Hi Hl.
  - simpl. lia.
  - cbn [checksum_loop length] in *.
    destruct (Z.eqb_spec c (ch "*")); [contradiction |].
    rewrite to_int_id by (unfold is_int; lia).
    rewrite IH by lia. lia.
Qed.

Lemma at_index_app a x b : at_index (a ++ x :: b) (Z.of_nat (length a)) = x.
Proof. unfold at_index. rewrite Nat2Z.id. apply nth_middle. Qed.

(** ** [strchr] and the field scan *)

Lemma strchr_field f c rest :
  Forall (fun b => b <> c /\ b <> 0) f ->
  strchr (f ++ c :: rest) c = Some (c :: rest).
Proof.
  induction 1 as [| b f [Hb H0] Hf IH]; cbn [app strchr].
  - now rewrite Z.eqb_refl.
  - destruct (Z.eqb_spec b c); [contradiction |].
    destruct (Z.eqb_spec b 0); [contradiction |]. exact IH.
Qed.

Lemma strchr_none f c rest :
  c <> 0 -> Forall (fun b => b <> c) f -> strchr (f ++ 0 :: rest) c = None.
Proof.
  intros Hc. induction 1 as [| b f Hb Hf IH]; cbn [app strchr].
  - destruct (Z.eqb_spec 0 c); [congruence | reflexivity].
  - destruct (Z.eqb_spec b c); [contradiction |].
    destruct (b =? 0); [reflexivity | exact IH].
Qed.

(** What [strchr] returns is part of the line it was given. *)
Lemma strchr_some s c p :
  c <> 0 -> strchr s c = Some p ->
  exists a b, s = a ++ c :: b /\ p = c :: b /\ Forall (fun x => x <> c) a.
Proof.
  intros Hc. induction s as [| x s IH]; cbn [strchr]; [discriminate |].
  destruct (Z.eqb_spec x c) as [-> | Hx].
  - intros [= <-]. exists [], s. repeat split. constructor.
  - destruct (x =? 0); [discriminate |]. intros H.
    destruct (IH H) as (a & b & -> & -> & Ha).
    exists (x :: a), b. repeat split. now constructor.
Qed.

Lemma plain_field f :
  forallb plain f = true ->
  Forall (fun b => b <> ch "," /\ b <> 0) f /\
  Forall (fun c => is_uchar c /\ c <> ch "*") f.
Proof.
  induction f as [| c f IH]; cbn [forallb]; [split; constructor |].
  intros H. apply andb_prop in H. destruct H as [Hc Hf].
  destruct (plain_spec c Hc) as (H1 & H2 & H3 & H4 & _).
  destruct (IH Hf) as [I1 I2]. split; constructor; auto.
Qed.

Lemma skip_fields fs : forall f g tail,
  forallb plain f = true ->
  Forall (fun f => forallb plain f = true) fs ->
  skip_commas (S (length fs))
    (f ++ concat (map (cons (ch ",")) (fs ++ [g])) ++ tail)
  = Some (g ++ tail).
Proof.
  induction fs as [| h fs IH]; intros f g tail Hf Hfs.
  - cbn [length app map concat skip_commas]. rewrite app_nil_r.
    cbn [app]. rewrite strchr_field by apply (plain_field f Hf). reflexivity.
  - cbn [length app map concat]. cbn [skip_commas].
    rewrite <- !app_assoc. cbn [app].
    rewrite strchr_field by apply (plain_field f Hf). cbn [tl].
    inversion Hfs as [| ? ? Hh Hfs']; subst.
    exact (IH h g tail Hh Hfs').
Qed.

Lemma payload_bytes fields :
  Forall (fun f => forallb plain f = true) fields ->
  Forall (fun c => is_uchar c /\ c <> ch "*") (gsa_payload fields).
Proof.
  intros H. unfold gsa_payload. apply Forall_app. split.
  - repeat (apply Forall_cons; split; [by_computation |]). apply Forall_nil_2.
  - induction H as [| f fs Hf Hfs IH]; cbn [map concat]; [constructor |].
    apply Forall_cons. split; [by_computation |].
    apply Forall_app. split; [apply (plain_field f Hf) | exact IH].
Qed.

Lemma nmea_checksum_uchar payload :
  Forall (fun c => is_uchar c /\ c <> ch "*") payload ->
  is_uchar (nmea_checksum payload).
Proof.
  intros H. apply fold_lxor_uchar; [| unfold is_uchar; lia].
  eapply Forall_impl; [exact H |]. now intros c [Hc _].
Qed.

(** The first part of [handleGPS] on a line with a correct checksum. *)
Lemma checksum_accepted payload rest :
  Forall (fun c => is_uchar c /\ c <> ch "*") payload ->
  (length (nmea_sentence payload) < 64)%nat ->
  let s := nmea_sentence payload in
  let str_len := Z.of_nat (length s) in
  let buf := s ++ 0 :: rest in
  let '(i, checksum) :=
    checksum_loop (drop 1 (take (Z.to_nat str_len) buf)) 1 0 in
  (to_uint (str_len - 3) <? to_uint i) = false /\
  to_uchar (Z.lor (Z.shiftl (hexChar (at_index buf (to_int (i + 1)))) 4)
                  (hexChar (at_index buf (to_int (i + 1) + 1))))
  = checksum.
Proof.
  intros Hp Hlen s str_len buf.
  assert (Hs : length s = (length payload + 4)%nat).
  { subst s. unfold nmea_sentence. cbn [length]. rewrite length_app. simpl. lia. }
  fold s in Hlen.
  assert (Ht : take (Z.to_nat str_len) buf = s).
  { subst str_len buf. rewrite Nat2Z.id. apply take_app_length. }
  rewrite Ht. subst s. unfold nmea_sentence at 1. cbn [skipn]. rewrite drop_0.
  rewrite checksum_loop_payload; [| exact Hp | unfold is_uchar; lia | lia | lia].
  fold (nmea_checksum payload).
  assert (Hc := nmea_checksum_uchar payload Hp). unfold is_uchar in Hc.
  set (cs := nmea_checksum payload) in *.
  split.
  - subst str_len. rewrite Hs.
    rewrite !to_uint_id by (unfold is_uint; lia).
    apply Z.ltb_ge. lia.
  - rewrite (to_int_id (1 + _ + 1)) by (unfold is_int; lia).
    assert (E1 : at_index buf (1 + Z.of_nat (length payload) + 1)
                 = hex_digit (cs / 16)).
    { subst buf. unfold nmea_sentence. fold cs.
      replace (1 + Z.of_nat (length payload) + 1)
        with (Z.of_nat (length (ch "$" :: payload ++ [ch "*"])))
        by (cbn [length]; rewrite length_app; simpl; lia).
      replace ((ch "$" :: payload ++ [ch "*"; hex_digit (cs / 16); hex_digit (cs mod 16)])
               ++ 0 :: rest)
        with ((ch "$" :: payload ++ [ch "*"])
              ++ hex_digit (cs / 16) :: hex_digit (cs mod 16) :: 0 :: rest)
        by (cbn [app]; rewrite <- !app_assoc; reflexivity).
      apply at_index_app. }
    assert (E2 : at_index buf (1 + Z.of_nat (length payload) + 1 + 1)
                 = hex_digit (cs mod 16)).
    { subst buf. unfold nmea_sentence. fold cs.
      replace (1 + Z.of_nat (length payload) + 1 + 1)
        with (Z.of_nat (length (ch "$" :: payload ++ [ch "*"; hex_digit (cs / 16)])))
        by (cbn [length]; rewrite length_app; simpl; lia).
      replace ((ch "$" :: payload ++ [ch "*"; hex_digit (cs / 16); hex_digit (cs mod 16)])
               ++ 0 :: rest)
        with ((ch "$" :: payload ++ [ch "*"; hex_digit (cs / 16)])
              ++ hex_digit (cs mod 16) :: 0 :: rest)
        by (cbn [app]; rewrite <- !app_assoc; reflexivity).
      apply at_index_app. }
    rewrite E1, E2.
    assert (H16 : 0 <= cs / 16 < 16).
    { split; [apply Z.div_pos; lia | apply Z.div_lt_upper_bound; lia]. }
    assert (Hm : 0 <= cs mod 16 < 16) by (apply Z.mod_pos_bound; lia).
    rewrite !hexChar_hex_digit by assumption.
    rewrite lor_shiftl_4 by exact Hm.
    rewrite to_uchar_id by (unfold is_uchar; lia).
    rewrite (Z.div_mod cs 16) at 3 by lia. lia.
Qed.

Lemma strncmp_gsa x :
  strncmp (ch "$" :: bytes "GPGSA" ++ x) (bytes "$GPGSA") 6 = 0.
Proof. reflexivity. Qed.

Lemma read_pdop_field f rest :
  forallb plain f = true -> (length f < 64)%nat ->
  read_pdop (f ++ ch "," :: rest) = Some (take 4 f).
Proof.
  intros Hf Hl. unfold read_pdop.
  rewrite strchr_field by apply (plain_field f Hf).
  rewrite length_app. cbn [length].
  replace (length f + S (length rest) - S (length rest))%nat with (length f) by lia.
  rewrite to_uchar_id by (unfold is_uchar; lia).
  f_equal. destruct (Z.ltb_spec 4 (Z.of_nat (length f))).
  - change (Z.to_nat 4) with 4%nat. apply take_app_le. lia.
  - rewrite Nat2Z.id. rewrite take_app_length.
    symmetry. apply take_ge. lia.
Qed.

Lemma fields_length_ge (l : list (list Z)) :
  (length l <= length (concat (map (cons (ch ",")) l)))%nat.
Proof.
  induction l as [| x l IH]; cbn [map concat length]; [lia |].
  rewrite length_app. cbn [length]. lia.
Qed.

Lemma field_length_lt (f : list Z) (l : list (list Z)) :
  In f l -> (length f < length (concat (map (cons (ch ",")) l)))%nat.
Proof.
  induction l as [| x l IH]; cbn [map concat length In]; [tauto |].
  rewrite length_app. cbn [length].
  intros [-> | H]; [lia |]. specialize (IH H). lia.
Qed.

Lemma nmea_sentence_length p : length (nmea_sentence p) = (length p + 4)%nat.
Proof. unfold nmea_sentence. cbn [length]. rewrite length_app. simpl. lia. Qed.

Lemma gsa_payload_length fields :
  length (gsa_payload fields)
  = (5 + length (concat (map (cons (ch ",")) fields)))%nat.
Proof. unfold gsa_payload. rewrite length_app. reflexivity. Qed.

Lemma parse_gsa
    (mode1 mode2 : list Z) (sats : list (list Z)) (pdop : list Z)
    (more : list (list Z)) (rest : list Z) :
  let fields := mode1 :: mode2 :: sats ++ pdop :: more in
  let s := nmea_sentence (gsa_payload fields) in
  length sats = 12%nat -> more <> [] ->
  Forall (fun f => forallb plain f = true) fields ->
  (length s < 64)%nat ->
  parse_sentence (s ++ 0 :: rest) (Z.of_nat (length s))
  = Some (match mode2 with c :: _ => c =? ch "3" | [] => false end,
          Some (take 4 pdop)).
Proof.
  intros fields s Hsats Hmore Hplain Hlen.
  assert (Hp := payload_bytes fields Hplain).
  assert (Hacc := checksum_accepted (gsa_payload fields) rest Hp Hlen).
  cbv zeta in Hacc. fold s in Hacc.
  set (h1 := hex_digit (nmea_checksum (gsa_payload fields) / 16)) in *.
  set (h2 := hex_digit (nmea_checksum (gsa_payload fields) mod 16)) in *.
  set (tail3 := ch "*" :: h1 :: h2 :: 0 :: rest).
  assert (Hbuf : s ++ 0 :: rest
                 = (ch "$" :: bytes "GPGSA")
                   ++ concat (map (cons (ch ",")) fields) ++ tail3).
  { subst s tail3 h1 h2. unfold nmea_sentence, gsa_payload.
    cbn [app]. rewrite <- !app_assoc. reflexivity. }
  assert (Hls : length s
                = (9 + length (concat (map (cons (ch ",")) fields)))%nat).
  { subst s. rewrite nmea_sentence_length, gsa_payload_length. lia. }
  assert (H9 : (9 <= length s)%nat) by lia.
  unfold parse_sentence.
  destruct (Z.ltb_spec (Z.of_nat (length s)) 9); [lia |].
  destruct (checksum_loop _ _ _) as [i cs].
  destruct Hacc as [A B]. rewrite A, B, Z.eqb_refl. cbn [negb].
  rewrite Hbuf.
  change ((ch "$" :: bytes "GPGSA") ++ ?x) with (ch "$" :: bytes "GPGSA" ++ x) at 1.
  rewrite strncmp_gsa. cbn [Z.eqb negb].
  (* the first two commas *)
  assert (Hf : fields = ([mode1] ++ [mode2]) ++ (sats ++ [pdop]) ++ more).
  { subst fields. cbn [app]. rewrite <- app_assoc. reflexivity. }
  inversion Hplain as [| ? ? Hm1 Hplain1]; subst.
  inversion Hplain1 as [| ? ? Hm2 Hplain2]; subst.
  apply Forall_app in Hplain2. destruct Hplain2 as [Hps Hplain3].
  inversion Hplain3 as [| ? ? Hpd Hpm]; subst.
  rewrite Hf, !map_app, !concat_app, <- !app_assoc.
  rewrite (app_assoc (concat (map (cons (ch ",")) [mode1]))).
  rewrite <- concat_app, <- map_app.
  change (skip_commas 2) with (skip_commas (S (length [mode1]))).
  rewrite skip_fields; [| reflexivity | now constructor].
  (* thirteen more *)
  rewrite (app_assoc (concat (map (cons (ch ",")) sats))).
  rewrite <- concat_app, <- map_app.
  replace (skip_commas 13) with (skip_commas (S (length sats)))
    by (now rewrite Hsats).
  rewrite skip_fields by assumption.
  destruct more as [| m more']; [contradiction |].
  cbn [map concat]. rewrite <- app_assoc. cbn [app].
  rewrite read_pdop_field; [| exact Hpd |].
  - f_equal. f_equal. destruct mode2 as [| c m2]; [| reflexivity].
    cbn [app hd]. destruct sats as [| s0 sats']; [discriminate |].
    reflexivity.
  - assert (Hin : In pdop fields).
    { rewrite Hf. apply in_or_app. right. apply in_or_app. left.
      apply in_or_app. right. now left. }
    apply field_length_lt in Hin. lia.
Qed.

(** X11. A well-formed GSA sentence is understood.  For a line [$GPGSA]
    with at least 16 comma-separated fields, followed by [*] and the two
    hexadecimal digits of the exclusive or of everything between [$] and
    [*], the parser reaches line 422 with [gps_now_valid] set exactly when
    the second field (the fix mode) starts with the digit 3, and with
    the first four bytes of the fifteenth field (PDOP) in [pdop_buf].
    What lies in [rx_buf] behind the terminator, left there by earlier
    lines, does not matter. *)
Theorem gsa_sentence_is_parsed
    (mode1 mode2 : list Z) (sats : list (list Z)) (pdop : list Z)
    (more : list (list Z)) (rest : list Z) :
  let fields := mode1 :: mode2 :: sats ++ pdop :: more in
  let s := nmea_sentence (gsa_payload fields) in
  length sats = 12%nat -> more <> [] ->
  Forall (fun f => forallb plain f = true) fields ->
  (length s < 64)%nat ->
  parse_sentence (s ++ 0 :: rest) (Z.of_nat (length s))
  = Some (match mode2 with c :: _ => c =? ch "3" | [] => false end,
          Some (take 4 pdop)).
Proof. apply parse_gsa. Qed.

Lemma gsa_sentence_is_parsed_witness :
  parse_sentence (sample_gsa ++ [0]) (Z.of_nat (length sample_gsa))
  = Some (true, Some (bytes "1.61")).
Proof.
  assert (E : sample_gsa
              = nmea_sentence
                  (gsa_payload
                     (bytes "A" :: bytes "3"
                      :: sample_sats ++ bytes "1.61" :: [bytes "1.33"; bytes "0.90"])))
    by reflexivity.
  rewrite E.
  apply (gsa_sentence_is_parsed (bytes "A") (bytes "3") sample_sats
           (bytes "1.61") [bytes "1.33"; bytes "0.90"] []).
  - reflexivity.
  - discriminate.
  - repeat (apply Forall_cons; split; [reflexivity |]). apply Forall_nil_2.
  - vm_compute. lia.
Defined.

(** ** Lines the parser ignores *)

Lemma take_line (s rest : list Z) :
  take (Z.to_nat (Z.of_nat (length s))) (s ++ 0 :: rest) = s.
Proof. rewrite Nat2Z.id. apply take_app_length. Qed.

(** X12. The framing guards of the parser.  A line is ignored, wherever it
    comes from and whatever it says, when it has fewer than 9 bytes,
    when it has no [*], when fewer than two bytes follow the [*], or when
    the two bytes after the [*], read as hexadecimal digits, are not the
    exclusive or of the bytes between [$] and [*]. *)
Theorem unframed_line_is_ignored (payload : list Z) (rest : list Z) :
  Forall (fun c => is_uchar c /\ c <> ch "*") payload ->
  (length payload < 60)%nat ->
  (forall s : list Z,
      (length s < 9)%nat ->
      parse_sentence (s ++ 0 :: rest) (Z.of_nat (length s)) = None) /\
  (forall first : Z,
      let s := first :: payload in
      parse_sentence (s ++ 0 :: rest) (Z.of_nat (length s)) = None) /\
  (forall (first : Z) (after : list Z),
      (length after < 2)%nat ->
      let s := first :: payload ++ ch "*" :: after in
      parse_sentence (s ++ 0 :: rest) (Z.of_nat (length s)) = None) /\
  (forall (first h1 h2 : Z) (after : list Z),
      16 * hexChar h1 + hexChar h2 <> nmea_checksum payload ->
      let s := first :: payload ++ ch "*" :: h1 :: h2 :: after in
      parse_sentence (s ++ 0 :: rest) (Z.of_nat (length s)) = None).
Proof.
  intros Hp Hl.
  assert (Hns : Forall (fun c => c <> ch "*") payload).
  { eapply Forall_impl; [exact Hp |]. now intros c [_ Hc]. }
  split; [| split; [| split]].
  - intros s Hs. unfold parse_sentence.
    destruct (Z.ltb_spec (Z.of_nat (length s)) 9); [reflexivity | lia].
  - intros first s. unfold parse_sentence.
    destruct (Z.ltb_spec (Z.of_nat (length s)) 9); [reflexivity |].
    rewrite take_line. subst s. cbn [skipn]. rewrite drop_0.
    assert (Hi := checksum_loop_no_star payload 1 0 Hns ltac:(lia) ltac:(lia)).
    destruct (checksum_loop payload 1 0) as [i cs]. cbn [fst] in Hi. subst i.
    cbn [length] in *.
    rewrite !to_uint_id by (unfold is_uint; lia).
    destruct (Z.ltb_spec (Z.of_nat (S (length payload)) - 3)
                (1 + Z.of_nat (length payload))); [reflexivity | lia].
  - intros first after Ha s. unfold parse_sentence.
    destruct (Z.ltb_spec (Z.of_nat (length s)) 9); [reflexivity |].
    rewrite take_line. subst s. cbn [skipn]. rewrite drop_0.
    rewrite checksum_loop_payload;
      [| exact Hp | unfold is_uchar; lia | lia | lia].
    cbn [length] in *. rewrite length_app in *. cbn [length] in *.
    rewrite !to_uint_id by (unfold is_uint; lia).
    destruct (Z.ltb_spec
                (Z.of_nat (S (length payload + S (length after))) - 3)
                (1 + Z.of_nat (length payload))); [reflexivity | lia].
  - intros first h1 h2 after Hne s. unfold parse_sentence.
    destruct (Z.ltb_spec (Z.of_nat (length s)) 9); [reflexivity |].
    rewrite take_line. subst s. cbn [skipn]. rewrite drop_0.
    rewrite checksum_loop_payload;
      [| exact Hp | unfold is_uchar; lia | lia | lia].
    fold (nmea_checksum payload).
    destruct (_ <? _); [reflexivity |].
    rewrite (to_int_id (1 + _ + 1)) by (unfold is_int; lia).
    assert (E1 : at_index ((first :: payload ++ ch "*" :: h1 :: h2 :: after)
                           ++ 0 :: rest)
                   (1 + Z.of_nat (length payload) + 1) = h1).
    { replace (1 + Z.of_nat (length payload) + 1)
        with (Z.of_nat (length (first :: payload ++ [ch "*"])))
        by (cbn [length]; rewrite length_app; simpl; lia).
      replace ((first :: payload ++ ch "*" :: h1 :: h2 :: after) ++ 0 :: rest)
        with ((first :: payload ++ [ch "*"]) ++ h1 :: h2 :: after ++ 0 :: rest)
        by (cbn [app]; rewrite <- !app_assoc; reflexivity).
      apply at_index_app. }
    assert (E2 : at_index ((first :: payload ++ ch "*" :: h1 :: h2 :: after)
                           ++ 0 :: rest)
                   (1 + Z.of_nat (length payload) + 1 + 1) = h2).
    { replace (1 + Z.of_nat (length payload) + 1 + 1)
        with (Z.of_nat (length (first :: payload ++ [ch "*"; h1])))
        by (cbn [length]; rewrite length_app; simpl; lia).
      replace ((first :: payload ++ ch "*" :: h1 :: h2 :: after) ++ 0 :: rest)
        with ((first :: payload ++ [ch "*"; h1]) ++ h2 :: after ++ 0 :: rest)
        by (cbn [app]; rewrite <- !app_assoc; reflexivity).
      apply at_index_app. }
    rewrite E1, E2.
    assert (R1 := hexChar_range h1).
    assert (R2 := hexChar_range h2).
    rewrite lor_shiftl_4 by exact R2.
    rewrite to_uchar_id by (unfold is_uchar; lia).
    destruct (Z.eqb_spec (hexChar h1 * 16 + hexChar h2) (nmea_checksum payload));
      [lia | reflexivity].
Qed.

Lemma unframed_line_is_ignored_witness :
  parse_sentence (corrupted_gsa ++ [0]) (Z.of_nat (length corrupted_gsa)) = None.
Proof.
  set (payload := bytes "GPGSA,A,1,02,06,12,24,25,29,,,,,,,1.61,1.33,0.90").
  assert (Hp : Forall (fun c => is_uchar c /\ c <> ch "*") payload).
  { repeat (apply Forall_cons; split; [by_computation |]). apply Forall_nil_2. }
  assert (Hl : (length payload < 60)%nat) by (vm_compute; lia).
  destruct (unframed_line_is_ignored payload [] Hp Hl) as (_ & _ & _ & H).
  apply (H (ch "$") (ch "0") (ch "1") []). by_computation.
Defined.

(** ** The sentence type and the field count *)

Lemma strncmp_eq n : forall a b,
  Forall (fun c => c <> 0) b -> length b = n ->
  strncmp a b n = 0 -> take n a = b.
Proof.
  induction n as [| n IH]; intros a b Hb Hl H.
  - destruct b; [reflexivity | discriminate].
  - destruct b as [| y b]; [discriminate |].
    inversion Hb as [| ? ? Hy Hb']; subst.
    cbn [strncmp hd tl] in H.
    destruct a as [| x a]; cbn [hd tl] in H.
    + destruct (Z.eqb_spec 0 y); [congruence | lia].
    + destruct (Z.eqb_spec x y) as [-> | Hxy]; [| lia].
      destruct (Z.eqb_spec y 0); [contradiction |].
      cbn [take]. f_equal. apply IH; [assumption | | assumption].
      cbn [length] in Hl. lia.
Qed.

(** [strchr] on a line in the buffer finds what it finds in the line
    alone: the terminator stops it. *)
Lemma strchr_line s c rest :
  c <> 0 ->
  strchr (s ++ 0 :: rest) c
  = option_map (fun p => p ++ 0 :: rest) (strchr s c).
Proof.
  intros Hc. induction s as [| x s IH]; cbn [app strchr option_map].
  - destruct (Z.eqb_spec 0 c); [congruence | reflexivity].
  - destruct (x =? c); [reflexivity |].
    destruct (x =? 0); [reflexivity | exact IH].
Qed.

Lemma strchr_head s c p : strchr s c = Some p -> exists b, p = c :: b.
Proof.
  induction s as [| x s IH]; cbn [strchr]; [discriminate |].
  destruct (Z.eqb_spec x c) as [-> | _].
  - intros [= <-]. now exists s.
  - destruct (x =? 0); [discriminate | exact IH].
Qed.

Lemma strchr_commas s p :
  strchr s (ch ",") = Some p -> commas s = commas p.
Proof.
  induction s as [| x s IH]; cbn [strchr commas]; [discriminate |].
  destruct (Z.eqb_spec x (ch ",")) as [-> | _].
  - intros [= <-]. cbn [commas]. now rewrite Z.eqb_refl.
  - destruct (x =? 0); [discriminate | exact IH].
Qed.

Lemma skip_commas_line n : forall s rest,
  skip_commas n (s ++ 0 :: rest)
  = option_map (fun p => p ++ 0 :: rest) (skip_commas n s).
Proof.
  induction n as [| n IH]; intros s rest; cbn [skip_commas option_map];
    [reflexivity |].
  rewrite strchr_line by discriminate.
  destruct (strchr s (ch ",")) as [p |] eqn:E; cbn [option_map];
    [| reflexivity].
  destruct (strchr_head s _ p E) as [b ->]. cbn [app tl]. apply IH.
Qed.

Lemma skip_commas_count n : forall s p,
  skip_commas n s = Some p -> commas s = (n + commas p)%nat.
Proof.
  induction n as [| n IH]; intros s p; cbn [skip_commas].
  - now intros [= <-].
  - destruct (strchr s (ch ",")) as [q |] eqn:E; [| discriminate].
    intros H. rewrite (strchr_commas s q E).
    destruct (strchr_head s _ q E) as [b ->]. cbn [tl] in H.
    cbn [commas]. rewrite Z.eqb_refl. rewrite (IH b p H). lia.
Qed.

(** X13. What the parser asks of a line beyond its framing.  A line that
    does not start with the six bytes [$GPGSA] is ignored even with a
    correct checksum, and so is, in this build, every line with fewer
    than 15 commas: the scan for the PDOP field returns before the fix
    mode it has already read is put to use. *)
Theorem other_sentences_are_ignored (s rest : list Z) :
  (take 6 s <> bytes "$GPGSA" ->
   parse_sentence (s ++ 0 :: rest) (Z.of_nat (length s)) = None) /\
  ((commas s < 15)%nat ->
   parse_sentence (s ++ 0 :: rest) (Z.of_nat (length s)) = None).
Proof.
  split.
  - intros Hne. unfold parse_sentence.
    destruct (Z.ltb_spec (Z.of_nat (length s)) 9); [reflexivity |].
    destruct (checksum_loop _ _ _) as [i cs].
    destruct (_ <? _); [reflexivity |].
    destruct (negb _); [reflexivity |].
    destruct (Z.eqb_spec (strncmp (s ++ 0 :: rest) (bytes "$GPGSA") 6) 0)
      as [E | E]; [| reflexivity].
    apply strncmp_eq in E;
      [| repeat (apply Forall_cons; split; [by_computation |]);
         apply Forall_nil_2
       | reflexivity].
    rewrite take_app_le in E by lia. contradiction.
  - intros Hc. unfold parse_sentence.
    destruct (Z.ltb_spec (Z.of_nat (length s)) 9); [reflexivity |].
    destruct (checksum_loop _ _ _) as [i cs].
    destruct (_ <? _); [reflexivity |].
    destruct (negb _); [reflexivity |].
    destruct (negb _); [reflexivity |].
    rewrite skip_commas_line.
    destruct (skip_commas 2 s) as [p |] eqn:E2; cbn [option_map];
      [| reflexivity].
    rewrite skip_commas_line.
    destruct (skip_commas 13 p) as [q |] eqn:E13; cbn [option_map];
      [| reflexivity].
    apply skip_commas_count in E2. apply skip_commas_count in E13. lia.
Qed.

Lemma other_sentences_are_ignored_witness :
  parse_sentence (sample_gga ++ [0]) (Z.of_nat (length sample_gga)) = None /\
  parse_sentence (short_gsa ++ [0]) (Z.of_nat (length short_gsa)) = None.
Proof.
  split.
  - destruct (other_sentences_are_ignored sample_gga []) as [H _].
    apply H. vm_compute. intros [=].
  - destruct (other_sentences_are_ignored short_gsa []) as [_ H].
    apply H. vm_compute. lia.
Defined.

(** ** Stale bytes behind the terminator *)

Lemma checksum_loop_index s : forall i x,
  0 <= i -> i + Z.of_nat (length s) < 2 ^ 15 ->
  i <= fst (checksum_loop s i x) <= i + Z.of_nat (length s).
Proof.
  induction s as [| c s IH]; intros i x Hi Hl; cbn [checksum_loop fst length] in *.
  - lia.
  - destruct (c =? ch "*"); cbn [fst]; [lia |].
    rewrite to_int_id by (unfold is_int; lia).
    specialize (IH (i + 1) (to_uchar (Z.lxor x c)) ltac:(lia) ltac:(lia)). lia.
Qed.

Lemma at_index_line s x j :
  0 <= j < Z.of_nat (length s) -> at_index (s ++ x) j = at_index s j.
Proof. intros Hj. unfold at_index. apply app_nth1. lia. Qed.

Lemma strncmp_line n : forall a b x,
  (n <= length a)%nat -> strncmp (a ++ x) b n = strncmp a b n.
Proof.
  induction n as [| n IH]; intros a b x Hl; cbn [strncmp]; [reflexivity |].
  destruct a as [| c a]; cbn [length] in Hl; [lia |].
  cbn [app hd tl]. rewrite IH by lia. reflexivity.
Qed.

Lemma strchr_length s c p : strchr s c = Some p -> (length p <= length s)%nat.
Proof.
  induction s as [| x s IH]; cbn [strchr]; [discriminate |].
  destruct (x =? c).
  - intros [= <-]. lia.
  - destruct (x =? 0); [discriminate |]. intros H. specialize (IH H).
    cbn [length]. lia.
Qed.

Lemma read_pdop_line q rest : read_pdop (q ++ 0 :: rest) = read_pdop q.
Proof.
  unfold read_pdop. rewrite strchr_line by discriminate.
  destruct (strchr q (ch ",")) as [p |] eqn:E; cbn [option_map];
    [| reflexivity].
  assert (Hp := strchr_length q _ p E).
  rewrite !length_app. cbn [length].
  replace (length q + S (length rest) - (length p + S (length rest)))%nat
    with (length q - length p)%nat by lia.
  f_equal. apply take_app_le.
  assert (Hu : to_uchar (Z.of_nat (length q - length p))
               <= Z.of_nat (length q - length p)).
  { unfold to_uchar, to_unsigned. apply Z.mod_le; lia. }
  assert (H0 : 0 <= to_uchar (Z.of_nat (length q - length p))).
  { unfold to_uchar, to_unsigned. apply Z.mod_pos_bound. lia. }
  destruct (Z.ltb_spec 4 (to_uchar (Z.of_nat (length q - length p)))); lia.
Qed.

Lemma hd_line (p rest : list Z) : hd 0 (p ++ 0 :: rest) = hd 0 p.
Proof. now destruct p. Qed.

Lemma parse_line_local (s rest : list Z) :
  (length s < 64)%nat ->
  parse_sentence (s ++ 0 :: rest) (Z.of_nat (length s))
  = parse_sentence (s ++ [0]) (Z.of_nat (length s)).
Proof.
  intros Hl. unfold parse_sentence.
  destruct (Z.ltb_spec (Z.of_nat (length s)) 9); [reflexivity |].
  rewrite !take_line.
  assert (Hd : length (drop 1 s) = (length s - 1)%nat) by apply length_drop.
  assert (Hi := checksum_loop_index (drop 1 s) 1 0 ltac:(lia) ltac:(lia)).
  destruct (checksum_loop (drop 1 s) 1 0) as [i cs]. cbn [fst] in Hi.
  rewrite !to_uint_id by (unfold is_uint; lia).
  destruct (Z.ltb_spec (Z.of_nat (length s) - 3) i); [reflexivity |].
  rewrite (to_int_id (i + 1)) by (unfold is_int; lia).
  rewrite !(at_index_line s) by lia.
  destruct (negb _); [reflexivity |].
  rewrite !(strncmp_line 6 s) by lia.
  destruct (negb _); [reflexivity |].
  rewrite !skip_commas_line.
  destruct (skip_commas 2 s) as [p |]; cbn [option_map]; [| reflexivity].
  rewrite !skip_commas_line, !hd_line.
  destruct (skip_commas 13 p) as [q |]; cbn [option_map]; [| reflexivity].
  now rewrite !read_pdop_line.
Qed.

(** X14. The parser reads the line, not the buffer.  [rx_buf] is never
    cleared, so behind the terminator it still holds the tail of earlier,
    longer lines; the outcome of the parser does not depend on these
    bytes. *)
Theorem stale_bytes_are_not_parsed (s rest : list Z) :
  (length s < 64)%nat ->
  parse_sentence (s ++ 0 :: rest) (Z.of_nat (length s))
  = parse_sentence (s ++ [0]) (Z.of_nat (length s)).
Proof. apply parse_line_local. Qed.

Lemma stale_bytes_are_not_parsed_witness :
  parse_sentence (sample_gsa ++ 0 :: bytes ",,,,3,,,,") (Z.of_nat (length sample_gsa))
  = parse_sentence (sample_gsa ++ [0]) (Z.of_nat (length sample_gsa)).
Proof.
  apply (stale_bytes_are_not_parsed sample_gsa). vm_compute. lia.
Defined.

(** ** The receive interrupt *)

Lemma handleGPS_line_rx r st :
  rx_buf (fst (handleGPS_line r st)) = rx_buf r /\
  rx_str_len (fst (handleGPS_line r st)) = rx_str_len r.
Proof.
  unfold handleGPS_line.
  destruct (parse_sentence _ _) as [[v p] |]; split; reflexivity.
Qed.

Lemma USART0_RX_ok c r st : rx_ok r -> rx_ok (fst (USART0_RX c (r, st))).
Proof.
  unfold rx_ok, RX_BUF_LEN. intros [Hl Hi]. unfold USART0_RX.
  destruct (_ && _); cbn [fst]; [now split |].
  cbn [rx_buf rx_str_len pdop_buf].
  destruct (_ || _).
  - destruct (handleGPS_line_rx
                (mkReceiver (<[Z.to_nat (rx_str_len r):=0]>
                               (<[Z.to_nat (rx_str_len r):=c]> (rx_buf r)))
                   (rx_str_len r) (pdop_buf r)) st) as [E1 E2].
    destruct (handleGPS_line _ st) as [r' st']. cbn [fst rx_buf rx_str_len] in *.
    rewrite E1, !length_insert. split; [exact Hl | lia].
  - rewrite (to_uchar_id (rx_str_len r + 1)) by (unfold is_uchar; lia).
    destruct (Z.eqb_spec (rx_str_len r + 1) RX_BUF_LEN); unfold RX_BUF_LEN in *;
      cbn [fst rx_buf rx_str_len];
      rewrite length_insert; split; try exact Hl; lia.
Qed.

Lemma receive_ok cs : forall r st, rx_ok r -> rx_ok (fst (receive cs (r, st))).
Proof.
  induction cs as [| c cs IH]; intros r st H; [exact H |].
  cbn [receive fold_left].
  assert (H1 := USART0_RX_ok c r st H).
  destruct (USART0_RX c (r, st)) as [r1 st1]. apply IH. exact H1.
Qed.

(** X15. The receive buffer cannot overflow.  Whatever bytes arrive, in
    whatever number, the index at which the interrupt stores the next one
    stays below [RX_BUF_LEN], so every store of lines 283 and 285 falls
    inside the 64 bytes of [rx_buf]. *)
Theorem receive_index_in_bounds (cs : list Z) (r : Receiver) (st : State) :
  rx_ok r ->
  let r' := fst (receive cs (r, st)) in
  0 <= rx_str_len r' < RX_BUF_LEN /\
  length (rx_buf r') = Z.to_nat RX_BUF_LEN.
Proof.
  intros H. destruct (receive_ok cs r st H) as [H1 H2]. split; assumption.
Qed.

Lemma receive_index_in_bounds_witness :
  let r' := fst (receive (full_gsa ++ full_gsa)
                   (reset_receiver, boot 1 0xffff 0x8000)) in
  0 <= rx_str_len r' < RX_BUF_LEN /\ length (rx_buf r') = 64%nat.
Proof.
  assert (H : rx_ok reset_receiver) by (split; [reflexivity | by_computation]).
  exact (receive_index_in_bounds (full_gsa ++ full_gsa) reset_receiver
           (boot 1 0xffff 0x8000) H).
Defined.

Lemma inline_spec c : inline c = true -> c <> CR /\ c <> LF.
Proof.
  unfold inline. intros H. apply andb_prop in H. destruct H as [H1 H2].
  apply negb_true_iff, Z.eqb_neq in H1. apply negb_true_iff, Z.eqb_neq in H2.
  now split.
Qed.

(** Bytes within a line are appended to the buffer. *)
Lemma receive_inline body : forall r st,
  rx_ok r -> 0 < rx_str_len r ->
  forallb inline body = true ->
  rx_str_len r + Z.of_nat (length body) < RX_BUF_LEN ->
  receive body (r, st)
  = (mkReceiver
       (take (Z.to_nat (rx_str_len r)) (rx_buf r) ++ body
        ++ drop (Z.to_nat (rx_str_len r) + length body) (rx_buf r))
       (rx_str_len r + Z.of_nat (length body)) (pdop_buf r), st).
Proof.
  unfold RX_BUF_LEN.
  induction body as [| c body IH]; intros r st Hok Hpos Hin Hlen.
  - cbn [receive fold_left length app]. rewrite Nat.add_0_r, take_drop, Z.add_0_r.
    now destruct r.
  - cbn [forallb] in Hin. apply andb_prop in Hin. destruct Hin as [Hc Hin].
    destruct (inline_spec c Hc) as [Hcr Hlf]. unfold CR, LF in *.
    assert (Hok1 := USART0_RX_ok c r st Hok).
    destruct Hok as [Hl Hi]. unfold RX_BUF_LEN in *.
    cbn [length] in Hlen.
    cbn [receive fold_left]. fold (receive body).
    assert (E : USART0_RX c (r, st)
                = (mkReceiver (<[Z.to_nat (rx_str_len r):=c]> (rx_buf r))
                     (rx_str_len r + 1) (pdop_buf r), st)).
    { unfold USART0_RX.
      destruct (Z.eqb_spec (rx_str_len r) 0); [lia |]. cbn [andb].
      destruct (Z.eqb_spec c 13); [contradiction |].
      destruct (Z.eqb_spec c 10); [contradiction |]. cbn [orb].
      cbn [rx_buf rx_str_len pdop_buf].
      rewrite to_uchar_id by (unfold is_uchar; lia).
      destruct (Z.eqb_spec (rx_str_len r + 1) RX_BUF_LEN);
        [unfold RX_BUF_LEN in *; lia | reflexivity]. }
    rewrite E in *. cbn [fst] in Hok1.
    rewrite IH; [| exact Hok1 | cbn [rx_str_len]; lia | exact Hin
                 | cbn [rx_str_len]; lia].
    cbn [rx_buf rx_str_len pdop_buf].
    f_equal. f_equal; [| cbn [length]; lia].
    replace (Z.to_nat (rx_str_len r + 1)) with (S (Z.to_nat (rx_str_len r))) by lia.
    set (n := Z.to_nat (rx_str_len r)) in *.
    assert (Hn : (n < length (rx_buf r))%nat) by lia.
    rewrite (take_S_r _ n c) by (now apply list_lookup_insert_eq).
    rewrite take_insert_ge by lia.
    rewrite drop_insert_lt by lia.
    rewrite <- app_assoc. cbn [app length].
    now replace (S n + length body)%nat with (n + S (length body))%nat by lia.
Qed.

(** A line from its [$] on, received while the receiver waits for one. *)
Lemma receive_text body r st :
  rx_ok r -> rx_str_len r = 0 ->
  forallb inline body = true ->
  (length (ch "$" :: body) < 64)%nat ->
  let s := ch "$" :: body in
  receive s (r, st)
  = (mkReceiver (s ++ drop (length s) (rx_buf r)) (Z.of_nat (length s))
       (pdop_buf r), st).
Proof.
  intros Hok H0 Hin Hlen s.
  assert (Hok1 := USART0_RX_ok (ch "$") r st Hok).
  destruct Hok as [Hl Hi]. unfold RX_BUF_LEN in *.
  subst s. cbn [receive fold_left]. fold (receive body).
  assert (E : USART0_RX (ch "$") (r, st)
              = (mkReceiver (<[0%nat:=ch "$"]> (rx_buf r)) 1 (pdop_buf r), st)).
  { unfold USART0_RX. rewrite H0, Z.eqb_refl. reflexivity. }
  rewrite E in *. cbn [fst] in Hok1. cbn [length] in Hlen.
  rewrite receive_inline;
    [| exact Hok1 | cbn [rx_str_len]; lia | exact Hin
     | cbn [rx_str_len]; unfold RX_BUF_LEN; lia].
  cbn [rx_buf rx_str_len pdop_buf length].
  f_equal. f_equal; [| lia].
  change (Z.to_nat 1) with 1%nat.
  destruct (rx_buf r) as [| b0 B]; [discriminate |].
  cbn [insert list_insert take drop app Nat.add]. rewrite take_0.
  reflexivity.
Qed.

Lemma terminate_line (s B : list Z) (t : Z) :
  (length s < length B)%nat ->
  <[length s := 0]> (<[length s := t]> (s ++ drop (length s) B))
  = s ++ 0 :: drop (S (length s)) B.
Proof.
  intros Hl. rewrite list_insert_insert_eq.
  destruct (lookup_lt_is_Some_2 B (length s) Hl) as [x Hx].
  rewrite (drop_S B x (length s) Hx).
  rewrite insert_app_r_alt by lia. rewrite Nat.sub_diag. reflexivity.
Qed.

(** A whole line: the text is put in the buffer, the line end is replaced
    by the terminator, [handleGPS] runs on it, and the receiver waits for
    the next [$]. *)
Lemma receive_line body t r st :
  rx_ok r -> rx_str_len r = 0 ->
  forallb inline body = true ->
  (length (ch "$" :: body) < 64)%nat ->
  t = CR \/ t = LF ->
  let s := ch "$" :: body in
  let buf := s ++ 0 :: drop (S (length s)) (rx_buf r) in
  receive (s ++ [t]) (r, st)
  = match parse_sentence (s ++ [0]) (Z.of_nat (length s)) with
    | None => (mkReceiver buf 0 (pdop_buf r), st)
    | Some (gps_now_valid, pdop) =>
        (mkReceiver buf 0 pdop, handleGPS gps_now_valid st)
    end.
Proof.
  intros Hok H0 Hin Hlen Ht s buf.
  unfold receive. rewrite fold_left_app. fold (receive s (r, st)).
  subst s. rewrite (receive_text body r st Hok H0 Hin Hlen).
  set (s := ch "$" :: body) in *.
  destruct Hok as [Hl Hi]. unfold RX_BUF_LEN in *.
  cbn [fold_left]. unfold USART0_RX.
  destruct (Z.eqb_spec (rx_str_len
              (mkReceiver (s ++ drop (length s) (rx_buf r))
                 (Z.of_nat (length s)) (pdop_buf r))) 0) as [E | _].
  { cbn [rx_str_len] in E. subst s. cbn [length] in E. lia. }
  cbn [andb rx_buf rx_str_len pdop_buf].
  assert (Hterm : (t =? 13) || (t =? 10) = true).
  { destruct Ht as [-> | ->]; reflexivity. }
  rewrite Hterm, Nat2Z.id.
  rewrite terminate_line by lia.
  unfold handleGPS_line. cbn [rx_buf rx_str_len pdop_buf].
  rewrite parse_line_local by exact Hlen.
  destruct (parse_sentence (s ++ [0]) (Z.of_nat (length s))) as [[v p] |];
    reflexivity.
Qed.

(** While it waits for a [$], the receiver drops everything else. *)
Lemma receive_idle noise : forall r st,
  rx_str_len r = 0 -> Forall (fun c => c <> ch "$") noise ->
  receive noise (r, st) = (r, st).
Proof.
  induction noise as [| c noise IH]; intros r st H0 Hn; [reflexivity |].
  inversion Hn as [| ? ? Hc Hn']; subst.
  cbn [receive fold_left]. fold (receive noise).
  assert (E : USART0_RX c (r, st) = (r, st)).
  { unfold USART0_RX. rewrite H0, Z.eqb_refl.
    destruct (Z.eqb_spec c (ch "$")); [contradiction | reflexivity]. }
  rewrite E. now apply IH.
Qed.

Lemma receive_app a b x : receive (a ++ b) x = receive b (receive a x).
Proof. unfold receive. apply fold_left_app. Qed.

(** X16. How a line reaches the parser.  From the state in which the
    receiver waits for a [$], a line of fewer than 64 bytes that starts
    with [$] and ends with a carriage return or a line feed is put in
    [rx_buf] with a terminating zero in place of the line end, and
    [handleGPS] runs on exactly this line; afterwards the receiver waits
    again.  Bytes before the [$] and bytes after the line end up to the
    next [$], such as the line feed after a carriage return, are
    dropped. *)
Theorem line_reaches_parser
    (body : list Z) (t : Z) (r : Receiver) (st : State)
    (before after : list Z) :
  rx_ok r -> rx_str_len r = 0 ->
  forallb inline body = true ->
  (length (ch "$" :: body) < 64)%nat ->
  t = CR \/ t = LF ->
  Forall (fun c => c <> ch "$") before ->
  Forall (fun c => c <> ch "$") after ->
  let s := ch "$" :: body in
  let buf := s ++ 0 :: drop (S (length s)) (rx_buf r) in
  receive (before ++ s ++ [t] ++ after) (r, st)
  = match parse_sentence (s ++ [0]) (Z.of_nat (length s)) with
    | None => (mkReceiver buf 0 (pdop_buf r), st)
    | Some (gps_now_valid, pdop) =>
        (mkReceiver buf 0 pdop, handleGPS gps_now_valid st)
    end.
Proof.
  intros Hok H0 Hin Hlen Ht Hb Ha s buf.
  rewrite receive_app, (receive_idle before r st H0 Hb).
  rewrite app_assoc, receive_app.
  subst s buf. rewrite (receive_line body t r st Hok H0 Hin Hlen Ht).
  destruct (parse_sentence _ _) as [[v p] |];
    now rewrite receive_idle.
Qed.

(** X17. A line of 64 bytes or more is lost.  When the 64th byte of a line
    is stored without a line end having come, the index wraps to zero:
    the receiver waits for the next [$], the rest of the line is dropped
    with its line end, and [handleGPS] is not called, so the state of the
    controller is as it was.  A GSA sentence that names twelve satellites
    has 64 bytes. *)
Theorem long_line_is_dropped
    (init : list Z) (c : Z) (after : list Z) (r : Receiver) (st : State) :
  rx_ok r -> rx_str_len r = 0 ->
  forallb inline (init ++ [c]) = true ->
  length init = 62%nat ->
  Forall (fun c => c <> ch "$") after ->
  let s := ch "$" :: init ++ [c] in
  receive (s ++ after) (r, st) = (mkReceiver s 0 (pdop_buf r), st).
Proof.
  intros Hok H0 Hin Hlen Ha s.
  rewrite forallb_app in Hin. apply andb_prop in Hin. destruct Hin as [Hi Hc].
  cbn [forallb] in Hc. rewrite andb_true_r in Hc.
  destruct (inline_spec c Hc) as [Hcr Hlf]. unfold CR, LF in *.
  subst s. rewrite receive_app.
  change (ch "$" :: init ++ [c]) with ((ch "$" :: init) ++ [c]).
  rewrite receive_app.
  rewrite receive_text; [| exact Hok | exact H0 | exact Hi | cbn [length]; lia].
  destruct Hok as [Hl _]. unfold RX_BUF_LEN in Hl.
  cbn [receive fold_left]. fold (receive after).
  assert (E : USART0_RX c
                (mkReceiver ((ch "$" :: init) ++ drop (length (ch "$" :: init)) (rx_buf r))
                   (Z.of_nat (length (ch "$" :: init))) (pdop_buf r), st)
              = (mkReceiver ((ch "$" :: init) ++ [c]) 0 (pdop_buf r), st)).
  { unfold USART0_RX. cbn [rx_buf rx_str_len pdop_buf length]. rewrite Hlen.
    change (Z.of_nat 63 =? 0) with false. cbn [andb].
    destruct (Z.eqb_spec c 13); [contradiction |].
    destruct (Z.eqb_spec c 10); [contradiction |]. cbn [orb].
    change (to_uchar (Z.of_nat 63 + 1) =? RX_BUF_LEN) with true. cbv iota.
    f_equal. f_equal.
    destruct (lookup_lt_is_Some_2 (rx_buf r) 63 ltac:(lia)) as [x Hx].
    rewrite (drop_S (rx_buf r) x 63 Hx).
    rewrite (drop_ge (rx_buf r) 64) by lia.
    change (Z.to_nat (Z.of_nat 63)) with 63%nat.
    rewrite insert_app_r_alt by (cbn [length]; lia).
    cbn [length]. rewrite Hlen. reflexivity. }
  rewrite E. now apply receive_idle.
Qed.

Lemma line_reaches_parser_witness :
  let start := (reset_receiver, boot 1 0xffff 0x8000) in
  let rs :=
    receive ((bytes "0.90*01" ++ [LF]) ++ sample_gsa ++ [CR] ++ [LF]) start in
  gps_status (snd rs) = 1 /\ rx_str_len (fst rs) = 0 /\
  pdop_buf (fst rs) = Some (bytes "1.61").
Proof.
  intros start rs.
  assert (Hok : rx_ok reset_receiver) by (split; [reflexivity | by_computation]).
  assert (Hb : Forall (fun c => c <> ch "$") (bytes "0.90*01" ++ [LF])).
  { repeat (apply Forall_cons; split; [by_computation |]). apply Forall_nil_2. }
  assert (Ha : Forall (fun c => c <> ch "$") [LF]).
  { repeat (apply Forall_cons; split; [by_computation |]). apply Forall_nil_2. }
  assert (E := line_reaches_parser (tl sample_gsa) CR reset_receiver
                 (boot 1 0xffff 0x8000) (bytes "0.90*01" ++ [LF]) [LF]
                 Hok eq_refl eq_refl ltac:(vm_compute; lia) (or_introl eq_refl)
                 Hb Ha).
  cbv zeta in E.
  change (ch "$" :: tl sample_gsa) with sample_gsa in E.
  subst rs start. rewrite E.
  change (parse_sentence (sample_gsa ++ [0]) (Z.of_nat (length sample_gsa)))
    with (Some (true, Some (bytes "1.61"))).
  repeat split.
Defined.

Lemma long_line_is_dropped_witness :
  let st := boot 1 0xffff 0x8000 in
  length full_gsa = 64%nat /\
  receive (full_gsa ++ [CR; LF]) (reset_receiver, st)
  = (mkReceiver full_gsa 0 (Some []), st).
Proof.
  intros st. split; [reflexivity |].
  assert (Hok : rx_ok reset_receiver) by (split; [reflexivity | by_computation]).
  assert (Ha : Forall (fun c => c <> ch "$") [CR; LF]).
  { repeat (apply Forall_cons; split; [by_computation |]). apply Forall_nil_2. }
  exact (long_line_is_dropped (take 62 (tl full_gsa)) (ch "F") [CR; LF]
           reset_receiver st Hok eq_refl eq_refl eq_refl Ha).
Defined.

(** ** From the bytes on the wire to the fix gate *)

Lemma hex_digit_inline n : 0 <= n < 16 -> inline (hex_digit n) = true.
Proof.
  intros Hn. unfold inline, hex_digit, CR, LF.
  change (ch "0") with 48. change (ch "A") with 65.
  destruct (Z.ltb_spec n 10);
    apply andb_true_intro; split; apply negb_true_iff, Z.eqb_neq; lia.
Qed.

Lemma plain_inline f : forallb plain f = true -> forallb inline f = true.
Proof.
  induction f as [| c f IH]; cbn [forallb]; [reflexivity |].
  intros H. apply andb_prop in H. destruct H as [Hc Hf].
  destruct (plain_spec c Hc) as (_ & _ & _ & _ & H1 & H2).
  rewrite (IH Hf), andb_true_r. unfold inline.
  apply andb_true_intro; split; now apply negb_true_iff, Z.eqb_neq.
Qed.

Lemma gsa_payload_inline fields :
  Forall (fun f => forallb plain f = true) fields ->
  forallb inline (gsa_payload fields) = true.
Proof.
  intros H. unfold gsa_payload. rewrite forallb_app.
  apply andb_true_intro. split; [reflexivity |].
  induction H as [| f fs Hf Hfs IH]; cbn [map concat]; [reflexivity |].
  cbn [app forallb]. rewrite forallb_app, (plain_inline f Hf), IH. reflexivity.
Qed.

(** X18. From the wire to the fix gate.  A well-formed GSA line of fewer
    than 64 bytes, received byte by byte while the receiver waits for a
    [$], acts on the controller exactly as the event [Gps v] of the runs
    above, where [v] tells whether the fix mode starts with the digit 3:
    a mode of 3 while unlocked arms the sampler, any other mode while
    locked drops the samples and the integrator, and a mode that agrees
    with the present state changes nothing. *)
Theorem gsa_line_sets_fix
    (mode1 mode2 : list Z) (sats : list (list Z)) (pdop : list Z)
    (more : list (list Z)) (t : Z) (r : Receiver) (st : State) :
  let fields := mode1 :: mode2 :: sats ++ pdop :: more in
  let s := nmea_sentence (gsa_payload fields) in
  let v := match mode2 with c :: _ => c =? ch "3" | [] => false end in
  length sats = 12%nat -> more <> [] ->
  Forall (fun f => forallb plain f = true) fields ->
  (length s < 64)%nat ->
  rx_ok r -> rx_str_len r = 0 ->
  t = CR \/ t = LF ->
  snd (receive (s ++ [t]) (r, st)) = step (Gps v) st /\
  rx_str_len (fst (receive (s ++ [t]) (r, st))) = 0 /\
  pdop_buf (fst (receive (s ++ [t]) (r, st))) = Some (take 4 pdop).
Proof.
  intros fields s v Hsats Hmore Hplain Hlen Hok H0 Ht.
  assert (Hp := payload_bytes fields Hplain).
  assert (Hc := nmea_checksum_uchar (gsa_payload fields) Hp).
  unfold is_uchar in Hc.
  assert (Hin : forallb inline
                  (gsa_payload fields
                   ++ [ch "*"; hex_digit (nmea_checksum (gsa_payload fields) / 16);
                       hex_digit (nmea_checksum (gsa_payload fields) mod 16)])
                = true).
  { rewrite forallb_app, (gsa_payload_inline fields Hplain). cbn [forallb andb].
    rewrite !hex_digit_inline; [reflexivity | |].
    - apply Z.mod_pos_bound. lia.
    - split; [apply Z.div_pos; lia | apply Z.div_lt_upper_bound; lia]. }
  assert (E := receive_line _ t r st Hok H0 Hin Hlen Ht). cbv zeta in E.
  fold (nmea_sentence (gsa_payload fields)) in E. fold s in E.
  assert (P := parse_gsa mode1 mode2 sats pdop more [] Hsats Hmore Hplain Hlen).
  cbv zeta in P. fold fields s v in P.
  rewrite E, P. cbn [fst snd rx_str_len pdop_buf step]. repeat split.
Qed.

Lemma gsa_line_sets_fix_witness :
  let rs := receive (sample_gsa ++ [CR]) (reset_receiver, boot 1 0xffff 0x8000) in
  snd rs = set_gps_status 1 (boot 1 0xffff 0x8000) /\
  pdop_buf (fst rs) = Some (bytes "1.61").
Proof.
  intros rs.
  assert (Hok : rx_ok reset_receiver) by (split; [reflexivity | by_computation]).
  assert (Hpl : Forall (fun f => forallb plain f = true)
                  (bytes "A" :: bytes "3"
                   :: sample_sats ++ bytes "1.61" :: [bytes "1.33"; bytes "0.90"])).
  { repeat (apply Forall_cons; split; [reflexivity |]). apply Forall_nil_2. }
  destruct (gsa_line_sets_fix (bytes "A") (bytes "3") sample_sats (bytes "1.61")
              [bytes "1.33"; bytes "0.90"] CR reset_receiver
              (boot 1 0xffff 0x8000) eq_refl ltac:(discriminate) Hpl
              ltac:(vm_compute; lia) Hok eq_refl (or_introl eq_refl))
    as (A & _ & B).
  split; [exact A | exact B].
Defined.

(** ** The transmit ring *)

Lemma buf_in_use_eq t :
  0 <= txbuf_head t < TX_BUF_LEN -> 0 <= txbuf_tail t < TX_BUF_LEN ->
  buf_in_use t = (txbuf_head t - txbuf_tail t) mod TX_BUF_LEN.
Proof.
  unfold buf_in_use, TX_BUF_LEN. intros Hh Ht.
  destruct (Z.lt_ge_cases (txbuf_head t) (txbuf_tail t)) as [Hlt | Hge].
  - assert (E : to_int (to_uint (txbuf_head t - txbuf_tail t))
                = txbuf_head t - txbuf_tail t).
    { rewrite to_int_to_uint. apply to_int_id. unfold is_int. lia. }
    rewrite E. destruct (Z.ltb_spec (txbuf_head t - txbuf_tail t) 0); [| lia].
    rewrite to_int_id by (unfold is_int; lia).
    apply Z.mod_unique with (-1); lia.
  - assert (E : to_int (to_uint (txbuf_head t - txbuf_tail t))
                = txbuf_head t - txbuf_tail t).
    { rewrite to_int_to_uint. apply to_int_id. unfold is_int. lia. }
    rewrite E. destruct (Z.ltb_spec (txbuf_head t - txbuf_tail t) 0); [lia |].
    symmetry. apply Z.mod_small. lia.
Qed.

Lemma at_index_insert_eq (buf : list Z) i c :
  0 <= i < Z.of_nat (length buf) ->
  at_index (<[ Z.to_nat i := c ]> buf) i = c.
Proof.
  intros Hi. unfold at_index. rewrite nth_lookup.
  rewrite list_lookup_insert_eq by lia. reflexivity.
Qed.

Lemma at_index_insert_ne (buf : list Z) i j c :
  0 <= i -> 0 <= j -> i <> j ->
  at_index (<[ Z.to_nat i := c ]> buf) j = at_index buf j.
Proof.
  intros Hi Hj Hne. unfold at_index. rewrite !nth_lookup.
  rewrite list_lookup_insert_ne by lia. reflexivity.
Qed.

Lemma pending_length t :
  length (pending t)
  = Z.to_nat ((txbuf_head t - txbuf_tail t) mod TX_BUF_LEN).
Proof. unfold pending. now rewrite length_map, length_seq. Qed.

(** A byte put in the ring goes behind those that wait. *)
Lemma tx_char_put c t t' :
  ring_ok t -> tx_char c t = Some t' ->
  ring_ok t' /\ pending t' = pending t ++ [c] /\ sent t' = sent t.
Proof.
  intros (Hl & Hh & Ht & Hn & He). unfold tx_char.
  rewrite (buf_in_use_eq t Hh Ht).
  unfold TX_BUF_LEN in *.
  destruct (Z.leb_spec (96 - 2) ((txbuf_head t - txbuf_tail t) mod 96))
    as [Hfull | Hroom]; [discriminate |].
  intros [= <-].
  rewrite (to_uint_id (txbuf_head t + 1)) by (unfold is_uint; lia).
  set (h := txbuf_head t) in *. set (tl := txbuf_tail t) in *.
  set (h' := if h + 1 =? 96 then 0 else h + 1).
  assert (Hh' : 0 <= h' < 96 /\ (h' - tl) mod 96 = (h - tl) mod 96 + 1).
  { subst h'. destruct (Z.eqb_spec (h + 1) 96);
      (split; [lia |]); Z.div_mod_to_equations; lia. }
  destruct Hh' as [Hh' Hn'].
  split; [| split; [| reflexivity]].
  - unfold ring_ok, TX_BUF_LEN.
    cbn [txbuf txbuf_head txbuf_tail UDRIE0].
    rewrite length_insert, Hn'. repeat split; try lia; assumption.
  - unfold pending, TX_BUF_LEN. cbn [txbuf txbuf_head txbuf_tail].
    fold h tl. rewrite Hn'.
    replace (Z.to_nat ((h - tl) mod 96 + 1))
      with (S (Z.to_nat ((h - tl) mod 96)))
      by (Z.div_mod_to_equations; lia).
    rewrite seq_S, map_app. cbn [map Nat.add]. f_equal.
    + apply map_ext_in. intros k Hk. apply in_seq in Hk.
      apply at_index_insert_ne; [lia | apply Z.mod_pos_bound; lia |].
      Z.div_mod_to_equations. lia.
    + f_equal.
      replace ((tl + Z.of_nat (Z.to_nat ((h - tl) mod 96))) mod 96) with h
        by (Z.div_mod_to_equations; lia).
      apply at_index_insert_eq. lia.
Qed.

(** The interrupt takes the oldest byte of the ring to the wire. *)
Lemma udre_take t :
  ring_ok t ->
  ring_ok (USART0_UDRE t) /\
  sent (USART0_UDRE t) ++ pending (USART0_UDRE t) = sent t ++ pending t /\
  length (pending (USART0_UDRE t)) = pred (length (pending t)) /\
  (UDRIE0 (USART0_UDRE t) = true <-> UDRIE0 t = true /\ pending t <> []).
Proof.
  intros (Hl & Hh & Ht & Hn & He). unfold USART0_UDRE.
  unfold TX_BUF_LEN in *.
  set (h := txbuf_head t) in *. set (tl := txbuf_tail t) in *.
  destruct (Z.eqb_spec h tl) as [E | E].
  - assert (Hp : pending t = []).
    { unfold pending, TX_BUF_LEN. fold h tl. rewrite E, Z.sub_diag. reflexivity. }
    unfold ring_ok, pending, TX_BUF_LEN. cbn [txbuf txbuf_head txbuf_tail UDRIE0 sent].
    fold h tl. rewrite E, Z.sub_diag. change (0 mod 96) with 0.
    cbn [Z.to_nat seq map length].
    repeat split; try lia; try assumption; try congruence.
    intros [_ H]. now contradiction H.
  - rewrite (to_uint_id (tl + 1)) by (unfold is_uint; lia).
    set (tl' := if tl + 1 =? 96 then 0 else tl + 1).
    assert (Htl' : 0 <= tl' < 96 /\ (h - tl) mod 96 = (h - tl') mod 96 + 1
                   /\ (h <> tl' -> h <> tl)
                   /\ forall k, 0 <= k ->
                        (tl' + k) mod 96 = (tl + (k + 1)) mod 96).
    { subst tl'. destruct (Z.eqb_spec (tl + 1) 96);
        (split; [lia |]); (split; [Z.div_mod_to_equations; lia |]);
        (split; [lia |]); intros k Hk; Z.div_mod_to_equations; lia. }
    destruct Htl' as (Htl' & Hn' & Hne & Hidx).
    assert (Hm : 0 <= (h - tl') mod 96) by (apply Z.mod_pos_bound; lia).
    assert (Hpend : pending t
                    = at_index (txbuf t) tl
                      :: pending (mkTransmitter (txbuf t) h tl' (UDRIE0 t)
                                    (sent t ++ [at_index (txbuf t) tl]))).
    { unfold pending, TX_BUF_LEN. cbn [txbuf txbuf_head txbuf_tail].
      fold h tl. rewrite Hn'.
      replace (Z.to_nat ((h - tl') mod 96 + 1))
        with (S (Z.to_nat ((h - tl') mod 96))) by lia.
      cbn [seq map]. f_equal.
      - f_equal. rewrite Z.add_0_r. apply Z.mod_small. lia.
      - rewrite <- seq_shift, map_map. apply map_ext. intros k.
        rewrite Hidx by lia. f_equal. f_equal. lia. }
    split; [| split; [| split]].
    + unfold ring_ok, TX_BUF_LEN. cbn [txbuf txbuf_head txbuf_tail UDRIE0].
      repeat split; try lia; try assumption.
      intros H. apply He. now apply Hne.
    + rewrite Hpend. cbn [sent]. rewrite <- app_assoc. reflexivity.
    + rewrite Hpend. reflexivity.
    + cbn [UDRIE0]. rewrite Hpend. split.
      * intros H. split; [exact H | discriminate].
      * now intros [H _].
Qed.

Lemma tx_step_fifo e t t' :
  ring_ok t -> tx_step e t = Some t' ->
  ring_ok t' /\
  sent t' ++ pending t' = sent t ++ pending t ++ puts [e] /\
  exists l, sent t' = sent t ++ l.
Proof.
  intros Hok. destruct e as [c |]; cbn [tx_step puts].
  - intros H. destruct (tx_char_put c t t' Hok H) as (H1 & H2 & H3).
    split; [exact H1 |]. split; [now rewrite H2, H3 |].
    exists []. now rewrite app_nil_r.
  - intros [= <-]. destruct (UDRIE0 t).
    + destruct (udre_take t Hok) as (H1 & H2 & _).
      split; [exact H1 |]. split; [now rewrite H2, app_nil_r |].
      unfold USART0_UDRE. destruct (_ =? _); cbn [sent]; eauto.
      exists []. now rewrite app_nil_r.
    + split; [exact Hok |]. split; [now rewrite app_nil_r |].
      exists []. now rewrite app_nil_r.
Qed.

(** X19. The transmit ring is a queue.  Through any sequence of calls of
    [tx_char] and of transmit interrupts, the bytes already written to
    [UDR0] followed by the bytes still in the ring are the bytes given to
    [tx_char], in the order given: none is lost, repeated, overwritten or
    overtaken.  The indices stay inside [txbuf], and the interrupt is
    enabled whenever a byte waits. *)
Theorem tx_ring_is_fifo (es : list tx_event) (t t' : Transmitter) :
  ring_ok t -> tx_run es t = Some t' ->
  ring_ok t' /\
  sent t' ++ pending t' = sent t ++ pending t ++ puts es /\
  (exists l, sent t' = sent t ++ l) /\
  (pending t' <> [] -> UDRIE0 t' = true).
Proof.
  revert t. induction es as [| e es IH]; intros t Hok; cbn [tx_run puts].
  - intros [= <-]. split; [exact Hok |]. split; [now rewrite app_nil_r |].
    split; [exists []; now rewrite app_nil_r |].
    destruct Hok as (_ & _ & _ & _ & He). intros Hp. apply He. intros E.
    apply Hp. unfold pending. rewrite E, Z.sub_diag. reflexivity.
  - destruct (tx_step e t) as [t1 |] eqn:E; [| discriminate].
    intros H. destruct (tx_step_fifo e t t1 Hok E) as (H1 & H2 & l1 & H3).
    destruct (IH t1 H1 H) as (I1 & I2 & (l2 & I3) & I4).
    split; [exact I1 |]. split.
    + rewrite I2, app_assoc, H2, <- !app_assoc. f_equal. f_equal.
      destruct e; reflexivity.
    + split; [| exact I4]. exists (l1 ++ l2). now rewrite I3, H3, app_assoc.
Qed.

Lemma reset_transmitter_ok : ring_ok reset_transmitter.
Proof.
  unfold ring_ok, reset_transmitter, TX_BUF_LEN.
  cbn [txbuf txbuf_head txbuf_tail UDRIE0].
  split; [reflexivity |]. split; [lia |]. split; [lia |].
  split; [vm_compute; congruence |]. intros H. exfalso. now apply H.
Qed.

Lemma tx_ring_is_fifo_witness :
  exists t',
    tx_run [Put 71; Put 95; Udre; Put 76; Udre; Put 75] reset_transmitter
    = Some t' /\
    sent t' = [71; 95] /\ pending t' = [76; 75] /\ UDRIE0 t' = true.
Proof.
  destruct (tx_run [Put 71; Put 95; Udre; Put 76; Udre; Put 75] reset_transmitter)
    as [t' |] eqn:E; [| discriminate E].
  exists t'. split; [reflexivity |].
  destruct (tx_ring_is_fifo _ _ _ reset_transmitter_ok E) as (_ & _ & _ & H).
  injection E as <-.
  split; [reflexivity |]. split; [reflexivity |]. apply H. discriminate.
Defined.

(** X20. When [tx_char] has to wait.  The ring of 96 bytes is taken to be
    full at 94: [tx_char] finds room exactly when fewer than 94 bytes
    wait, and the ring never holds more.  With 94 bytes waiting it spins
    until a transmit interrupt has taken one. *)
Theorem tx_char_waits_when_full (c : Z) (t : Transmitter) :
  ring_ok t ->
  (length (pending t) <= 94)%nat /\
  (tx_char c t = None <-> length (pending t) = 94%nat) /\
  (tx_char c t = None ->
   UDRIE0 t = true /\ exists t', tx_char c (USART0_UDRE t) = Some t').
Proof.
  intros Hok. assert (Hok' := Hok).
  destruct Hok as (Hl & Hh & Ht & Hn & He).
  assert (Hm : 0 <= (txbuf_head t - txbuf_tail t) mod TX_BUF_LEN)
    by (apply Z.mod_pos_bound; unfold TX_BUF_LEN; lia).
  assert (Hfull : tx_char c t = None <-> length (pending t) = 94%nat).
  { rewrite pending_length. unfold tx_char. rewrite (buf_in_use_eq t Hh Ht).
    unfold TX_BUF_LEN in *.
    destruct (Z.leb_spec (96 - 2) ((txbuf_head t - txbuf_tail t) mod 96))
      as [Hge | Hlt];
      split; intros H; try reflexivity; try discriminate; lia. }
  split; [rewrite pending_length; unfold TX_BUF_LEN in *; lia |].
  split; [exact Hfull |].
  intros Hnone. apply Hfull in Hnone.
  destruct (udre_take t Hok') as (U1 & _ & U3 & _).
  split.
  - apply He. intros E. rewrite pending_length, E, Z.sub_diag in Hnone.
    discriminate Hnone.
  - destruct (tx_char c (USART0_UDRE t)) as [t' |] eqn:E; [now exists t' |].
    exfalso.
    assert (Hok1 := U1). destruct U1 as (_ & Hh1 & Ht1 & _).
    revert E. unfold tx_char. rewrite (buf_in_use_eq _ Hh1 Ht1).
    rewrite Hnone, pending_length in U3.
    unfold TX_BUF_LEN in *.
    destruct (Z.leb_spec (96 - 2)
                ((txbuf_head (USART0_UDRE t) - txbuf_tail (USART0_UDRE t)) mod 96))
      as [Hge | Hlt]; [| discriminate].
    cbn [pred] in U3. lia.
Qed.

Lemma full_ring_ok : ring_ok full_ring.
Proof.
  unfold ring_ok, full_ring, TX_BUF_LEN.
  cbn [txbuf txbuf_head txbuf_tail UDRIE0].
  split; [reflexivity |]. split; [lia |]. split; [lia |].
  split; [vm_compute; congruence | reflexivity].
Qed.

Lemma tx_char_waits_when_full_witness :
  tx_char 85 full_ring = None /\
  exists t1, tx_char 85 (USART0_UDRE full_ring) = Some t1.
Proof.
  destruct (tx_char_waits_when_full 85 full_ring full_ring_ok) as (_ & H1 & H2).
  assert (Hn : tx_char 85 full_ring = None) by (apply H1; reflexivity).
  split; [exact Hn |]. now destruct (H2 Hn).
Defined.

Lemma pending_nil t :
  ring_ok t -> pending t = [] -> txbuf_head t = txbuf_tail t.
Proof.
  intros (_ & Hh & Ht & _) Hp.
  assert (Hl := pending_length t). rewrite Hp in Hl. cbn [length] in Hl.
  unfold TX_BUF_LEN in *. Z.div_mod_to_equations. lia.
Qed.

Lemma drain_all n : forall t,
  ring_ok t -> length (pending t) = n ->
  exists t1,
    tx_run (drain n) t = Some t1 /\ ring_ok t1 /\
    sent t1 = sent t ++ pending t /\ pending t1 = [].
Proof.
  induction n as [| n IH]; intros t Hok Hn.
  - exists t. split; [reflexivity |]. split; [exact Hok |].
    destruct (pending t); [| discriminate].
    split; [now rewrite app_nil_r | reflexivity].
  - assert (Hne : pending t <> []) by (destruct (pending t); [discriminate | easy]).
    assert (Hen : UDRIE0 t = true).
    { destruct Hok as (_ & _ & _ & _ & He). apply He. intros E. apply Hne.
      unfold pending. rewrite E, Z.sub_diag. reflexivity. }
    destruct (udre_take t Hok) as (U1 & U2 & U3 & _).
    rewrite Hn in U3. cbn [pred] in U3.
    destruct (IH (USART0_UDRE t) U1 U3) as (t1 & R & Hok1 & S1 & P1).
    exists t1. cbn [drain repeat tx_run tx_step]. rewrite Hen.
    split; [exact R |]. split; [exact Hok1 |]. split; [| exact P1].
    now rewrite S1, U2.
Qed.

(** X21. The ring drains.  While a byte waits the transmit interrupt is
    enabled; taken once for each waiting byte, it puts them on the wire in
    their order and leaves the ring empty; taken once more, it finds the
    ring empty and disables itself, so that it does not fire again until
    [tx_char] enables it. *)
Theorem tx_ring_drains (t : Transmitter) :
  ring_ok t ->
  let n := length (pending t) in
  (pending t <> [] -> UDRIE0 t = true) /\
  exists t1 t2,
    tx_run (drain n) t = Some t1 /\
    sent t1 = sent t ++ pending t /\ pending t1 = [] /\
    tx_step Udre t1 = Some t2 /\
    UDRIE0 t2 = false /\ sent t2 = sent t1 /\ pending t2 = [].
Proof.
  intros Hok n. split.
  { destruct Hok as (_ & _ & _ & _ & He). intros Hp. apply He. intros E.
    apply Hp. unfold pending. rewrite E, Z.sub_diag. reflexivity. }
  destruct (drain_all n t Hok eq_refl) as (t1 & R & Hok1 & S1 & P1).
  assert (E := pending_nil t1 Hok1 P1).
  exists t1, (if UDRIE0 t1 then USART0_UDRE t1 else t1).
  split; [exact R |]. split; [exact S1 |]. split; [exact P1 |].
  split; [reflexivity |].
  unfold USART0_UDRE. rewrite E, Z.eqb_refl.
  destruct (UDRIE0 t1) eqn:Hu; cbn [UDRIE0 sent].
  - split; [reflexivity |]. split; [reflexivity |].
    unfold pending. cbn [txbuf txbuf_head txbuf_tail].
    rewrite Z.sub_diag. reflexivity.
  - split; [exact Hu |]. split; [reflexivity | exact P1].
Qed.

Lemma tx_ring_drains_witness :
  exists t1,
    tx_run (drain 94) full_ring = Some t1 /\
    sent t1 = repeat 85 94 /\ pending t1 = [].
Proof.
  destruct (tx_ring_drains full_ring full_ring_ok)
    as (_ & t1 & t2 & R & S1 & P1 & _).
  exists t1. split; [exact R |]. split; [exact S1 | exact P1].
Defined.

(** ** Number output *)

Lemma pow10_loop_exact n : forall out,
  0 <= out -> out * 10 ^ Z.of_nat n < 2 ^ 32 ->
  pow10_loop n out = out * 10 ^ Z.of_nat n.
Proof.
  induction n as [| n IH]; intros out H0 Hlt; cbn [pow10_loop].
  - rewrite Z.pow_0_r. lia.
  - rewrite Nat2Z.inj_succ, Z.pow_succ_r in * by lia.
    assert (Hp : 0 < 10 ^ Z.of_nat n) by (apply Z.pow_pos_nonneg; lia).
    rewrite to_ulong_id by (unfold is_ulong; nia).
    rewrite IH by nia. lia.
Qed.

Lemma pow10_exact val : 0 <= val <= 9 -> pow10 val = 10 ^ val.
Proof.
  intros Hv. unfold pow10. rewrite pow10_loop_exact; try lia.
  - rewrite Z2Nat.id by lia. lia.
  - rewrite Z2Nat.id by lia.
    apply Z.le_lt_trans with (1 * 10 ^ 9); [| reflexivity].
    apply Z.mul_le_mono_nonneg_l; [lia |]. apply Z.pow_le_mono_r; lia.
Qed.

(** The digit loop with an accumulator is the digit loop in front of the
    accumulator. *)
Lemma utoa_loop_acc fuel : forall radix n acc,
  utoa_loop fuel radix n acc = utoa_loop fuel radix n [] ++ acc.
Proof.
  induction fuel as [| fuel IH]; intros radix n acc; cbn [utoa_loop];
    [reflexivity |].
  destruct (n / radix =? 0); [reflexivity |].
  rewrite IH, (IH _ _ [_]), <- app_assoc. reflexivity.
Qed.

Lemma read_decimal_snoc s c :
  read_decimal (s ++ [c]) = 10 * read_decimal s + (c - ch "0").
Proof. unfold read_decimal. now rewrite fold_left_app. Qed.

(** The decimal digits of a number: they are digits, they read back as
    the number, and there are at most [i] of them exactly when the number
    is below [10 ^ i]. *)
Lemma utoa_decimal fuel : forall n,
  0 <= n < 10 ^ Z.of_nat fuel -> (0 < fuel)%nat ->
  let s := utoa_loop fuel 10 n [] in
  Forall is_digit s /\ read_decimal s = n /\ (1 <= length s)%nat /\
  forall i, (1 <= i)%nat -> (n < 10 ^ Z.of_nat i <-> (length s <= i)%nat).
Proof.
  induction fuel as [| fuel IH]; intros n Hn Hf; [lia |].
  cbn [utoa_loop]. cbv zeta.
  assert (Hd : 0 <= n mod 10 < 10) by (apply Z.mod_pos_bound; lia).
  destruct (Z.ltb_spec (n mod 10) 10) as [_ | Hge]; [| lia].
  assert (Hdig : is_digit (ch "0" + n mod 10)).
  { unfold is_digit. change (ch "0") with 48. change (ch "9") with 57. lia. }
  destruct (Z.eqb_spec (n / 10) 0) as [Hq | Hq].
  - assert (Hs : n < 10) by (Z.div_mod_to_equations; lia).
    split; [now constructor |]. split.
    { unfold read_decimal. cbn [fold_left]. Z.div_mod_to_equations. lia. }
    split; [cbn [length]; lia |].
    intros i Hi. cbn [length]. split; [lia |]. intros _.
    apply Z.lt_le_trans with (10 ^ 1); [lia |].
    apply Z.pow_le_mono_r; lia.
  - rewrite utoa_loop_acc.
    assert (Hq0 : 0 < n / 10) by (Z.div_mod_to_equations; lia).
    assert (Hfuel : (0 < fuel)%nat).
    { destruct fuel; [| lia]. rewrite Nat2Z.inj_succ, Z.pow_succ_r in Hn by lia.
      simpl in Hn. Z.div_mod_to_equations. lia. }
    assert (Hn' : 0 <= n / 10 < 10 ^ Z.of_nat fuel).
    { rewrite Nat2Z.inj_succ, Z.pow_succ_r in Hn by lia.
      split; [lia |]. apply Z.div_lt_upper_bound; lia. }
    destruct (IH (n / 10) Hn' Hfuel) as (I1 & I2 & I3 & I4). cbv zeta in *.
    split; [apply Forall_app; split; [exact I1 | now constructor] |].
    split.
    { rewrite read_decimal_snoc, I2. Z.div_mod_to_equations. lia. }
    rewrite length_app. cbn [length]. split; [lia |].
    intros i Hi. destruct i as [| i]; [lia |].
    destruct i as [| i].
    + split; [| lia]. intros Hlt. change (10 ^ Z.of_nat 1) with 10 in Hlt.
      Z.div_mod_to_equations. lia.
    + specialize (I4 (S i) ltac:(lia)).
      rewrite (Nat2Z.inj_succ (S i)), Z.pow_succ_r by lia.
      split.
      * intros Hlt.
        assert (n / 10 < 10 ^ Z.of_nat (S i))
          by (apply Z.div_lt_upper_bound; lia).
        apply I4 in H. lia.
      * intros Hlen. assert (Hl : (length (utoa_loop fuel 10 (n / 10) []) <= S i)%nat) by lia.
        apply I4 in Hl. Z.div_mod_to_equations. lia.
Qed.

Lemma ltoa_decimal n :
  0 <= n < 2 ^ 31 ->
  let s := ltoa (to_long n) 10 in
  Forall is_digit s /\ read_decimal s = n /\ (1 <= length s)%nat /\
  forall i, (1 <= i)%nat -> (n < 10 ^ Z.of_nat i <-> (length s <= i)%nat).
Proof.
  intros Hn. unfold ltoa.
  rewrite (to_long_id n) by (unfold is_long; lia).
  destruct (Z.ltb_spec n 0); [lia |]. rewrite andb_false_r.
  rewrite to_ulong_id by (unfold is_ulong; lia).
  apply utoa_decimal; [| lia].
  split; [lia |]. apply Z.lt_trans with (2 ^ 31); [lia | reflexivity].
Qed.

Lemma fp_zeros_count frac len m :
  (m <= 8)%nat -> (1 <= len)%nat ->
  (forall i, (1 <= i)%nat -> (frac < 10 ^ Z.of_nat i <-> (len <= i)%nat)) ->
  flat_map (fun i => if frac <? pow10 (Z.of_nat i) then [ch "0"] else [])
    (seq 1 m)
  = repeat (ch "0") (S m - len).
Proof.
  intros Hm Hlen Hi. induction m as [| m IH].
  - cbn [seq flat_map]. replace (1 - len)%nat with 0%nat by lia. reflexivity.
  - rewrite seq_S, flat_map_app, IH by lia. cbn [flat_map Nat.add].
    rewrite app_nil_r, pow10_exact by lia.
    destruct (Z.ltb_spec frac (10 ^ Z.of_nat (S m))) as [Hlt | Hge].
    + apply Hi in Hlt; [| lia].
      replace (S (S m) - len)%nat with (S m - len + 1)%nat by lia.
      now rewrite repeat_app.
    + assert (~ (len <= S m)%nat) by (intros H; apply Hi in H; lia).
      replace (S m - len)%nat with 0%nat by lia.
      replace (S (S m) - len)%nat with 0%nat by lia. reflexivity.
Qed.

Lemma read_decimal_zeros k s :
  read_decimal (repeat (ch "0") k ++ s) = read_decimal s.
Proof.
  unfold read_decimal. rewrite fold_left_app.
  replace (fold_left (fun a c => 10 * a + (c - ch "0")) (repeat (ch "0") k) 0)
    with 0; [reflexivity |].
  induction k as [| k IH]; cbn [repeat fold_left]; [reflexivity |].
  rewrite Z.sub_diag. exact IH.
Qed.

(** The text of [tx_fp], part by part. *)
Lemma tx_fp_text_parts val digits :
  - 2 ^ 31 < val < 2 ^ 31 -> 1 <= digits <= 9 ->
  let whole := ltoa (to_long (Z.abs val / 10 ^ digits)) 10 in
  let frac := Z.abs val mod 10 ^ digits in
  let frac_text :=
    repeat (ch "0") (Z.to_nat digits - length (ltoa (to_long frac) 10))
    ++ ltoa (to_long frac) 10 in
  tx_fp_text val digits
  = (if val <? 0 then ch "-" else ch "+") :: whole ++ ch "." :: frac_text /\
  Forall is_digit whole /\ read_decimal whole = Z.abs val / 10 ^ digits /\
  (1 <= length whole)%nat /\
  (forall i, (1 <= i)%nat ->
     (Z.abs val / 10 ^ digits < 10 ^ Z.of_nat i <-> (length whole <= i)%nat)) /\
  Forall is_digit frac_text /\ read_decimal frac_text = frac /\
  Z.of_nat (length frac_text) = digits.
Proof.
  intros Hv Hd whole frac frac_text.
  assert (Hp : 0 < 10 ^ digits) by (apply Z.pow_pos_nonneg; lia).
  assert (Ha : to_ulong (labs val) = Z.abs val).
  { unfold labs. rewrite (to_long_id val) by (unfold is_long; lia).
    destruct (Z.ltb_spec val 0).
    - rewrite to_long_id by (unfold is_long; lia).
      rewrite to_ulong_id by (unfold is_ulong; lia). lia.
    - rewrite to_ulong_id by (unfold is_ulong; lia). lia. }
  assert (Hw : 0 <= Z.abs val / 10 ^ digits < 2 ^ 31).
  { split; [apply Z.div_pos; lia |].
    apply Z.div_lt_upper_bound; [lia |]. nia. }
  assert (Hf : 0 <= frac < 10 ^ digits) by (apply Z.mod_pos_bound; lia).
  assert (Hf31 : 0 <= frac < 2 ^ 31).
  { split; [lia |]. apply Z.lt_le_trans with (10 ^ digits); [lia |].
    apply Z.le_trans with (10 ^ 9); [apply Z.pow_le_mono_r; lia | now vm_compute]. }
  destruct (ltoa_decimal _ Hw) as (W1 & W2 & W3 & W4).
  destruct (ltoa_decimal _ Hf31) as (F1 & F2 & F3 & F4).
  cbv zeta in *. fold whole in W1, W2, W3, W4.
  set (ft := ltoa (to_long frac) 10) in *.
  assert (Hlen : (length ft <= Z.to_nat digits)%nat).
  { apply F4; [lia |]. rewrite Z2Nat.id by lia. lia. }
  assert (Hz : fp_zeros digits frac
               = repeat (ch "0") (Z.to_nat digits - length ft)).
  { unfold fp_zeros.
    rewrite (fp_zeros_count frac (length ft) (Z.to_nat digits - 1));
      [f_equal; lia | lia | exact F3 | exact F4]. }
  split.
  { unfold tx_fp_text. rewrite Ha, pow10_exact by lia.
    destruct (Z.eqb_spec digits 0); [lia |].
    fold whole frac ft. rewrite Hz. reflexivity. }
  split; [exact W1 |]. split; [exact W2 |]. split; [exact W3 |].
  split; [exact W4 |].
  subst frac_text. split.
  { apply Forall_app. split; [| exact F1].
    apply List.Forall_forall. intros x Hx. apply repeat_spec in Hx. subst x.
    unfold is_digit. change (ch "0") with 48. change (ch "9") with 57. lia. }
  split; [now rewrite read_decimal_zeros |].
  rewrite length_app, repeat_length. lia.
Qed.

(** X22. [tx_fp] prints a fixed-point number.  For a value [val] other
    than the most negative [long] and 1 to 9 decimals, the bytes sent are
    the sign ([-] below zero, [+] otherwise), the decimal digits of
    [|val| / 10 ^ digits], a point, and exactly [digits] decimal digits
    that read as [|val| mod 10 ^ digits]: the padding loop of lines
    357-358 supplies the leading zeros that [ltoa] leaves out. *)
Theorem tx_fp_prints_fixed_point (val digits : Z) :
  - 2 ^ 31 < val < 2 ^ 31 -> 1 <= digits <= 9 ->
  exists whole frac : list Z,
    tx_fp_text val digits
    = (if val <? 0 then ch "-" else ch "+") :: whole ++ ch "." :: frac /\
    Forall is_digit whole /\ Forall is_digit frac /\
    Z.of_nat (length frac) = digits /\
    read_decimal whole = Z.abs val / 10 ^ digits /\
    read_decimal frac = Z.abs val mod 10 ^ digits.
Proof.
  intros Hv Hd.
  destruct (tx_fp_text_parts val digits Hv Hd)
    as (E & W1 & W2 & _ & _ & F1 & F2 & F3).
  cbv zeta in *. eexists _, _. split; [exact E |].
  repeat split; assumption.
Qed.

Lemma tx_fp_prints_fixed_point_witness :
  exists whole frac : list Z,
    tx_fp_text (-1507) 2 = ch "-" :: whole ++ ch "." :: frac /\
    Z.of_nat (length frac) = 2 /\
    read_decimal whole = 15 /\ read_decimal frac = 7.
Proof.
  destruct (tx_fp_prints_fixed_point (-1507) 2 ltac:(lia) ltac:(lia))
    as (w & f & E & _ & _ & L & W & F).
  exists w, f. split; [exact E |]. split; [exact L |].
  split; [exact W | exact F].
Defined.

(** ** Output without waiting *)

Lemma tx_char_room c t :
  ring_ok t -> (length (pending t) < 94)%nat ->
  exists t1, tx_char c t = Some t1.
Proof.
  intros (_ & Hh & Ht & _) Hl. rewrite pending_length in Hl.
  unfold tx_char. rewrite (buf_in_use_eq t Hh Ht). unfold TX_BUF_LEN in *.
  assert (0 <= (txbuf_head t - txbuf_tail t) mod 96)
    by (apply Z.mod_pos_bound; lia).
  destruct (Z.leb_spec (96 - 2) ((txbuf_head t - txbuf_tail t) mod 96));
    [lia | eauto].
Qed.

Lemma tx_str_room s : forall t,
  ring_ok t -> (length (pending t) + length s <= 94)%nat ->
  exists t1,
    tx_str s t = Some t1 /\ ring_ok t1 /\
    pending t1 = pending t ++ s /\ sent t1 = sent t /\
    (s <> [] -> UDRIE0 t1 = true).
Proof.
  induction s as [| c s IH]; intros t Hok Hl.
  - exists t. rewrite app_nil_r.
    split; [reflexivity |]. split; [exact Hok |]. split; [reflexivity |].
    split; [reflexivity |]. intros H. exfalso. now apply H.
  - cbn [length] in Hl.
    destruct (tx_char_room c t Hok ltac:(lia)) as [t1 E].
    destruct (tx_char_put c t t1 Hok E) as (Hok1 & P1 & S1).
    destruct (IH t1 Hok1) as (t2 & E2 & Hok2 & P2 & S2 & _).
    { rewrite P1, length_app. cbn [length]. lia. }
    exists t2. cbn [tx_str]. rewrite E.
    split; [exact E2 |]. split; [exact Hok2 |].
    split; [rewrite P2, P1, <- app_assoc; reflexivity |].
    split; [congruence |]. intros _.
    destruct Hok2 as (_ & _ & _ & _ & He). apply He. intros Eh.
    assert (Hp : pending t2 = []).
    { unfold pending. rewrite Eh, Z.sub_diag. reflexivity. }
    rewrite P2, P1 in Hp. destruct (pending t); discriminate.
Qed.

Lemma utoa_length fuel : forall radix n i,
  2 <= radix -> 0 <= n < radix ^ Z.of_nat i -> (1 <= i)%nat ->
  (length (utoa_loop fuel radix n []) <= i)%nat.
Proof.
  induction fuel as [| fuel IH]; intros radix n i Hr Hn Hi; cbn [utoa_loop].
  - cbn [length]. lia.
  - cbv zeta. destruct (Z.eqb_spec (n / radix) 0) as [Hq | Hq];
      [cbn [length]; lia |].
    rewrite utoa_loop_acc, length_app. cbn [length].
    destruct i as [| i]; [lia |].
    assert (Hq0 : 0 < n / radix).
    { assert (0 <= n / radix) by (apply Z.div_pos; lia). lia. }
    destruct i as [| i].
    { change (radix ^ Z.of_nat 1) with (radix ^ 1) in Hn.
      rewrite Z.pow_1_r in Hn. rewrite Z.div_small in Hq0 by lia. lia. }
    assert (Hn' : 0 <= n / radix < radix ^ Z.of_nat (S i)).
    { split; [lia |]. apply Z.div_lt_upper_bound; [lia |].
      rewrite (Nat2Z.inj_succ (S i)), Z.pow_succ_r in Hn by lia. lia. }
    specialize (IH radix (n / radix) (S i) Hr Hn' ltac:(lia)). lia.
Qed.

Lemma length_if (b : bool) (x : list Z) :
  (length (if b then x else []) <= length x)%nat.
Proof. destruct b; cbn [length]; lia. Qed.

Lemma itoa_hex_length v : (length (itoa v 16) <= 4)%nat.
Proof.
  unfold itoa. cbn [Z.eqb andb].
  apply utoa_length; [lia | | lia].
  assert (H := to_uint_is_uint v). unfold is_uint in H.
  change (16 ^ Z.of_nat 4) with (2 ^ 16). exact H.
Qed.

Lemma tx_fp_trim_length ee :
  is_uint ee ->
  let trim_value := if ee =? 0xffff then 0x8000 else ee in
  let trim_percent := to_long ((trim_value - 0x8000) * 100) in
  (length (tx_fp_text (to_long (DAC_SIGN * trim_percent)) 2) <= 9)%nat.
Proof.
  intros He tv tp.
  assert (Htv : 0 <= tv < 65536).
  { subst tv. unfold is_uint in He. destruct (ee =? 65535); lia. }
  assert (Etp : tp = (tv - 32768) * 100).
  { subst tp. apply to_long_id. unfold is_long. lia. }
  assert (Ev : to_long (DAC_SIGN * tp) = - tp).
  { unfold DAC_SIGN. rewrite to_long_id by (unfold is_long; lia). lia. }
  rewrite Ev.
  destruct (tx_fp_text_parts (- tp) 2 ltac:(lia) ltac:(lia))
    as (E & _ & _ & _ & W4 & _ & _ & F3).
  cbv zeta in *. rewrite E. cbn [length]. rewrite length_app. cbn [length].
  assert (Hw : (length (ltoa (to_long (Z.abs (- tp) / 10 ^ 2)) 10) <= 5)%nat).
  { apply W4; [lia |]. apply Z.div_lt_upper_bound; [lia |].
    change (10 ^ 2 * 10 ^ Z.of_nat 5) with 10000000. lia. }
  lia.
Qed.

(** X23. Boot prints without waiting.  What [main] prints before it
    enables interrupts (the START line, one line for each reset flag set,
    the EEPROM word and the trim) has at most 65 bytes, so every call of
    [tx_char] finds room in the ring, which holds 94: no call can spin
    on a transmit interrupt that is not yet allowed to run.  When [sei]
    is reached the whole text waits in the ring with the transmit
    interrupt enabled. *)
Theorem boot_banner_fits (mcusr_value ee : Z) :
  is_uint ee ->
  (length (boot_banner mcusr_value ee) <= 65)%nat /\
  exists t,
    tx_str (boot_banner mcusr_value ee) reset_transmitter = Some t /\
    pending t = boot_banner mcusr_value ee /\ sent t = [] /\
    UDRIE0 t = true.
Proof.
  intros He.
  assert (Hlen : (length (boot_banner mcusr_value ee) <= 65)%nat).
  { unfold boot_banner. cbv zeta.
    assert (H1 := itoa_hex_length
                    (to_int (if ee =? 65535 then 32768 else ee))).
    assert (H2 := tx_fp_trim_length ee He). cbv zeta in H2.
    set (hex := itoa _ 16) in *. set (fp := tx_fp_text _ 2) in *.
    assert (L1 := length_if (Z.testbit mcusr_value PORF) (bytes "RES_PO" ++ crlf)).
    assert (L2 := length_if (Z.testbit mcusr_value EXTRF) (bytes "RES_EXT" ++ crlf)).
    assert (L3 := length_if (Z.testbit mcusr_value BORF) (bytes "RES_BO" ++ crlf)).
    assert (L4 := length_if (Z.testbit mcusr_value WDRF) (bytes "RES_WD" ++ crlf)).
    change (length (bytes "RES_PO" ++ crlf)) with 8%nat in L1.
    change (length (bytes "RES_EXT" ++ crlf)) with 9%nat in L2.
    change (length (bytes "RES_BO" ++ crlf)) with 8%nat in L3.
    change (length (bytes "RES_WD" ++ crlf)) with 8%nat in L4.
    rewrite !length_app.
    change (length (bytes "START")) with 5%nat.
    change (length crlf) with 2%nat.
    change (length (bytes "EE=0x")) with 5%nat.
    change (length (bytes "TP=")) with 3%nat.
    lia. }
  split; [exact Hlen |].
  destruct (tx_str_room (boot_banner mcusr_value ee) reset_transmitter
              reset_transmitter_ok) as (t & E & _ & P & S & U).
  { change (length (pending reset_transmitter)) with 0%nat. lia. }
  exists t. split; [exact E |]. split; [exact P |]. split; [exact S |].
  apply U. unfold boot_banner. discriminate.
Qed.

Lemma boot_banner_fits_witness :
  boot_banner 1 0xffff = bytes "START" ++ crlf ++ bytes "RES_PO" ++ crlf
                         ++ bytes "EE=0x8000" ++ crlf ++ bytes "TP=+0.00" ++ crlf /\
  (length (boot_banner 15 0xe000) <= 65)%nat /\
  length (boot_banner 15 0xe000) = 65%nat.
Proof.
  destruct (boot_banner_fits 15 0xe000 ltac:(by_computation)) as [H _].
  split; [reflexivity |]. split; [exact H | reflexivity].
Defined.

(** ** The DAC at its pins *)

Lemma port_trace_app a b p :
  port_trace (a ++ b) p = port_trace a p ++ port_trace b (port_after a p).
Proof.
  revert p. induction a as [| o a IH]; intros p; cbn [app port_trace]; [reflexivity |].
  rewrite IH. reflexivity.
Qed.

Lemma port_after_app a b p :
  port_after (a ++ b) p = port_after b (port_after a p).
Proof. unfold port_after. apply fold_left_app. Qed.

Lemma ad5061_run_app x y chip :
  ad5061_run (x ++ y) chip = ad5061_run y (ad5061_run x chip).
Proof. unfold ad5061_run. apply fold_left_app. Qed.

Lemma pulse_restores port :
  Z.testbit port 4 = true -> Z.lor (Z.ldiff port DAC_CLK) DAC_CLK = port.
Proof.
  intros H. apply Z.bits_inj'. intros n Hn.
  change DAC_CLK with (2 ^ 4). rewrite testbit_on, testbit_off by lia.
  destruct (Z.eqb_spec 4 n) as [<- | _]; cbn [negb].
  - now rewrite H.
  - now rewrite andb_true_r, orb_false_r.
Qed.

(** A clock pulse shifts the level of DO into the selected chip and
    leaves the port as it was. *)
Lemma pulse_shifts d port bits out :
  clocking d port ->
  ad5061_run (port_trace clock_pulse port) (mkAd5061 port bits out)
  = mkAd5061 port (bits ++ [d]) out /\
  port_after clock_pulse port = port.
Proof.
  intros (Hcs & Hclk & Hdo).
  assert (Hr := pulse_restores port Hclk).
  unfold clock_pulse, port_after. cbn [port_trace apply_op fold_left].
  rewrite Hr. split; [| reflexivity].
  assert (T3 : Z.testbit (Z.ldiff port DAC_CLK) 3 = false).
  { change DAC_CLK with (2 ^ 4). rewrite testbit_off by lia. now rewrite Hcs. }
  assert (T4 : Z.testbit (Z.ldiff port DAC_CLK) 4 = false).
  { change DAC_CLK with (2 ^ 4). rewrite testbit_off by lia. now rewrite Hclk. }
  assert (T5 : Z.testbit (Z.ldiff port DAC_CLK) 5 = d).
  { change DAC_CLK with (2 ^ 4). rewrite testbit_off by lia.
    rewrite Hdo. apply andb_true_r. }
  unfold ad5061_run. cbn [fold_left].
  unfold ad5061_step. cbn [pins shifted output].
  rewrite Hcs, Hclk, T3, T4, T5. cbn [andb negb pins shifted output].
  rewrite ?T3, ?T4, ?Hcs, ?Hclk. reflexivity.
Qed.

Lemma pulses_shift n : forall d port bits out,
  clocking d port ->
  ad5061_run (port_trace (concat (repeat clock_pulse n)) port)
    (mkAd5061 port bits out)
  = mkAd5061 port (bits ++ repeat d n) out /\
  port_after (concat (repeat clock_pulse n)) port = port.
Proof.
  induction n as [| n IH]; intros d port bits out Hc.
  - cbn. now rewrite app_nil_r.
  - cbn [repeat concat].
    rewrite port_trace_app, ad5061_run_app, port_after_app.
    destruct (pulse_shifts d port bits out Hc) as [E1 E2].
    rewrite E1, E2.
    destruct (IH d port (bits ++ [d]) out Hc) as [I1 I2].
    rewrite I1, I2, <- app_assoc. split; reflexivity.
Qed.

(** Setting DO between pulses is not seen by the chip until the next
    falling edge. *)
Lemma set_dout (b d : bool) port :
  clocking d port ->
  let port' := apply_op (if b then Raise DAC_DO else Lower DAC_DO) port in
  clocking b port' /\
  forall bits out,
    ad5061_step (mkAd5061 port bits out) port' = mkAd5061 port' bits out.
Proof.
  intros (Hcs & Hclk & Hdo). cbv zeta.
  assert (Hc : clocking b (apply_op (if b then Raise DAC_DO else Lower DAC_DO) port)).
  { unfold clocking. change DAC_DO with (2 ^ 5).
    destruct b; cbn [apply_op]; rewrite ?testbit_on, ?testbit_off by lia;
      rewrite Hcs, Hclk, Hdo; cbn; repeat split; destruct d; reflexivity. }
  split; [exact Hc |]. intros bits out.
  destruct Hc as (Hcs' & Hclk' & _).
  unfold ad5061_step. cbn [pins shifted output].
  rewrite Hcs, Hclk, Hcs', Hclk'. reflexivity.
Qed.

Lemma bits_shift value idx : forall d port bits out,
  clocking d port ->
  exists d' port',
    clocking d' port' /\
    ad5061_run
      (port_trace
         (flat_map (fun i => (if frame_bit value i then Raise DAC_DO
                              else Lower DAC_DO) :: clock_pulse) idx) port)
      (mkAd5061 port bits out)
    = mkAd5061 port' (bits ++ map (frame_bit value) idx) out /\
    port_after
      (flat_map (fun i => (if frame_bit value i then Raise DAC_DO
                           else Lower DAC_DO) :: clock_pulse) idx) port
    = port'.
Proof.
  induction idx as [| i idx IH]; intros d port bits out Hc.
  - exists d, port. cbn. rewrite app_nil_r. repeat split; apply Hc.
  - cbn [flat_map map].
    change ((?x :: clock_pulse) ++ ?y) with ([x] ++ clock_pulse ++ y).
    rewrite !port_trace_app, !ad5061_run_app, !port_after_app.
    destruct (set_dout (frame_bit value i) d port Hc) as [Hc1 Hs].
    cbv zeta in *.
    set (p1 := apply_op _ port) in *.
    change (port_after [if frame_bit value i then Raise DAC_DO else Lower DAC_DO] port)
      with p1.
    change (ad5061_run (port_trace [if frame_bit value i then Raise DAC_DO
                                    else Lower DAC_DO] port)
              (mkAd5061 port bits out))
      with (ad5061_step (mkAd5061 port bits out) p1).
    rewrite Hs.
    destruct (pulse_shifts (frame_bit value i) p1 bits out Hc1) as [E1 E2].
    rewrite E1, E2.
    destruct (IH (frame_bit value i) p1 (bits ++ [frame_bit value i]) out Hc1)
      as (d' & port' & Hc' & R & A).
    exists d', port'. rewrite R, A, <- app_assoc. repeat split; apply Hc'.
Qed.

Lemma apply_op_other o port n :
  (o = Raise DAC_CS \/ o = Lower DAC_CS \/ o = Raise DAC_CLK
   \/ o = Lower DAC_CLK \/ o = Raise DAC_DO \/ o = Lower DAC_DO) ->
  n <> 3 -> n <> 4 -> n <> 5 ->
  Z.testbit (apply_op o port) n = Z.testbit port n.
Proof.
  intros Ho H3 H4 H5.
  change DAC_CS with (2 ^ 3) in Ho. change DAC_CLK with (2 ^ 4) in Ho.
  change DAC_DO with (2 ^ 5) in Ho.
  destruct Ho as [-> | [-> | [-> | [-> | [-> | ->]]]]]; cbn [apply_op];
    rewrite ?testbit_on, ?testbit_off by lia;
    repeat match goal with
           | |- context [?k =? n] => destruct (Z.eqb_spec k n); [lia |]
           end;
    cbn [negb]; rewrite ?orb_false_r, ?andb_true_r; reflexivity.
Qed.

Lemma dac_ops_pins value o :
  In o (dac_ops value) ->
  o = Raise DAC_CS \/ o = Lower DAC_CS \/ o = Raise DAC_CLK
  \/ o = Lower DAC_CLK \/ o = Raise DAC_DO \/ o = Lower DAC_DO.
Proof.
  unfold dac_ops. intros H.
  apply in_app_or in H. destruct H as [H | H].
  { cbn [In] in H. intuition. }
  apply in_app_or in H. destruct H as [H | H].
  { apply in_concat in H. destruct H as (l & Hl & H).
    apply repeat_spec in Hl. subst l. cbn [In clock_pulse] in H. intuition. }
  apply in_app_or in H. destruct H as [H | H].
  { apply in_flat_map in H. destruct H as (i & _ & H). cbn [In clock_pulse] in H.
    destruct (frame_bit value i); intuition. }
  cbn [In] in H. intuition.
Qed.

Lemma port_trace_other ops : forall port p n,
  (forall o, In o ops ->
     o = Raise DAC_CS \/ o = Lower DAC_CS \/ o = Raise DAC_CLK
     \/ o = Lower DAC_CLK \/ o = Raise DAC_DO \/ o = Lower DAC_DO) ->
  In p (port_trace ops port) ->
  n <> 3 -> n <> 4 -> n <> 5 ->
  Z.testbit p n = Z.testbit port n.
Proof.
  induction ops as [| o ops IH]; intros port p n Ho Hin H3 H4 H5;
    cbn [port_trace In] in Hin; [contradiction |].
  assert (E := apply_op_other o port n (Ho o (or_introl eq_refl)) H3 H4 H5).
  destruct Hin as [<- | Hin]; [exact E |].
  rewrite <- E. apply (IH (apply_op o port)); try assumption.
  intros o' Ho'. apply Ho. now right.
Qed.

Lemma port_trace_length ops : forall port,
  length (port_trace ops port) = length ops.
Proof.
  induction ops as [| o ops IH]; intros port; cbn [port_trace length];
    [reflexivity |]. now rewrite IH.
Qed.

(** The frame as the chip receives it, up to the rise of !CS. *)
Lemma dac_frame_shifted value port bits out :
  Z.testbit port 3 = true ->
  let ops := [Raise DAC_CLK; Lower DAC_CS; Lower DAC_DO]
             ++ concat (repeat clock_pulse 8)
             ++ flat_map
                  (fun i => (if frame_bit value i then Raise DAC_DO
                             else Lower DAC_DO) :: clock_pulse)
                  (rev (seq 0 16)) in
  exists d port',
    clocking d port' /\
    ad5061_run (port_trace ops port) (mkAd5061 port bits out)
    = mkAd5061 port' (dac_frame value) out /\
    port_after ops port = port'.
Proof.
  intros Hcs ops. subst ops.
  set (p3 := port_after [Raise DAC_CLK; Lower DAC_CS; Lower DAC_DO] port).
  assert (Hc3 : clocking false p3).
  { subst p3. unfold clocking, port_after. cbn [fold_left apply_op].
    change DAC_CS with (2 ^ 3). change DAC_CLK with (2 ^ 4).
    change DAC_DO with (2 ^ 5).
    rewrite !testbit_off, !testbit_on by lia. rewrite Hcs. cbn.
    rewrite ?andb_false_r, ?orb_true_r. repeat split. }
  assert (Hstart : ad5061_run
                     (port_trace [Raise DAC_CLK; Lower DAC_CS; Lower DAC_DO] port)
                     (mkAd5061 port bits out)
                   = mkAd5061 p3 [] out).
  { subst p3. unfold ad5061_run, port_after. cbn [port_trace fold_left apply_op].
    set (p1 := Z.lor port DAC_CLK).
    set (p2 := Z.ldiff p1 DAC_CS).
    set (p3 := Z.ldiff p2 DAC_DO).
    assert (A3 : Z.testbit p1 3 = true).
    { subst p1. change DAC_CLK with (2 ^ 4). rewrite testbit_on by lia.
      now rewrite Hcs. }
    assert (A4 : Z.testbit p1 4 = true).
    { subst p1. change DAC_CLK with (2 ^ 4). rewrite testbit_on by lia.
      apply orb_true_r. }
    assert (B3 : Z.testbit p2 3 = false).
    { subst p2. change DAC_CS with (2 ^ 3). rewrite testbit_off by lia.
      apply andb_false_r. }
    assert (B4 : Z.testbit p2 4 = true).
    { subst p2. change DAC_CS with (2 ^ 3). rewrite testbit_off by lia.
      now rewrite A4. }
    assert (C3 : Z.testbit p3 3 = false).
    { subst p3. change DAC_DO with (2 ^ 5). rewrite testbit_off by lia.
      now rewrite B3. }
    assert (C4 : Z.testbit p3 4 = true).
    { subst p3. change DAC_DO with (2 ^ 5). rewrite testbit_off by lia.
      now rewrite B4. }
    assert (S1 : ad5061_step (mkAd5061 port bits out) p1 = mkAd5061 p1 bits out).
    { unfold ad5061_step. cbn [pins shifted output].
      rewrite Hcs, A3, A4. cbn [andb negb]. reflexivity. }
    assert (S2 : ad5061_step (mkAd5061 p1 bits out) p2 = mkAd5061 p2 [] out).
    { unfold ad5061_step. cbn [pins shifted output].
      rewrite A3, B3. cbn [andb negb]. reflexivity. }
    assert (S3 : ad5061_step (mkAd5061 p2 [] out) p3 = mkAd5061 p3 [] out).
    { unfold ad5061_step. cbn [pins shifted output].
      rewrite B3, B4, C3, C4. cbn [andb negb]. reflexivity. }
    now rewrite S1, S2, S3. }
  rewrite !port_trace_app, !ad5061_run_app, !port_after_app.
  fold p3. rewrite Hstart.
  destruct (pulses_shift 8 false p3 [] out Hc3) as [E1 E2].
  rewrite E1, E2.
  destruct (bits_shift value (rev (seq 0 16)) false p3 ([] ++ repeat false 8)
              out Hc3) as (d' & port' & Hc' & R & A).
  exists d', port'. split; [exact Hc' |]. split; [| exact A].
  rewrite R. reflexivity.
Qed.

(** X24. The pins of the DAC carry the word.  A write of [value] drives
    [DAC_PORT] through 68 values.  An AD5061 that finds !CS high before
    the call sees !CS fall, then 24 falling clock edges with DO at eight
    zeros followed by bits 15 to 0 of [value], then !CS rise: the word it
    puts out is [value].  The call leaves !CS and the clock high, as the
    next call expects them, and never changes another pin of the port. *)
Theorem dac_pins_deliver_word (value port : Z) (chip : Ad5061) :
  is_uint value -> pins chip = port -> Z.testbit port 3 = true ->
  let ports := port_trace (dac_ops value) port in
  let chip' := ad5061_run ports chip in
  output chip' = Some value /\
  shifted (ad5061_run (removelast ports) chip) = dac_frame value /\
  length ports = 68%nat /\
  Z.testbit (pins chip') 3 = true /\ Z.testbit (pins chip') 4 = true /\
  (forall p n, In p ports -> n <> 3 -> n <> 4 -> n <> 5 ->
               Z.testbit p n = Z.testbit port n).
Proof.
  intros Hv Hp Hcs ports chip'.
  destruct chip as [p0 bits out]. cbn [pins] in Hp. subst p0.
  destruct (dac_frame_shifted value port bits out Hcs)
    as (d & port' & (Hcs' & Hclk' & _) & R & A).
  cbv zeta in R, A.
  set (ops := [Raise DAC_CLK; Lower DAC_CS; Lower DAC_DO]
              ++ concat (repeat clock_pulse 8)
              ++ flat_map
                   (fun i => (if frame_bit value i then Raise DAC_DO
                              else Lower DAC_DO) :: clock_pulse)
                   (rev (seq 0 16))) in *.
  assert (Eops : dac_ops value = ops ++ [Raise DAC_CS]).
  { unfold dac_ops. subst ops. now rewrite <- !app_assoc. }
  assert (Eports : ports = port_trace ops port ++ [Z.lor port' DAC_CS]).
  { subst ports. rewrite Eops, port_trace_app, A. reflexivity. }
  assert (L3 : Z.testbit (Z.lor port' DAC_CS) 3 = true).
  { change DAC_CS with (2 ^ 3). rewrite testbit_on by lia. apply orb_true_r. }
  assert (L4 : Z.testbit (Z.lor port' DAC_CS) 4 = true).
  { change DAC_CS with (2 ^ 3). rewrite testbit_on by lia. now rewrite Hclk'. }
  assert (Elast : chip' = mkAd5061 (Z.lor port' DAC_CS) [] (Some value)).
  { subst chip'. rewrite Eports, ad5061_run_app, R.
    unfold ad5061_run. cbn [fold_left]. unfold ad5061_step.
    cbn [pins shifted output]. rewrite Hcs', L3. cbn [andb negb].
    rewrite dac_frame_length, Nat.eqb_refl, dac_latch_frame by exact Hv.
    reflexivity. }
  rewrite Elast. cbn [output pins].
  split; [reflexivity |]. split.
  { rewrite Eports, removelast_last, R. reflexivity. }
  split.
  { subst ports. rewrite port_trace_length. reflexivity. }
  split; [exact L3 |]. split; [exact L4 |].
  intros p n Hin H3 H4 H5.
  apply (port_trace_other (dac_ops value) port p n); try assumption.
  intros o. apply dac_ops_pins.
Qed.

Lemma dac_pins_deliver_word_witness :
  let ports := port_trace (dac_ops 0x7fff) 0x88 in
  output (ad5061_run ports (mkAd5061 0x88 [] None)) = Some 0x7fff /\
  shifted (ad5061_run (removelast ports) (mkAd5061 0x88 [] None))
  = dac_frame 0x7fff /\
  last ports = Some 0xb8.
Proof.
  intros ports.
  destruct (dac_pins_deliver_word 0x7fff 0x88 (mkAd5061 0x88 [] None)
              ltac:(by_computation) eq_refl eq_refl)
    as (A & B & _).
  split; [exact A |]. split; [exact B | reflexivity].
Defined.
